(** * Spendlite: ingestion, rule store, match engine and categoriser

    A shallow embedding of the pure core of [script.js]:
    [parseAmount], [sortRulesBox], [parseRules], [matchesKeyword],
    [categorise], [normalisePdfDate] and [parseWestpacPdfText].

    Conventions of the embedding.
    - A JavaScript string is a [string] of 7-bit characters; the case
      mappings, the white-space class and the regular-expression classes
      are the ASCII parts of the JavaScript ones.
    - A JavaScript number is a binary64 [float]; [Number(s)] on a decimal
      literal is the correctly rounded quotient of its digits by a power
      of ten.
    - [null]/[undefined] are [None]; truthiness is written out where the
      source relies on it.
    - The DOM text box read and written by [sortRulesBox] is the argument
      and the result of the function. *)

From Stdlib Require Import ZArith Bool List Ascii String Lia Permutation.
From Stdlib Require Import PrimFloat SpecFloat FloatOps.
From Stdlib Require FloatAxioms.
Import ListNotations.

Set Warnings "-inexact-float".

Open Scope string_scope.

(** ** Characters *)

Module Char.

Definition code (c : ascii) : nat := nat_of_ascii c.

Definition inRange (lo hi : nat) (c : ascii) : bool :=
  (lo <=? code c)%nat && (code c <=? hi)%nat.

Definition isCode (n : nat) (c : ascii) : bool := (code c =? n)%nat.

(** [\d] *)
Definition isDigit : ascii -> bool := inRange 48 57.
(** [A-Z] and [a-z] *)
Definition isUpper : ascii -> bool := inRange 65 90.
Definition isLower : ascii -> bool := inRange 97 122.
Definition isLetter (c : ascii) : bool := isUpper c || isLower c.
(** [\s], and the characters removed by [trim]: TAB, LF, VT, FF, CR, SP *)
Definition isWhite (c : ascii) : bool := inRange 9 13 c || isCode 32 c.

Definition LF : ascii := ascii_of_nat 10.
Definition CR : ascii := ascii_of_nat 13.
Definition isLF : ascii -> bool := isCode 10.
Definition isCR : ascii -> bool := isCode 13.

Definition toUpper (c : ascii) : ascii :=
  if isLower c then ascii_of_nat (code c - 32) else c.
Definition toLower (c : ascii) : ascii :=
  if isUpper c then ascii_of_nat (code c + 32) else c.

End Char.

(** ** String primitives of the host language *)

Module Js.

Import Char.

Definition isEmpty (s : string) : bool :=
  match s with "" => true | _ => false end.

(** Truthiness of a string: [Boolean(s)]. *)
Definition truthy (s : string) : bool := negb (isEmpty s).

Fixpoint map (f : ascii -> ascii) (s : string) : string :=
  match s with
  | "" => ""
  | String c r => String (f c) (map f r)
  end.

Fixpoint filter (p : ascii -> bool) (s : string) : string :=
  match s with
  | "" => ""
  | String c r => if p c then String c (filter p r) else filter p r
  end.

Fixpoint all (p : ascii -> bool) (s : string) : bool :=
  match s with
  | "" => true
  | String c r => p c && all p r
  end.

Definition toUpperCase : string -> string := map toUpper.
Definition toLowerCase : string -> string := map toLower.

Fixpoint trimStart (s : string) : string :=
  match s with
  | "" => ""
  | String c r => if isWhite c then trimStart r else s
  end.

Fixpoint trimEnd (s : string) : string :=
  match s with
  | "" => ""
  | String c r =>
      let r' := trimEnd r in
      if isWhite c && isEmpty r' then "" else String c r'
  end.

Definition trim (s : string) : string := trimEnd (trimStart s).

Definition startsWithChar (p : ascii -> bool) (s : string) : bool :=
  match s with
  | "" => false
  | String c _ => p c
  end.

(** Prepend a character to the first piece of a split. *)
Definition consHead (c : ascii) (l : list string) : list string :=
  match l with
  | [] => [String c ""]
  | h :: t => String c h :: t
  end.

(** [s.split(/\r?\n/)] *)
Fixpoint splitLines (s : string) : list string :=
  match s with
  | "" => [""]
  | String c r =>
      if isLF c then "" :: splitLines r
      else if isCR c && startsWithChar isLF r then splitLines r
      else consHead c (splitLines r)
  end.

(** [s.split(/\n+/)] and [s.split(/\s+/)]: split at maximal runs. *)
Fixpoint splitRuns (p : ascii -> bool) (s : string) : list string :=
  match s with
  | "" => [""]
  | String c r =>
      if p c then
        if startsWithChar p r then splitRuns p r else "" :: splitRuns p r
      else consHead c (splitRuns p r)
  end.

(** [s.split(/=>/i)] and [s.split(/=>/)] *)
Fixpoint splitArrow (s : string) : list string :=
  match s with
  | "" => [""]
  | String c r =>
      match r with
      | String d r' =>
          if isCode 61 c && isCode 62 d then "" :: splitArrow r'
          else consHead c (splitArrow r)
      | "" => [String c ""]
      end
  end.

(** [s.split(' ')] *)
Fixpoint splitSpace (s : string) : list string :=
  match s with
  | "" => [""]
  | String c r =>
      if isCode 32 c then "" :: splitSpace r else consHead c (splitSpace r)
  end.

(** [l.join(sep)] *)
Fixpoint join (sep : string) (l : list string) : string :=
  match l with
  | [] => ""
  | [x] => x
  | x :: t => x ++ sep ++ join sep t
  end.

Definition nl : string := String LF "".

Fixpoint repeatChar (c : ascii) (n : nat) : string :=
  match n with
  | O => ""
  | S n' => String c (repeatChar c n')
  end.

(** [s.padStart(n, '0')] *)
Definition padStart0 (n : nat) (s : string) : string :=
  repeatChar "0" (n - String.length s) ++ s.

End Js.

(** ** Numbers *)

Module Num.

Import Char.

(** Truthiness of a number: neither [NaN] nor a zero. *)
Definition truthy (x : float) : bool := negb (is_nan x) && negb (is_zero x).

(** The binary64 value nearest to [(-1)^neg * m / 10^k], ties to even. *)
Definition ofDecimal (neg : bool) (m : Z) (k : nat) : float :=
  match m, (10 ^ Z.of_nat k)%Z with
  | Zpos p, Zpos q =>
      SF2Prim (SFdiv prec emax (S754_finite neg p 0) (S754_finite false q 0))
  | _, _ => if neg then neg_zero else zero
  end.

Fixpoint digitsValue (acc : Z) (s : string) : Z :=
  match s with
  | "" => acc
  | String c r => digitsValue (10 * acc + Z.of_nat (code c - 48)) r
  end.

(** The longest prefix of decimal digits, and what follows it. *)
Fixpoint spanDigits (s : string) : string * string :=
  match s with
  | "" => ("", "")
  | String c r =>
      if isDigit c then let (d, t) := spanDigits r in (String c d, t)
      else ("", s)
  end.

(** [StrUnsignedDecimalLiteral] without exponent:
    digits, digits[.]digits?, or [.]digits. *)
Definition unsignedDecimal (neg : bool) (s : string) : float :=
  let (ip, t) := spanDigits s in
  match t with
  | "" =>
      if Js.isEmpty ip then nan else ofDecimal neg (digitsValue 0 ip) 0
  | String c t' =>
      if isCode 46 c then
        let (fp, u) := spanDigits t' in
        if Js.isEmpty u && negb (Js.isEmpty ip && Js.isEmpty fp)
        then ofDecimal neg (digitsValue 0 (ip ++ fp)) (String.length fp)
        else nan
      else nan
  end.

(** [Number(s)] for a text [s] over the characters that survive the strip
    of [parseAmount] (decimal digits, [-] and [.]): the empty text is [0],
    an optionally negated decimal literal is its value, anything else is
    [NaN]. *)
Definition Number (s : string) : float :=
  match s with
  | "" => zero
  | String c r =>
      if isCode 45 c then unsignedDecimal true r else unsignedDecimal false s
  end.

End Num.

(** ** AmountParser ([parseAmount], script.js 126-130) *)

(** The class [[^\d\-,.]] is the complement of [keptByStrip]. *)
Definition keptByStrip (c : ascii) : bool :=
  Char.isDigit c || Char.isCode 45 c || Char.isCode 44 c || Char.isCode 46 c.

Definition notComma (c : ascii) : bool := negb (Char.isCode 44 c).

(** [String(s).replace(/[^\d\-,.]/g, '').replace(/,/g, '')] *)
Definition stripAmount (s : string) : string :=
  Js.filter notComma (Js.filter keptByStrip s).

(** [if (s == null) return 0; ...; return Number(s) || 0] *)
Definition parseAmount (s : option string) : float :=
  match s with
  | None => zero
  | Some s =>
      let n := Num.Number (stripAmount s) in
      if Num.truthy n then n else zero
  end.

(** ** RuleStore *)

Module RuleStore.

Import Js.

Record Rule : Set := mkRule { keyword : string; category : string }.

(** [!trimmed || trimmed.startsWith('#')] *)
Definition blankOrComment (trimmed : string) : bool :=
  isEmpty trimmed || startsWithChar (Char.isCode 35) trimmed.

(** [arr.push(x)] *)
Definition push {A : Type} (arr : list A) (x : A) : list A :=
  (arr ++ [x])%list.

(** *** [parseRules] (script.js 365-379) *)

(** One turn of the loop of [parseRules]. *)
Definition parseRulesStep (rules : list Rule) (line : string) : list Rule :=
  let trimmed := trim line in
  if blankOrComment trimmed then rules
  else
    let parts := splitArrow trimmed in
    if (2 <=? List.length parts)%nat then
      let keyword := toLowerCase (trim (nth 0 parts "")) in
      let category := toUpperCase (trim (nth 1 parts "")) in
      if truthy keyword && truthy category
      then push rules (mkRule keyword category)
      else rules
    else rules.

Definition parseRules (text : string) : list Rule :=
  fold_left parseRulesStep (splitLines text) [].

(** *** [sortRulesBox] (script.js 157-208) *)

(** The two arrays filled by the first loop of [sortRulesBox]. *)
Record Buckets : Set := mkBuckets {
  comments : list string;
  ruleLines : list string
}.

(** One turn of the first loop of [sortRulesBox]. *)
Definition bucketStep (b : Buckets) (line : string) : Buckets :=
  let trimmed := trim line in
  if blankOrComment trimmed
  then mkBuckets (push (comments b) line) (ruleLines b)
  else
    let parts := splitArrow line in
    if (2 <=? List.length parts)%nat then
      let keyword := trim (nth 0 parts "") in
      let category := trim (join "=>" (tl parts)) in
      if truthy keyword && truthy category
      then mkBuckets (comments b)
             (push (ruleLines b)
                (toUpperCase keyword ++ " => " ++ toUpperCase category))
      else b
    else mkBuckets (push (comments b) line) (ruleLines b).

(** The sort key of an emitted rule line:
    [a.split(/=>/)[0].trim().toLowerCase()]. *)
Definition sortKey (a : string) : string :=
  toLowerCase (trim (nth 0 (splitArrow a) "")).

Section Sorting.

(** [ka.localeCompare(kb, undefined, { sensitivity: 'base' })]: the
    collation of the host's default locale, negative, zero or positive. *)
Variable localeCompare : string -> string -> Z.

Definition compareLines (a b : string) : Z :=
  localeCompare (sortKey a) (sortKey b).

(** [Array.prototype.sort] is stable; a stable insertion sort stands for
    it. *)
Fixpoint insertLine (x : string) (l : list string) : list string :=
  match l with
  | [] => [x]
  | y :: t =>
      if (compareLines x y <=? 0)%Z then x :: l else y :: insertLine x t
  end.

Fixpoint sortLines (l : list string) : list string :=
  match l with
  | [] => []
  | x :: t => insertLine x (sortLines t)
  end.

Definition nonEmpty {A : Type} (l : list A) : bool :=
  match l with [] => false | _ => true end.

(** The text [next] that [sortRulesBox] computes from the box's value. *)
Definition canonicalize (original : string) : string :=
  let lines := splitLines original in
  let b := fold_left bucketStep lines (mkBuckets [] []) in
  let sorted := sortLines (ruleLines b) in
  let parts :=
    ((if nonEmpty (comments b) then comments b else [])
     ++ (if nonEmpty (comments b) && nonEmpty sorted then [""] else [])
     ++ (if nonEmpty sorted then sorted else []))%list in
  join nl parts.

(** [sortRulesBox]: the new value of the box, and the returned flag. *)
Definition sortRulesBox (original : string) : string * bool :=
  let next := canonicalize original in
  if negb (String.eqb next original) then (next, true) else (original, false).

End Sorting.

End RuleStore.

(** ** Regular expressions

    The fragment of the host's regular expressions that the program uses,
    with a backtracking matcher in continuation-passing style.  The state
    of a match is the text still to read and whether the match stands at
    index 0 of the subject (for [^]). *)

Module Regex.

Inductive re : Type :=
| Eps                                  (* the empty pattern *)
| Bos                                  (* [^] *)
| Eos                                  (* [$] *)
| Chr (c : ascii)                      (* one literal character *)
| Cls (p : ascii -> bool)              (* a character class *)
| Alt (a b : re)                       (* [a|b] *)
| Cat (a b : re)                       (* [ab] *)
| Plus (p : ascii -> bool).            (* [[class]+] *)

(** [a?] *)
Definition Opt (a : re) : re := Alt a Eps.

(** A text whose characters all stand for themselves. *)
Fixpoint Lit (s : string) : re :=
  match s with
  | "" => Eps
  | String c r => Cat (Chr c) (Lit r)
  end.

(** [a{n}] *)
Fixpoint Rep (n : nat) (a : re) : re :=
  match n with
  | O => Eps
  | S n' => Cat a (Rep n' a)
  end.

(** Comparison of a pattern character with a subject character; under
    the [i] flag both are brought to upper case first. *)
Definition chEq (ignoreCase : bool) (c d : ascii) : bool :=
  if ignoreCase then Ascii.eqb (Char.toUpper c) (Char.toUpper d)
  else Ascii.eqb c d.

(** One or more characters of a class, then the continuation. *)
Fixpoint plusLoop (p : ascii -> bool) (k : string -> bool) (s : string)
  : bool :=
  match s with
  | "" => false
  | String d s' => p d && (k s' || plusLoop p k s')
  end.

Fixpoint run (ic : bool) (r : re) (bos : bool) (s : string)
    (k : bool -> string -> bool) : bool :=
  match r with
  | Eps => k bos s
  | Bos => bos && k bos s
  | Eos => Js.isEmpty s && k bos s
  | Chr c =>
      match s with
      | "" => false
      | String d s' => chEq ic c d && k false s'
      end
  | Cls p =>
      match s with
      | "" => false
      | String d s' => p d && k false s'
      end
  | Alt a b => run ic a bos s k || run ic b bos s k
  | Cat a b => run ic a bos s (fun bos' s' => run ic b bos' s' k)
  | Plus p => plusLoop p (k false) s
  end.

Definition accept (_ : bool) (_ : string) : bool := true.

(** A match that starts at the current index or at a later one. *)
Fixpoint search (ic : bool) (r : re) (bos : bool) (s : string) : bool :=
  run ic r bos s accept
  || match s with
     | "" => false
     | String _ s' => search ic r false s'
     end.

(** [re.test(text)], with [ic] the [i] flag. *)
Definition test (ic : bool) (r : re) (text : string) : bool :=
  search ic r true text.

End Regex.

(** ** MatchEngine ([matchesKeyword], script.js 386-402) *)

Module MatchEngine.

Import Regex.

(** The class [[^A-Za-z0-9&._]]. *)
Definition delim (c : ascii) : bool :=
  negb (Char.isUpper c || Char.isLower c || Char.isDigit c
        || Char.isCode 38 c || Char.isCode 46 c || Char.isCode 95 c).

(** [(?:^|delim)] and [(?:delim|$)] *)
Definition before : re := Alt Bos (Cls delim).
Definition after : re := Alt (Cls delim) Eos.

(** [tok.replace(/[.*+?^${}()|[\]\\]/g, '\\$&')] makes every character of
    the token stand for itself in the pattern: the pattern of the escaped
    token is [Lit tok]. *)
Definition safe (tok : string) : re := Lit tok.

(** [(?:^|delim)tok(?:delim|$)] *)
Definition tokenRe (tok : string) : re :=
  Cat before (Cat (safe tok) after).

(** [(?:^|delim)t0(?:delim)+t1(?:delim)+t2(?:delim|$)] *)
Definition tripleRe (t0 t1 t2 : string) : re :=
  Cat before
    (Cat (safe t0)
       (Cat (Plus delim)
          (Cat (safe t1)
             (Cat (Plus delim)
                (Cat (safe t2) after))))).

(** [String(keywordLower).toLowerCase().split(/\s+/).filter(Boolean)] *)
Definition tokensOf (keyword : string) : list string :=
  List.filter Js.truthy (Js.splitRuns Char.isWhite (Js.toLowerCase keyword)).

Definition matchesKeyword (descLower keywordLower : string) : bool :=
  if negb (Js.truthy keywordLower) then false
  else
    let text := Js.toLowerCase descLower in
    let tokens := tokensOf keywordLower in
    match tokens with
    | [] => false
    | [t0; t1; t2] => test true (tripleRe t0 t1 t2) text
    | _ => forallb (fun tok => test true (tokenRe tok) text) tokens
    end.

End MatchEngine.

(** ** Categorizer ([categorise], script.js 409-420) *)

Module Categorizer.

Import RuleStore.

(** A transaction object as [categorise] reads and writes it: a field
    that is absent is [None]. *)
Record Txn : Set := mkTxn {
  date : string;
  desc : option string;
  description : option string;
  amount : option float;
  debit : option float;
  category : option string
}.

(** [a || b] on a text field and on a number field. *)
Definition orText (a : option string) (b : string) : string :=
  match a with
  | Some s => if Js.truthy s then s else b
  | None => b
  end.

Definition orNumber (a : option float) (b : float) : float :=
  match a with
  | Some x => if Num.truthy x then x else b
  | None => b
  end.

(** [String(t.desc || t.description || "").toLowerCase()] *)
Definition descLowerOf (t : Txn) : string :=
  Js.toLowerCase (orText (desc t) (orText (description t) "")).

(** [Math.abs(Number(t.amount || t.debit || 0))] *)
Definition amountOf (t : Txn) : float :=
  abs (orNumber (amount t) (orNumber (debit t) zero)).

(** One turn of the inner loop over the rules. *)
Definition scanStep (descLower : string) (matched : option string) (r : Rule)
  : option string :=
  if MatchEngine.matchesKeyword descLower (RuleStore.keyword r)
  then Some (RuleStore.category r) else matched.

(** The value of [matched] when the loop over the rules ends. *)
Definition scanRules (descLower : string) (rules : list Rule) : option string :=
  fold_left (scanStep descLower) rules None.

(** [matched && String(matched).toUpperCase() === "PETROL" && amount <= 2] *)
Definition smallPetrol (matched : option string) (amount : float) : bool :=
  match matched with
  | Some m =>
      Js.truthy m && String.eqb (Js.toUpperCase m) "PETROL" && leb amount 2
  | None => false
  end.

Definition postFilter (matched : option string) (amount : float)
  : option string :=
  if smallPetrol matched amount then Some "COFFEE" else matched.

(** [matched || "UNCATEGORISED"] *)
Definition orUncategorised (matched : option string) : string :=
  orText matched "UNCATEGORISED".

(** The category written to one transaction. *)
Definition categoryFor (t : Txn) (rules : list Rule) : string :=
  orUncategorised (postFilter (scanRules (descLowerOf t) rules) (amountOf t)).

Definition setCategory (t : Txn) (c : string) : Txn :=
  mkTxn (date t) (desc t) (description t) (amount t) (debit t) (Some c).

(** [categorise] updates every transaction of the list in place. *)
Definition categorise (txns : list Txn) (rules : list Rule) : list Txn :=
  List.map (fun t => setCategory t (categoryFor t rules)) txns.

End Categorizer.

(** ** DocumentTextIngestor ([normalisePdfDate] and
    [parseWestpacPdfText], script.js 1089-1153) *)

Module PdfImport.

Import Regex.

Record Txn : Set := mkTxn {
  date : string;
  description : string;
  amount : float
}.

(** The table [months] of [normalisePdfDate]; a key that is absent gives
    [undefined]. *)
Definition months (mon : string) : option string :=
  if String.eqb mon "Jan" then Some "01"
  else if String.eqb mon "Feb" then Some "02"
  else if String.eqb mon "Mar" then Some "03"
  else if String.eqb mon "Apr" then Some "04"
  else if String.eqb mon "May" then Some "05"
  else if String.eqb mon "Jun" then Some "06"
  else if String.eqb mon "Jul" then Some "07"
  else if String.eqb mon "Aug" then Some "08"
  else if String.eqb mon "Sep" then Some "09"
  else if String.eqb mon "Oct" then Some "10"
  else if String.eqb mon "Nov" then Some "11"
  else if String.eqb mon "Dec" then Some "12"
  else None.

(** How a template literal prints a value that may be [undefined]. *)
Definition show (v : option string) : string :=
  match v with
  | Some s => s
  | None => "undefined"
  end.

(** [const [day, mon, year] = d.split(' ')]: [day] always exists, [mon]
    and [year] are [undefined] when the split is too short. *)
Definition normalisePdfDate (d : string) : string :=
  let parts := Js.splitSpace d in
  let day := nth 0 parts "" in
  let mon := nth_error parts 1 in
  let year := nth_error parts 2 in
  let month := match mon with Some m => months m | None => None end in
  show year ++ "-" ++ show month ++ "-" ++ Js.padStart0 2 day.

(** [/^(\d{1,2}\s+[A-Za-z]{3}\s+\d{4})$/] *)
Definition dateRe : re :=
  Cat Bos
    (Cat (Cls Char.isDigit)
       (Cat (Opt (Cls Char.isDigit))
          (Cat (Plus Char.isWhite)
             (Cat (Rep 3 (Cls Char.isLetter))
                (Cat (Plus Char.isWhite)
                   (Cat (Rep 4 (Cls Char.isDigit)) Eos)))))).

(** [/^-?\$?\d+\.\d{2}$/] *)
Definition amountRe : re :=
  Cat Bos
    (Cat (Opt (Chr "-"))
       (Cat (Opt (Chr "$"))
          (Cat (Plus Char.isDigit)
             (Cat (Chr ".")
                (Cat (Rep 2 (Cls Char.isDigit)) Eos))))).

(** [/^PAYMENT[- ]BPAY/i] *)
Definition paymentRe : re :=
  Cat Bos
    (Cat (Lit "PAYMENT")
       (Cat (Cls (fun c => Char.isCode 45 c || Char.isCode 32 c))
          (Lit "BPAY"))).

(** [/^(withdrawal|deposit|date|description)$/i] *)
Definition headerRe : re :=
  Cat Bos
    (Cat (Alt (Lit "withdrawal")
            (Alt (Lit "deposit") (Alt (Lit "date") (Lit "description"))))
       Eos).

Definition isDateLine (line : string) : bool := test false dateRe line.
Definition isAmountLine (line : string) : bool := test false amountRe line.

(** The variables of the scan: [txns], [curDate], [curDesc]. *)
Record State : Set := mkState {
  txns : list Txn;
  curDate : option string;
  curDesc : list string
}.

(** The value of [curDate] when it is truthy. *)
Definition pending (st : State) : option string :=
  match curDate st with
  | Some d => if Js.truthy d then Some d else None
  | None => None
  end.

(** One turn of the loop of [parseWestpacPdfText].  The group of the date
    pattern spans the whole line, so [dateMatch[1]] is [line].  When
    [curDate] is falsy neither [if (amtMatch && curDate)] nor
    [if (curDate)] is entered. *)
Definition step (st : State) (line : string) : State :=
  if isDateLine line then
    mkState (txns st) (Some (normalisePdfDate line)) []
  else
    match pending st with
    | Some d =>
        if isAmountLine line then
          let amount := abs (parseAmount (Some line)) in
          let description := Js.trim (Js.join " " (curDesc st)) in
          if test true paymentRe description then mkState (txns st) None []
          else
            mkState (RuleStore.push (txns st) (mkTxn d description amount))
              None []
        else if test true headerRe line then st
        else mkState (txns st) (curDate st) (RuleStore.push (curDesc st) line)
    | None => st
    end.

(** The scan over the lines. *)
Definition ingest (lines : list string) : list Txn :=
  txns (fold_left step lines (mkState [] None [])).

(** [text.split(/\n+/).map(l => l.trim()).filter(Boolean)] *)
Definition linesOf (text : string) : list string :=
  List.filter Js.truthy (List.map Js.trim (Js.splitRuns Char.isLF text)).

Definition parseWestpacPdfText (text : string) : list Txn :=
  ingest (linesOf text).

End PdfImport.

(** ** Vocabulary of the statements *)

Module MatchSpec.

Import MatchEngine.

(** The text before an occurrence is empty or ends with a boundary
    character. *)
Fixpoint boundaryBefore (pre : string) : bool :=
  match pre with
  | "" => true
  | String c r =>
      match r with
      | "" => delim c
      | String _ _ => boundaryBefore r
      end
  end.

(** The text after an occurrence is empty or starts with a boundary
    character. *)
Definition boundaryAfter (post : string) : bool :=
  match post with
  | "" => true
  | String c _ => delim c
  end.

(** One or more boundary characters, and nothing else. *)
Definition gap (d : string) : bool := Js.truthy d && Js.all delim d.

(** [tok] occurs in [text] as a boundary-delimited whole token. *)
Definition occursDelimited (tok text : string) : Prop :=
  exists pre post,
    text = pre ++ tok ++ post
    /\ boundaryBefore pre = true /\ boundaryAfter post = true.

(** The three tokens occur in this order, with only boundary characters
    between neighbours, and boundaries at both ends. *)
Definition occurInOrder (t0 t1 t2 text : string) : Prop :=
  exists pre d1 d2 post,
    text = pre ++ t0 ++ d1 ++ t1 ++ d2 ++ t2 ++ post
    /\ boundaryBefore pre = true
    /\ gap d1 = true /\ gap d2 = true
    /\ boundaryAfter post = true.

(** [x] is [t] up to the comparison of characters of the matcher. *)
Fixpoint litEq (ic : bool) (t x : string) : bool :=
  match t, x with
  | "", "" => true
  | String c t', String d x' => Regex.chEq ic c d && litEq ic t' x'
  | _, _ => false
  end.

(** No character of [A-Z]. *)
Definition lowered (s : string) : bool :=
  Js.all (fun c => negb (Char.isUpper c)) s.

End MatchSpec.

Module PdfSpec.

(** A line [D Xxx YYYY]: one digit, a space, three characters, a space,
    four characters. *)
Definition word3 (a b c : ascii) : string :=
  String a (String b (String c "")).

Definition word4 (y1 y2 y3 y4 : ascii) : string :=
  String y1 (String y2 (String y3 (String y4 ""))).

Definition dateShaped (d : ascii) (mon year : string) : string :=
  String d (" " ++ mon ++ " " ++ year).

End PdfSpec.

Module RuleSpec.

(** A rule whose category is not empty and is in upper case. *)
Definition wellFormed (r : RuleStore.Rule) : Prop :=
  Js.truthy (RuleStore.category r) = true
  /\ Js.toUpperCase (RuleStore.category r) = RuleStore.category r.

End RuleSpec.

(** ** Paging (script.js 573-579 and 606-625, catpicker-modal.js 169-181
    and 206-208)

    Page numbers and array lengths are integers; on them
    [Math.ceil(n / size)] is the integer quotient rounded up. *)

Module Paging.

(** [arr.slice(a, b)]: a negative index counts from the end, and both
    indexes are brought into the array. *)
Definition slice {A : Type} (a b : Z) (arr : list A) : list A :=
  let len := Z.of_nat (List.length arr) in
  let from := if (a <? 0)%Z then Z.max (len + a) 0 else Z.min a len in
  let to := if (b <? 0)%Z then Z.max (len + b) 0 else Z.min b len in
  firstn (Z.to_nat (Z.max (to - from) 0)) (skipn (Z.to_nat from) arr).

(** [Math.max(1, Math.ceil(length / PAGE_SIZE))] *)
Definition totalPagesOf (pageSize : Z) (length : nat) : Z :=
  Z.max 1 ((Z.of_nat length + pageSize - 1) / pageSize).

(** *** The transactions table *)

Definition PAGE_SIZE : Z := 10.

(** The page shown by [renderTransactionsTable]: the new value of
    [CURRENT_PAGE] and [pageItems]. *)
Definition tablePage {A : Type} (CURRENT_PAGE : Z) (filtered : list A)
  : Z * list A :=
  let totalPages := totalPagesOf PAGE_SIZE (List.length filtered) in
  let page := if (CURRENT_PAGE >? totalPages)%Z then totalPages
              else CURRENT_PAGE in
  let page := if (page <? 1)%Z then 1%Z else page in
  let start := ((page - 1) * PAGE_SIZE)%Z in
  (page, slice start (start + PAGE_SIZE) filtered).

(** The numbered buttons of [renderPager]: the first and the last page of
    the window. *)
Definition pagerWindow (totalPages cur : Z) : Z * Z :=
  let pages := if (totalPages =? 0)%Z then 1%Z else totalPages in
  let windowSize := 5%Z in
  let start := Z.max 1 (cur - windowSize / 2) in
  let end_ := Z.min pages (start + windowSize - 1) in
  let start := Z.max 1 (Z.min start (end_ - windowSize + 1)) in
  (start, end_).

(** The pages that the buttons [Prev] and [Next] lead to. *)
Definition prevPage (cur : Z) : Z := Z.max 1 (cur - 1).
Definition nextPage (totalPages cur : Z) : Z :=
  let pages := if (totalPages =? 0)%Z then 1%Z else totalPages in
  Z.min pages (cur + 1).

(** *** The category picker *)

Definition PICKER_PAGE_SIZE : Z := 15.

(** [renderPage]: the value given to [currentPage] and [pageItems]. *)
Definition renderPage {A : Type} (page : Z) (categories : list A)
  : Z * list A :=
  let totalPages := totalPagesOf PICKER_PAGE_SIZE (List.length categories) in
  let page := if (page <? 1)%Z then 1%Z else page in
  let page := if (page >? totalPages)%Z then totalPages else page in
  let start := ((page - 1) * PICKER_PAGE_SIZE)%Z in
  (page, slice start (start + PICKER_PAGE_SIZE) categories).

(** The range [start]-[end] that the picker's pager prints. *)
Definition pickerRange (currentPage : Z) (totalItems : nat) : Z * Z :=
  ((currentPage - 1) * PICKER_PAGE_SIZE + 1,
   Z.min (currentPage * PICKER_PAGE_SIZE) (Z.of_nat totalItems))%Z.

End Paging.

(** ** Text helpers (script.js 103-105, 111-119, 132-139) *)

Module Text.

Import Char.

(** [s.replace(/c/g, by)] for one character [c], given by its code. *)
Fixpoint replaceChar (n : nat) (by_ : string) (s : string) : string :=
  match s with
  | "" => ""
  | String c r =>
      if isCode n c then by_ ++ replaceChar n by_ r
      else String c (replaceChar n by_ r)
  end.

(** [s.replace(/[class]+/g, by)]: every maximal run of the class becomes
    one [by]. *)
Fixpoint replaceRuns (p : ascii -> bool) (by_ : ascii) (s : string) : string :=
  match s with
  | "" => ""
  | String c r =>
      if p c then
        if Js.startsWithChar p r then replaceRuns p by_ r
        else String by_ (replaceRuns p by_ r)
      else String c (replaceRuns p by_ r)
  end.

Definition escapeHtml (s : string) : string :=
  replaceChar 39 "&#039;"
    (replaceChar 34 "&quot;"
       (replaceChar 62 "&gt;"
          (replaceChar 60 "&lt;"
             (replaceChar 38 "&amp;" s)))).

(** What stands for one character in the escaped text. *)
Definition entityOf (c : ascii) : string :=
  if isCode 38 c then "&amp;"
  else if isCode 60 c then "&lt;"
  else if isCode 62 c then "&gt;"
  else if isCode 34 c then "&quot;"
  else if isCode 39 c then "&#039;"
  else String c "".

(** The characters [<], [>], the double quote and the single quote. *)
Definition isMarkup (c : ascii) : bool :=
  isCode 60 c || isCode 62 c || isCode 34 c || isCode 39 c.

(** [String(label).replace(/\s+/g, '_')] *)
Definition forFilename (label : string) : string :=
  replaceRuns isWhite "_" label.

(** [\w] *)
Definition isWord (c : ascii) : bool :=
  isUpper c || isLower c || isDigit c || isCode 95 c.

(** [s.replace(/\b([a-z])/g, (m, p1) => p1.toUpperCase())]: a letter of
    [a-z] is a word character, so the boundary before it is there when
    the character before it, if any, is not one.  [prev] tells whether
    the character before is a word character. *)
Fixpoint capitalise (prev : bool) (s : string) : string :=
  match s with
  | "" => ""
  | String c r =>
      String (if negb prev && isLower c then toUpper c else c)
        (capitalise (isWord c) r)
  end.

(** The class [[_-]]. *)
Definition isJoiner (c : ascii) : bool := isCode 95 c || isCode 45 c.

Definition toTitleCase (str : string) : string :=
  if negb (Js.truthy str) then ""
  else
    capitalise false
      (Js.trim
         (replaceRuns isWhite " "
            (replaceRuns isJoiner " " (Js.toLowerCase str)))).

End Text.

(** ** Category totals and the category filter (script.js 431-440 and
    539-542) *)

Module Totals.

Import Categorizer.

(** [(t.category || 'UNCATEGORISED').toUpperCase()] *)
Definition catOf (t : Txn) : string :=
  Js.toUpperCase (orText (category t) "UNCATEGORISED").

(** [t.amount] as an operand of [+]: a field that is absent gives
    [NaN]. *)
Definition amountNum (t : Txn) : float :=
  match amount t with
  | Some a => a
  | None => nan
  end.

(** A [Map] from texts to numbers, its entries in the order in which the
    keys were first set. *)
Definition NumMap : Set := list (string * float).

Fixpoint mapGet (k : string) (m : NumMap) : option float :=
  match m with
  | [] => None
  | (k', v) :: rest => if String.eqb k' k then Some v else mapGet k rest
  end.

Fixpoint mapSet (k : string) (v : float) (m : NumMap) : NumMap :=
  match m with
  | [] => [(k, v)]
  | (k', v') :: rest =>
      if String.eqb k' k then (k', v) :: rest else (k', v') :: mapSet k v rest
  end.

(** One turn of the loop:
    [byCat.set(cat, (byCat.get(cat) || 0) + t.amount)]. *)
Definition totalsStep (byCat : NumMap) (t : Txn) : NumMap :=
  let cat := catOf t in
  mapSet cat (orNumber (mapGet cat byCat) zero + amountNum t)%float byCat.

Definition byCategory (txns : list Txn) : NumMap :=
  fold_left totalsStep txns [].

(** The comparator [(a, b) => b[1] - a[1]] puts [a] after [b] when its
    result is positive; a stable insertion sort stands for
    [Array.prototype.sort]. *)
Definition after (a b : string * float) : bool :=
  ltb zero (snd b - snd a)%float.

Fixpoint insertRow (x : string * float) (l : NumMap) : NumMap :=
  match l with
  | [] => [x]
  | y :: t => if after x y then y :: insertRow x t else x :: l
  end.

Fixpoint sortRows (l : NumMap) : NumMap :=
  match l with
  | [] => []
  | x :: t => insertRow x (sortRows t)
  end.

(** [{ rows, grand }] *)
Definition computeCategoryTotals (txns : list Txn) : NumMap * float :=
  let rows := sortRows (byCategory txns) in
  let grand := fold_left (fun acc row => (acc + snd row)%float) rows zero in
  (rows, grand).

(** [getFilteredTxns], with the value of [CURRENT_FILTER]. *)
Definition getFilteredTxns (CURRENT_FILTER : option string) (txns : list Txn)
  : list Txn :=
  match CURRENT_FILTER with
  | None => txns
  | Some f =>
      if negb (Js.truthy f) then txns
      else List.filter (fun t => String.eqb (catOf t) f) txns
  end.

End Totals.

(** ** Keyword suggestion ([deriveKeywordFromTxn], script.js 732-747) *)

Module Suggest.

Import Categorizer.

(** The class [[A-Za-z0-9&._]]. *)
Definition tokChar (c : ascii) : bool :=
  Char.isUpper c || Char.isLower c || Char.isDigit c
  || Char.isCode 38 c || Char.isCode 46 c || Char.isCode 95 c.

(** [s.match(/[class]+/g) || []]: the maximal runs of the class, from left
    to right. *)
Fixpoint matchRuns (p : ascii -> bool) (s : string) : list string :=
  match s with
  | "" => []
  | String c r =>
      if p c then
        if Js.startsWithChar p r then Js.consHead c (matchRuns p r)
        else String c "" :: matchRuns p r
      else matchRuns p r
  end.

(** [arr.indexOf(x)]: the first index of [x], or [-1]. *)
Fixpoint indexOf (x : string) (arr : list string) : Z :=
  match arr with
  | [] => (-1)%Z
  | y :: rest =>
      if String.eqb y x then 0%Z
      else
        let i := indexOf x rest in
        if (i =? -1)%Z then (-1)%Z else (i + 1)%Z
  end.

(** [/\bVISA-/.test(up)]: the text [VISA-] at an index that is 0 or
    follows a character that is not of [\w] ([V] itself is of [\w]).
    [prev] tells whether the character before is of [\w]. *)
Fixpoint atWordStart (w : string) (prev : bool) (s : string) : bool :=
  (negb prev && String.prefix w s)
  || match s with
     | "" => false
     | String c r => atWordStart w (Text.isWord c) r
     end.

(** [tokens.slice(k, k + 3).filter(Boolean).map(s => s.toUpperCase())
    .join(' ')] *)
Definition join3 (tokens : list string) (k : Z) : string :=
  Js.join " "
    (List.map Js.toUpperCase
       (List.filter Js.truthy (Paging.slice k (k + 3) tokens))).

Definition deriveKeywordFromTxn (txn : option Txn) : string :=
  match txn with
  | None => ""
  | Some t =>
      let desc := Js.trim (orText (description t) (orText (desc t) "")) in
      if negb (Js.truthy desc) then ""
      else
        let tokens := List.map Js.toLowerCase (matchRuns tokChar desc) in
        if negb (RuleStore.nonEmpty tokens) then ""
        else
          let up := Js.toUpperCase desc in
          let paypalIdx := indexOf "paypal" tokens in
          if negb (paypalIdx =? -1)%Z then join3 tokens paypalIdx
          else if atWordStart "VISA-" false up then
            let visaTokIdx := indexOf "visa" tokens in
            if negb (visaTokIdx =? -1)%Z then
              join3 tokens
                (Z.min (visaTokIdx + 1)
                   (Z.max 0 (Z.of_nat (List.length tokens) - 1)))
            else join3 tokens 0
          else join3 tokens 0
  end.

End Suggest.

(** A text cut into its tokens: boundary characters, then a token that is
    followed by a boundary character or by nothing, and so on. *)
Inductive Tokens : string -> list string -> Prop :=
| Tokens_nil (d : string) :
    Js.all MatchEngine.delim d = true -> Tokens d []
| Tokens_cons (d t rest : string) (ts : list string) :
    Js.all MatchEngine.delim d = true ->
    Js.truthy t = true ->
    Js.all Suggest.tokChar t = true ->
    MatchSpec.boundaryAfter rest = true ->
    Tokens rest ts ->
    Tokens (d ++ t ++ rest) (t :: ts).

(** The text that [deriveKeywordFromTxn] reads:
    [txn.description || txn.desc || ""]. *)
Definition describedBy (t : Categorizer.Txn) : string :=
  Categorizer.orText (Categorizer.description t)
    (Categorizer.orText (Categorizer.desc t) "").

(** ** TabularIngestor ([loadCsvText], script.js 271-304)

    The table comes from the CSV parser as [parsed.data], the rows, each
    an object from header names to cells, and [parsed.meta.fields], the
    header names. *)

Module Csv.

Definition Row : Set := list (string * string).

(** [r[key]] *)
Fixpoint lookup (key : string) (r : Row) : option string :=
  match r with
  | [] => None
  | (k, v) :: rest => if String.eqb k key then Some v else lookup key rest
  end.

(** [a || b] where [a] and [b] may be [undefined]. *)
Definition orField (a b : option string) : option string :=
  match a with
  | Some s => if Js.truthy s then a else b
  | None => b
  end.

(** [headers.find(h => re.test(h))], the pattern with the [i] flag. *)
Definition findHeader (re : Regex.re) (headers : list string) : option string :=
  List.find (fun h => Regex.test true re h) headers.

(** [/effective date/i], [/debit amount/i], [/long description/i] and
    [/^description$/i] *)
Definition effectiveDateRe : Regex.re := Regex.Lit "effective date".
Definition debitAmountRe : Regex.re := Regex.Lit "debit amount".
Definition longDescriptionRe : Regex.re := Regex.Lit "long description".
Definition descriptionRe : Regex.re :=
  Regex.Cat Regex.Bos (Regex.Cat (Regex.Lit "description") Regex.Eos).

Definition dateField (headers : list string) : option string :=
  orField (findHeader effectiveDateRe headers) (nth_error headers 2).

Definition debitField (headers : list string) : option string :=
  orField (findHeader debitAmountRe headers) (nth_error headers 5).

Definition descField (headers : list string) : option string :=
  orField (findHeader longDescriptionRe headers)
    (orField (findHeader descriptionRe headers) (nth_error headers 9)).

(** [r[field]]: a field that is [undefined] reads the key
    ["undefined"]. *)
Definition cell (field : option string) (r : Row) : option string :=
  lookup (match field with Some h => h | None => "undefined" end) r.

(** [Number.isFinite(debit) && debit !== 0] *)
Definition usable (debit : float) : bool :=
  is_finite debit && negb (eqb debit zero).

(** One turn of the loop over the rows. *)
Definition rowStep (headers : list string) (txns : list Categorizer.Txn)
    (r : Row) : list Categorizer.Txn :=
  let effectiveDate := Categorizer.orText (cell (dateField headers) r) "" in
  let debit := parseAmount (cell (debitField headers) r) in
  let longDesc :=
    Js.trim (Categorizer.orText (cell (descField headers) r) "") in
  if (Js.truthy effectiveDate || Js.truthy longDesc) && usable debit
  then
    RuleStore.push txns
      (Categorizer.mkTxn effectiveDate None (Some longDesc) (Some debit)
         None None)
  else txns.

(** The transactions that [loadCsvText] makes from the table. *)
Definition loadRows (headers : list string) (rows : list Row)
  : list Categorizer.Txn :=
  fold_left (rowStep headers) rows [].

End Csv.

(** ** Vocabulary for the rule lines *)

Module RuleLines.

Import Char.

(** The text before the first [=>] and the text after it, when there is
    one. *)
Fixpoint cutArrow (s : string) : option (string * string) :=
  match s with
  | "" => None
  | String c r =>
      match r with
      | "" => None
      | String d r' =>
          if isCode 61 c && isCode 62 d then Some ("", r')
          else
            match cutArrow r with
            | Some (a, b) => Some (String c a, b)
            | None => None
            end
      end
  end.

(** The text up to the first [=>], or the whole text. *)
Definition firstSeg (s : string) : string :=
  match cutArrow s with
  | Some (a, _) => a
  | None => s
  end.

(** The rules that [parseRules] reads from one line. *)
Definition ruleOfLine (line : string) : list RuleStore.Rule :=
  RuleStore.parseRulesStep [] line.

(** What [sortRulesBox] keeps of one line as a comment, and as a rule
    line. *)
Definition commentOfLine (line : string) : list string :=
  RuleStore.comments (RuleStore.bucketStep (RuleStore.mkBuckets [] []) line).

Definition normOfLine (line : string) : list string :=
  RuleStore.ruleLines (RuleStore.bucketStep (RuleStore.mkBuckets [] []) line).

(** No line feed. *)
Definition oneLine (s : string) : bool := Js.all (fun c => negb (isLF c)) s.

(** A line that [sortRulesBox] reads as a rule and not as a comment:
    not blank, not starting with [#] once trimmed, and with an arrow. *)
Definition isRuleLine (line : string) : bool :=
  negb (RuleStore.blankOrComment (Js.trim line))
  && (2 <=? List.length (Js.splitArrow line))%nat.

(** A line as [sortRulesBox] writes it: it is read back as it is, and
    written again as it is. *)
Definition written (n : string) : Prop :=
  oneLine n = true /\ Js.trimEnd n = n
  /\ commentOfLine n = [] /\ normOfLine n = [n].

Section Order.

Variable localeCompare : string -> string -> Z.

(** Each line comes before the next one for the comparison of the sort. *)
Fixpoint inOrder (l : list string) : Prop :=
  match l with
  | [] => True
  | x :: t =>
      match t with
      | [] => True
      | y :: _ => (RuleStore.compareLines localeCompare x y <= 0)%Z
      end /\ inOrder t
  end.

End Order.

End RuleLines.

(** ** Adding a rule to the box ([addOrUpdateRuleLine], script.js 754-782) *)

Module RuleBox.

Import Js RuleStore.

(** The test of the loop on one line of the box: a rule line whose keyword
    is [kwLower]. *)
Definition sameKeyword (kwLower : string) (lines_i : string) : bool :=
  let line := trim lines_i in
  if blankOrComment line then false
  else
    let parts := splitArrow line in
    if (2 <=? List.length parts)%nat then
      let existingKw := toLowerCase (trim (nth 0 parts "")) in
      String.eqb existingKw kwLower
    else false.

(** The loop: the first line with the keyword is replaced, and the loop
    stops there. The flag is [updated]. *)
Fixpoint updateFirst (kwLower newLine : string) (lines : list string)
  : list string * bool :=
  match lines with
  | [] => ([], false)
  | l :: rest =>
      if sameKeyword kwLower l then (newLine :: rest, true)
      else
        let (rest', updated) := updateFirst kwLower newLine rest in
        (l :: rest', updated)
  end.

(** The template [`${keywordUpper} => ${categoryUpper}`] *)
Definition ruleLine (keywordUpper categoryUpper : string) : string :=
  keywordUpper ++ " => " ++ categoryUpper.

Section Box.

Variable localeCompare : string -> string -> Z.

(** [addOrUpdateRuleLine] on the value of the box: the new value and the
    returned flag. *)
Definition addOrUpdateRuleLine (value keywordUpper categoryUpper : string)
  : string * bool :=
  if negb (truthy keywordUpper) || negb (truthy categoryUpper)
  then (value, false)
  else
    let lines := splitLines value in
    let kwLower := toLowerCase keywordUpper in
    let (lines', updated) :=
      updateFirst kwLower (ruleLine keywordUpper categoryUpper) lines in
    let lines'' :=
      if negb updated then push lines' (ruleLine keywordUpper categoryUpper)
      else lines' in
    (fst (sortRulesBox localeCompare (join nl lines'')), true).

End Box.

(** A text that is not empty, has no white space at its ends, no arrow and
    no line feed. *)
Definition plain (s : string) : bool :=
  truthy s && String.eqb (trim s) s
  && match RuleLines.cutArrow s with Some _ => false | None => true end
  && RuleLines.oneLine s.

(** A token character or a space. *)
Definition keyChar (c : ascii) : bool :=
  Suggest.tokChar c || Char.isCode 32 c.

End RuleBox.

(** ** The list of the category picker ([assignCategory], script.js 789-800) *)

Module CategoryList.

Import Js.

(** [new Set(arr)] read back with [Array.from]: the distinct values, each
    at its first place. *)
Definition setAdd (s : list string) (x : string) : list string :=
  if existsb (String.eqb x) s then s else (s ++ [x])%list.

Definition newSet (arr : list string) : list string := fold_left setAdd arr [].

Definition ADD_NEW : string := "+ Add new category...".
Definition UNCATEGORISED : string := "Uncategorised".

(** [specials.has(c)] *)
Definition isSpecial (c : string) : bool :=
  String.eqb c ADD_NEW || String.eqb c UNCATEGORISED.

(** [c.toUpperCase() === 'UNCATEGORISED' ? 'Uncategorised' : c] *)
Definition display (c : string) : string :=
  if String.eqb (toUpperCase c) "UNCATEGORISED" then UNCATEGORISED else c.

Section List.

(** [a.localeCompare(b, undefined, { sensitivity: 'base' })] *)
Variable localeCompare : string -> string -> Z.

Fixpoint insertName (x : string) (l : list string) : list string :=
  match l with
  | [] => [x]
  | y :: t => if (localeCompare x y <=? 0)%Z then x :: l else y :: insertName x t
  end.

Fixpoint sortNames (l : list string) : list string :=
  match l with
  | [] => []
  | x :: t => insertName x (sortNames t)
  end.

(** The array [categories] given to the picker. *)
Definition categoriesOf (CURRENT_TXNS : list Categorizer.Txn)
    (CURRENT_RULES : list RuleStore.Rule) : list string :=
  let fromTxns :=
    List.map (fun x => trim (Categorizer.orText (Categorizer.category x) ""))
      CURRENT_TXNS in
  let fromRules := List.map RuleStore.category CURRENT_RULES in
  let merged :=
    newSet (List.filter truthy (List.map trim (fromTxns ++ fromRules))) in
  let base := newSet merged in
  let base := List.map display base in
  let base :=
    if existsb (String.eqb UNCATEGORISED) base then base
    else UNCATEGORISED :: base in
  let base := ADD_NEW :: base in
  let rest := sortNames (List.filter (fun c => negb (isSpecial c)) base) in
  ADD_NEW :: UNCATEGORISED :: rest.

End List.

(** The categories in use: the trimmed category of a transaction or of a
    rule, when it is not empty. *)
Definition inUse (txns : list Categorizer.Txn) (rules : list RuleStore.Rule)
    (c : string) : Prop :=
  c <> ""
  /\ ((exists t, In t txns
                 /\ trim (Categorizer.orText (Categorizer.category t) "") = c)
      \/ exists r, In r rules /\ trim (RuleStore.category r) = c).

End CategoryList.

(** ** Results on the AmountParser *)

Section AmountParser.

Let noDigit (c : ascii) : bool := negb (Char.isDigit c).

Lemma spanDigits_noDigit (s : string) :
  Js.all noDigit s = true -> Num.spanDigits s = ("", s).
Proof.
  destruct s as [|c r]; simpl; [reflexivity|].
  unfold noDigit at 1. intros H. apply andb_true_iff in H as [H _].
  apply negb_true_iff in H. now rewrite H.
Qed.

Lemma unsignedDecimal_noDigit (neg : bool) (s : string) :
  Js.all noDigit s = true -> Num.unsignedDecimal neg s = nan.
Proof.
  intros H. unfold Num.unsignedDecimal.
  rewrite (spanDigits_noDigit s H).
  destruct s as [|c t]; [reflexivity|].
  destruct (Char.isCode 46 c); [|reflexivity].
  simpl in H. apply andb_true_iff in H as [_ H].
  rewrite (spanDigits_noDigit t H). simpl.
  destruct (Js.isEmpty t); reflexivity.
Qed.

Lemma Number_noDigit (s : string) :
  Js.all noDigit s = true -> Num.truthy (Num.Number s) = false.
Proof.
  intros H. destruct s as [|c r]; [reflexivity|].
  unfold Num.Number. destruct (Char.isCode 45 c).
  - simpl in H. apply andb_true_iff in H as [_ H].
    now rewrite unsignedDecimal_noDigit.
  - now rewrite unsignedDecimal_noDigit.
Qed.

Lemma filter_all (p q : ascii -> bool) (s : string) :
  Js.all p s = true -> Js.all p (Js.filter q s) = true.
Proof.
  induction s as [|c r IH]; simpl; [reflexivity|].
  intros H. apply andb_true_iff in H as [Hc Hr].
  destruct (q c); simpl; [rewrite Hc|]; auto.
Qed.

Lemma parseAmount_not_nan (s : option string) :
  is_nan (parseAmount s) = false.
Proof.
  destruct s as [s|]; [|reflexivity].
  unfold parseAmount.
  destruct (Num.truthy (Num.Number (stripAmount s))) eqn:E; [|reflexivity].
  unfold Num.truthy in E. apply andb_true_iff in E as [E _].
  now apply negb_true_iff in E.
Qed.

Lemma parseAmount_noDigit (s : string) :
  Js.all noDigit s = true -> parseAmount (Some s) = zero.
Proof.
  intros H. unfold parseAmount, stripAmount.
  rewrite Number_noDigit; [reflexivity|].
  now do 2 apply filter_all.
Qed.

(** What is left by the strip: decimal digits, [-] and [.]. *)
Lemma stripAmount_alphabet (s : string) :
  Js.all (fun c => Char.isDigit c || Char.isCode 45 c || Char.isCode 46 c)
    (stripAmount s) = true.
Proof.
  unfold stripAmount.
  induction s as [|c r IH]; simpl; [reflexivity|].
  unfold keptByStrip at 1.
  destruct (Char.isDigit c) eqn:D, (Char.isCode 45 c) eqn:M,
    (Char.isCode 44 c) eqn:K, (Char.isCode 46 c) eqn:P; simpl;
    unfold notComma at 1; rewrite ?K; simpl; rewrite ?D, ?M, ?P; simpl;
    exact IH.
Qed.

End AmountParser.

(** C9. [parseAmount] always returns a number that is not [NaN]; it
    returns [0] for [null], for the empty text, for ["abc"] and for every
    text without a decimal digit; the strip leaves only decimal digits,
    [-] and [.]; and on ["$1,234.56"] it leaves ["1234.56"], whose value
    [1234.56] is returned. *)
Theorem parseAmount_total_never_nan :
  (forall s : option string, is_nan (parseAmount s) = false) /\
  parseAmount None = zero /\
  parseAmount (Some "") = zero /\
  parseAmount (Some "abc") = zero /\
  (forall s : string,
      Js.all (fun c => negb (Char.isDigit c)) s = true ->
      parseAmount (Some s) = zero) /\
  (forall s : string,
      Js.all (fun c => Char.isDigit c || Char.isCode 45 c || Char.isCode 46 c)
        (stripAmount s) = true) /\
  stripAmount "$1,234.56" = "1234.56" /\
  parseAmount (Some "$1,234.56") = 1234.56%float.
Proof.
  split; [exact parseAmount_not_nan|].
  split; [reflexivity|]. split; [reflexivity|]. split; [reflexivity|].
  split; [intros s H; now apply parseAmount_noDigit|].
  split; [exact stripAmount_alphabet|].
  split; vm_compute; reflexivity.
Qed.

(** The hypothesis of C9 at the text ["n/a"]. *)
Lemma parseAmount_total_never_nan_witness :
  Js.all (fun c => negb (Char.isDigit c)) "n/a" = true /\
  parseAmount (Some "n/a") = zero.
Proof.
  split; [reflexivity|].
  apply (proj1 (proj2 (proj2 (proj2 (proj2 parseAmount_total_never_nan))))).
  reflexivity.
Defined.

(** ** Results on the RuleStore *)

Section RuleStoreResults.

Import RuleStore.

Variable localeCompare : string -> string -> Z.

Let commentThenRule : string := "# c" ++ Js.nl ++ "k => v".

(** C1. Canonicalizing the text made of the comment line [# c] and the
    rule line [k => v] gives the comment, one blank line and the rule;
    canonicalizing that result again gives the comment, two blank lines
    and the rule, so the second pass does not return its input. *)
Theorem canonicalize_twice_adds_blank_line :
  canonicalize localeCompare commentThenRule
    = "# c" ++ Js.nl ++ Js.nl ++ "K => V"
  /\ canonicalize localeCompare (canonicalize localeCompare commentThenRule)
    = "# c" ++ Js.nl ++ Js.nl ++ Js.nl ++ "K => V"
  /\ canonicalize localeCompare (canonicalize localeCompare commentThenRule)
    <> canonicalize localeCompare commentThenRule
  /\ sortRulesBox localeCompare (canonicalize localeCompare commentThenRule)
    = ("# c" ++ Js.nl ++ Js.nl ++ Js.nl ++ "K => V", true).
Proof.
  repeat split; try reflexivity.
  intros H. vm_compute in H. discriminate H.
Qed.

(** C2. On the line [K => A => B], [parseRules] keeps only the part
    between the first and the second separator as the category. *)
Theorem parseRules_keeps_second_part_only :
  parseRules "K => A => B" = [mkRule "k" "A"]
  /\ parseRules "K => A => B" <> [mkRule "k" "A => B"].
Proof.
  split; [reflexivity|].
  intros H. vm_compute in H. discriminate H.
Qed.

(** C3. A line with the separator and an empty keyword, or an empty
    category, goes to neither block: the canonical text of [=> FOO] is
    empty, and the line [FOO =>] disappears from between a comment and a
    rule. *)
Theorem canonicalize_drops_half_rules :
  canonicalize localeCompare "=> FOO" = ""
  /\ canonicalize localeCompare
       ("# keep" ++ Js.nl ++ "FOO =>" ++ Js.nl ++ "k => v")
     = "# keep" ++ Js.nl ++ Js.nl ++ "K => V".
Proof.
  split; reflexivity.
Qed.

End RuleStoreResults.

(** ** Texts *)

Section Texts.

Import Js.

Lemma append_nil_r (s : string) : s ++ "" = s.
Proof. induction s as [|c r IH]; simpl; [|rewrite IH]; reflexivity. Qed.

Lemma append_assoc (a b c : string) : (a ++ b) ++ c = a ++ (b ++ c).
Proof. induction a as [|x r IH]; simpl; [|rewrite IH]; reflexivity. Qed.

Lemma all_append (p : ascii -> bool) (a b : string) :
  all p (a ++ b) = all p a && all p b.
Proof.
  induction a as [|x r IH]; simpl; [reflexivity|].
  now rewrite IH, andb_assoc.
Qed.

Lemma isEmpty_true (s : string) : isEmpty s = true -> s = "".
Proof. destruct s; [reflexivity|discriminate]. Qed.

Lemma truthy_true (s : string) : truthy s = true <-> s <> "".
Proof. unfold truthy. destruct s; simpl; split; intros H; easy. Qed.

(** A text that is not empty has a last character. *)
Lemma snoc_cases (s : string) :
  s = "" \/ exists p d, s = p ++ String d "".
Proof.
  induction s as [|c r IH]; [now left|right].
  destruct IH as [->|(p & d & ->)].
  - now exists "", c.
  - now exists (String c p), d.
Qed.

Lemma isEmpty_snoc (p : string) (d : ascii) :
  isEmpty (p ++ String d "") = false.
Proof. destruct p; reflexivity. Qed.

Lemma map_isEmpty (f : ascii -> ascii) (s : string) :
  isEmpty (map f s) = isEmpty s.
Proof. destruct s; reflexivity. Qed.

(** The pieces of a split inherit what holds of every character. *)
Lemma consHead_Forall (P : string -> Prop) (c : ascii) (l : list string) :
  (forall h, P h -> P (String c h)) -> P (String c "") ->
  Forall P l -> Forall P (consHead c l).
Proof.
  intros Hc H0 Hl. destruct Hl as [|h t Hh Ht]; simpl; constructor; auto.
Qed.

Lemma splitRuns_Forall (p q : ascii -> bool) (s : string) :
  all p s = true -> Forall (fun t => all p t = true) (splitRuns q s).
Proof.
  induction s as [|c r IH]; simpl; intros H.
  - repeat constructor.
  - apply andb_true_iff in H as [Hc Hr]. specialize (IH Hr).
    destruct (q c).
    + destruct (startsWithChar q r); [assumption|now constructor].
    + apply consHead_Forall; simpl; try rewrite Hc; auto.
Qed.

End Texts.

(** ** Characters and case *)

Section Case.

Import Char.

Lemma code_lt_256 (c : ascii) : (code c < 256)%nat.
Proof. apply nat_ascii_bounded. Qed.

Lemma code_inj (c d : ascii) : code c = code d -> c = d.
Proof.
  unfold code. intros H.
  rewrite <- (ascii_nat_embedding c), <- (ascii_nat_embedding d).
  now rewrite H.
Qed.

Lemma code_of_nat (n : nat) : (n < 256)%nat -> code (ascii_of_nat n) = n.
Proof. apply nat_ascii_embedding. Qed.

Lemma inRange_spec (lo hi : nat) (c : ascii) :
  inRange lo hi c = true <-> (lo <= code c <= hi)%nat.
Proof.
  unfold inRange. rewrite andb_true_iff, !Nat.leb_le. tauto.
Qed.

Lemma inRange_false (lo hi : nat) (c : ascii) :
  inRange lo hi c = false <-> (code c < lo \/ hi < code c)%nat.
Proof.
  unfold inRange. rewrite andb_false_iff, !Nat.leb_gt. tauto.
Qed.

Lemma toLower_not_upper (c : ascii) : isUpper (toLower c) = false.
Proof.
  unfold toLower. destruct (isUpper c) eqn:E; [|assumption].
  apply inRange_spec in E. apply inRange_false.
  rewrite code_of_nat; lia.
Qed.

(** On characters outside [A-Z] the comparison under the [i] flag is
    equality. *)
Lemma toUpper_inj_lowered (c d : ascii) :
  isUpper c = false -> isUpper d = false ->
  toUpper c = toUpper d -> c = d.
Proof.
  unfold toUpper, isUpper, isLower. intros Hc Hd.
  apply inRange_false in Hc, Hd.
  pose proof (code_lt_256 c). pose proof (code_lt_256 d).
  destruct (inRange 97 122 c) eqn:Lc, (inRange 97 122 d) eqn:Ld;
    rewrite ?inRange_spec, ?inRange_false in *; intros E.
  - apply (f_equal code) in E. rewrite !code_of_nat in E by lia.
    apply code_inj. lia.
  - apply (f_equal code) in E. rewrite code_of_nat in E by lia. lia.
  - apply (f_equal code) in E. rewrite code_of_nat in E by lia. lia.
  - assumption.
Qed.

Lemma toLowerCase_lowered (s : string) :
  MatchSpec.lowered (Js.toLowerCase s) = true.
Proof.
  unfold MatchSpec.lowered, Js.toLowerCase.
  induction s as [|c r IH]; simpl; [reflexivity|].
  now rewrite toLower_not_upper, IH.
Qed.

Lemma litEq_lowered (t x : string) :
  MatchSpec.lowered t = true -> MatchSpec.lowered x = true ->
  MatchSpec.litEq true t x = true -> x = t.
Proof.
  revert x. induction t as [|c t IH]; intros [|d x]; simpl; try discriminate.
  - reflexivity.
  - intros Ht Hx H.
    apply andb_true_iff in Ht as [Hc Ht], Hx as [Hd Hx], H as [H1 H2].
    apply negb_true_iff in Hc, Hd.
    apply Ascii.eqb_eq in H1.
    rewrite (toUpper_inj_lowered c d Hc Hd H1).
    f_equal. now apply IH.
Qed.

Lemma litEq_refl (t : string) : MatchSpec.litEq true t t = true.
Proof.
  induction t as [|c t IH]; simpl; [reflexivity|].
  now rewrite Ascii.eqb_refl, IH.
Qed.

End Case.

(** ** The matcher *)

Section Matcher.

Import Regex MatchEngine MatchSpec.

Variable ic : bool.

(** A literal consumes a text equal to it, character by character. *)
Lemma run_Lit (t : string) (b : bool) (s : string)
    (k : bool -> string -> bool) :
  run ic (Lit t) b s k = true <->
  exists x rest,
    s = x ++ rest /\ litEq ic t x = true /\ k (b && Js.isEmpty t) rest = true.
Proof.
  revert b s. induction t as [|c t IH]; intros b s; simpl.
  - rewrite andb_true_r. split.
    + intros H. now exists "", s.
    + intros (x & rest & -> & Hx & Hk). destruct x; [assumption|discriminate].
  - rewrite andb_false_r. destruct s as [|d s]; simpl.
    + split; [discriminate|].
      intros (x & rest & E & Hx & _). destruct x; discriminate.
    + rewrite andb_true_iff, IH. simpl. split.
      * intros (Hc & x & rest & -> & Hx & Hk).
        exists (String d x), rest. simpl. now rewrite Hc, Hx.
      * intros (x & rest & E & Hx & Hk). destruct x as [|d' x]; [discriminate|].
        simpl in E. injection E as -> ->.
        apply andb_true_iff in Hx as [Hc Hx].
        split; [assumption|]. now exists x, rest.
Qed.

(** [[class]+] consumes a non-empty run of the class. *)
Lemma plusLoop_spec (p : ascii -> bool) (k : string -> bool) (s : string) :
  plusLoop p k s = true <->
  exists d rest,
    s = d ++ rest /\ Js.truthy d = true /\ Js.all p d = true /\ k rest = true.
Proof.
  induction s as [|c s IH]; simpl.
  - split; [discriminate|].
    intros (d & rest & E & Hd & _). destruct d; discriminate.
  - rewrite andb_true_iff, orb_true_iff, IH. split.
    + intros (Hc & [Hk|(d & rest & -> & _ & Hall & Hk)]).
      * exists (String c ""), s. simpl. now rewrite Hc.
      * exists (String c d), rest. simpl. now rewrite Hc, Hall.
    + intros (d & rest & E & Hd & Hall & Hk).
      destruct d as [|c' d]; [discriminate|].
      simpl in E. injection E as -> ->. simpl in Hall.
      apply andb_true_iff in Hall as [Hc Hall]. split; [assumption|].
      destruct d as [|c'' d].
      * now left.
      * right. now exists (String c'' d), rest.
Qed.

(** A search succeeds when the pattern matches at some index. *)
Lemma search_spec (r : re) (b : bool) (s : string) :
  search ic r b s = true <->
  exists pre suf,
    s = pre ++ suf /\ run ic r (b && Js.isEmpty pre) suf accept = true.
Proof.
  revert b. induction s as [|c s IH]; intros b; simpl.
  - rewrite orb_false_r. split.
    + intros H. exists "", "". now rewrite andb_true_r.
    + intros (pre & suf & E & H). destruct pre; [|discriminate].
      simpl in E. subst suf. now rewrite andb_true_r in H.
  - rewrite orb_true_iff, IH. split.
    + intros [H|(pre & suf & -> & H)].
      * exists "", (String c s). now rewrite andb_true_r.
      * exists (String c pre), suf. simpl. now rewrite andb_false_r.
    + intros (pre & suf & E & H). destruct pre as [|c' pre].
      * left. simpl in E. subst suf. now rewrite andb_true_r in H.
      * right. simpl in E. injection E as -> ->.
        exists pre, suf. simpl in H. rewrite andb_false_r in H. now split.
Qed.

Lemma boundaryBefore_snoc (p : string) (d : ascii) :
  boundaryBefore (p ++ String d "") = delim d.
Proof.
  induction p as [|c p IH]; [reflexivity|].
  simpl. destruct (p ++ String d "") eqn:E; [|assumption].
  destruct p; discriminate.
Qed.

Lemma run_after (b : bool) (s : string) :
  run ic after b s accept = boundaryAfter s.
Proof.
  destruct s as [|c s]; simpl; [reflexivity|].
  unfold accept. now rewrite andb_true_r, orb_false_r.
Qed.

(** A pattern anchored by [(?:^|delim)] is found where the text before it
    is empty or ends with a boundary character. *)
Lemma test_before (x : re) (text : string) :
  test ic (Cat before x) text = true <->
  exists pre suf,
    text = pre ++ suf /\ boundaryBefore pre = true
    /\ run ic x (Js.isEmpty pre) suf accept = true.
Proof.
  unfold test. rewrite search_spec. simpl. split.
  - intros (pre & suf & -> & H). apply orb_true_iff in H as [H|H].
    + apply andb_true_iff in H as [He H]. apply isEmpty_true in He. subst pre.
      now exists "", suf.
    + destruct suf as [|d suf]; [discriminate|].
      apply andb_true_iff in H as [Hd H].
      exists (pre ++ String d ""), suf.
      rewrite append_assoc, boundaryBefore_snoc, isEmpty_snoc. now simpl.
  - intros (pre & suf & -> & Hb & H).
    destruct (snoc_cases pre) as [->|(p & d & ->)].
    + exists "", suf. simpl in *. now rewrite H.
    + exists p, (String d suf).
      rewrite append_assoc. split; [reflexivity|].
      rewrite boundaryBefore_snoc in Hb. rewrite isEmpty_snoc in H.
      rewrite Hb, H. simpl. apply orb_true_r.
Qed.

End Matcher.

(** ** Results on the MatchEngine *)

Section MatchEngineResults.

Import Regex MatchEngine MatchSpec.

Lemma run_Cat_Lit (t : string) (r : re) (b : bool) (s : string)
    (k : bool -> string -> bool) :
  run true (Cat (Lit t) r) b s k = true <->
  exists x rest,
    s = x ++ rest /\ litEq true t x = true
    /\ run true r (b && Js.isEmpty t) rest k = true.
Proof. exact (run_Lit true t b s (fun b' s' => run true r b' s' k)). Qed.

Lemma run_Cat_Plus (p : ascii -> bool) (r : re) (b : bool) (s : string)
    (k : bool -> string -> bool) :
  run true (Cat (Plus p) r) b s k = true <->
  exists d rest,
    s = d ++ rest /\ Js.truthy d = true /\ Js.all p d = true
    /\ run true r false rest k = true.
Proof. exact (plusLoop_spec p (fun s' => run true r false s' k) s). Qed.

(** The pattern of one token. *)
Lemma tokenRe_spec (tok text : string) :
  test true (tokenRe tok) text = true <->
  exists pre x post,
    text = pre ++ x ++ post /\ litEq true tok x = true
    /\ boundaryBefore pre = true /\ boundaryAfter post = true.
Proof.
  unfold tokenRe, safe. rewrite test_before. split.
  - intros (pre & suf & -> & Hb & H).
    apply run_Cat_Lit in H as (x & post & -> & Hx & H).
    rewrite run_after in H. now exists pre, x, post.
  - intros (pre & x & post & -> & Hx & Hb & Ha).
    exists pre, (x ++ post). repeat split; [assumption|].
    apply run_Cat_Lit. exists x, post. now rewrite run_after.
Qed.

(** The pattern of a keyword of three tokens. *)
Lemma tripleRe_spec (t0 t1 t2 text : string) :
  test true (tripleRe t0 t1 t2) text = true <->
  exists pre x0 d1 x1 d2 x2 post,
    text = pre ++ x0 ++ d1 ++ x1 ++ d2 ++ x2 ++ post
    /\ litEq true t0 x0 = true /\ litEq true t1 x1 = true
    /\ litEq true t2 x2 = true
    /\ boundaryBefore pre = true /\ gap d1 = true /\ gap d2 = true
    /\ boundaryAfter post = true.
Proof.
  unfold tripleRe, safe, gap. rewrite test_before. split.
  - intros (pre & suf & -> & Hb & H).
    apply run_Cat_Lit in H as (x0 & s1 & -> & H0 & H).
    apply run_Cat_Plus in H as (d1 & s2 & -> & Hd1 & Ha1 & H).
    apply run_Cat_Lit in H as (x1 & s3 & -> & H1 & H).
    apply run_Cat_Plus in H as (d2 & s4 & -> & Hd2 & Ha2 & H).
    apply run_Cat_Lit in H as (x2 & post & -> & H2 & H).
    rewrite run_after in H.
    exists pre, x0, d1, x1, d2, x2, post.
    rewrite Hd1, Ha1, Hd2, Ha2. now repeat split.
  - intros (pre & x0 & d1 & x1 & d2 & x2 & post
            & -> & H0 & H1 & H2 & Hb & Hg1 & Hg2 & Ha).
    apply andb_true_iff in Hg1 as [Hd1 Ha1], Hg2 as [Hd2 Ha2].
    eexists pre, _. repeat split; [assumption|].
    apply run_Cat_Lit. eexists x0, _. repeat split; [assumption|].
    apply run_Cat_Plus. eexists d1, _. repeat split; [assumption..|].
    apply run_Cat_Lit. eexists x1, _. repeat split; [assumption|].
    apply run_Cat_Plus. eexists d2, _. repeat split; [assumption..|].
    apply run_Cat_Lit. eexists x2, _. repeat split; [assumption|].
    now rewrite run_after.
Qed.

(** The tokens of a keyword are non-empty and in lower case. *)
Lemma tokensOf_In (kw t : string) :
  In t (tokensOf kw) -> Js.truthy t = true /\ lowered t = true.
Proof.
  unfold tokensOf. intros H. apply filter_In in H as [H Ht].
  split; [assumption|].
  pose proof (splitRuns_Forall _ Char.isWhite _ (toLowerCase_lowered kw)) as F.
  rewrite Forall_forall in F. now apply F.
Qed.

Lemma tokensOf_empty : tokensOf "" = [].
Proof. reflexivity. Qed.

Lemma lowered_append (a b : string) :
  lowered (a ++ b) = true <-> lowered a = true /\ lowered b = true.
Proof. unfold lowered. now rewrite all_append, andb_true_iff. Qed.

(** One token against a text in lower case. *)
Lemma tokenRe_lowered (tok text : string) :
  lowered tok = true -> lowered text = true ->
  (test true (tokenRe tok) text = true <-> occursDelimited tok text).
Proof.
  intros Ht Hx. rewrite tokenRe_spec. unfold occursDelimited. split.
  - intros (pre & x & post & -> & Hl & Hb & Ha).
    apply lowered_append in Hx as [_ Hx]. apply lowered_append in Hx as [Hx _].
    rewrite (litEq_lowered _ _ Ht Hx Hl). now exists pre, post.
  - intros (pre & post & -> & Hb & Ha).
    exists pre, tok, post. now rewrite litEq_refl.
Qed.

(** Three tokens against a text in lower case. *)
Lemma tripleRe_lowered (t0 t1 t2 text : string) :
  lowered t0 = true -> lowered t1 = true -> lowered t2 = true ->
  lowered text = true ->
  (test true (tripleRe t0 t1 t2) text = true <-> occurInOrder t0 t1 t2 text).
Proof.
  intros L0 L1 L2 Hx. rewrite tripleRe_spec. unfold occurInOrder. split.
  - intros (pre & x0 & d1 & x1 & d2 & x2 & post
            & -> & H0 & H1 & H2 & Hb & Hg1 & Hg2 & Ha).
    apply lowered_append in Hx as [_ Hx].
    apply lowered_append in Hx as [M0 Hx].
    apply lowered_append in Hx as [_ Hx].
    apply lowered_append in Hx as [M1 Hx].
    apply lowered_append in Hx as [_ Hx].
    apply lowered_append in Hx as [M2 _].
    rewrite (litEq_lowered _ _ L0 M0 H0), (litEq_lowered _ _ L1 M1 H1),
      (litEq_lowered _ _ L2 M2 H2).
    now exists pre, d1, d2, post.
  - intros (pre & d1 & d2 & post & -> & Hb & Hg1 & Hg2 & Ha).
    exists pre, t0, d1, t1, d2, t2, post. now rewrite !litEq_refl.
Qed.

Lemma matchesKeyword_three (desc kw t0 t1 t2 : string) :
  tokensOf kw = [t0; t1; t2] ->
  (matchesKeyword desc kw = true
   <-> occurInOrder t0 t1 t2 (Js.toLowerCase desc)).
Proof.
  intros E. unfold matchesKeyword.
  destruct kw as [|c kw]; [discriminate E|].
  cbn [Js.truthy Js.isEmpty negb]. rewrite E.
  assert (forall t, In t [t0; t1; t2] -> lowered t = true) as L.
  { intros t Ht. rewrite <- E in Ht. now apply tokensOf_In in Ht. }
  apply tripleRe_lowered; try (apply L; simpl; tauto).
  apply toLowerCase_lowered.
Qed.

Lemma matchesKeyword_independent (desc kw : string) :
  List.length (tokensOf kw) <> 3%nat ->
  (matchesKeyword desc kw = true
   <-> tokensOf kw <> []
       /\ forall t, In t (tokensOf kw) ->
                    occursDelimited t (Js.toLowerCase desc)).
Proof.
  intros N. unfold matchesKeyword.
  destruct kw as [|c kw].
  { rewrite tokensOf_empty. simpl. split; [discriminate|]. intros [H _]. easy. }
  cbn [Js.truthy Js.isEmpty negb].
  assert (forall t, In t (tokensOf (String c kw)) ->
            (test true (tokenRe t) (Js.toLowerCase desc) = true
             <-> occursDelimited t (Js.toLowerCase desc))) as T.
  { intros t Ht. apply tokensOf_In in Ht as [_ Ht].
    apply tokenRe_lowered; [assumption|apply toLowerCase_lowered]. }
  assert (forallb (fun tok => test true (tokenRe tok) (Js.toLowerCase desc))
            (tokensOf (String c kw)) = true
          <-> forall t, In t (tokensOf (String c kw)) ->
                        occursDelimited t (Js.toLowerCase desc)) as F.
  { rewrite forallb_forall. split; intros H t Ht; apply (T t Ht), H, Ht. }
  destruct (tokensOf (String c kw)) as [|a [|b [|d [|e l]]]].
  - split; [discriminate|]. intros [H _]. easy.
  - rewrite F. split; [intros H; split; [discriminate|exact H]|tauto].
  - rewrite F. split; [intros H; split; [discriminate|exact H]|tauto].
  - now contradiction N.
  - rewrite F. split; [intros H; split; [discriminate|exact H]|tauto].
Qed.

(** Case of the arguments. *)
Lemma toLower_toUpper (c : ascii) :
  Char.toLower (Char.toUpper c) = Char.toLower c.
Proof.
  unfold Char.toUpper.
  destruct (Char.isLower c) eqn:L; [|reflexivity].
  unfold Char.isLower in L. apply inRange_spec in L.
  pose proof (code_lt_256 c) as B.
  unfold Char.toLower at 1 2. unfold Char.isUpper.
  assert (Char.inRange 65 90 (ascii_of_nat (Char.code c - 32)) = true) as ->.
  { apply inRange_spec. rewrite code_of_nat; lia. }
  assert (Char.inRange 65 90 c = false) as ->.
  { apply inRange_false. lia. }
  rewrite code_of_nat by lia.
  replace (Char.code c - 32 + 32)%nat with (Char.code c) by lia.
  apply ascii_nat_embedding.
Qed.

Lemma toLowerCase_toUpperCase (s : string) :
  Js.toLowerCase (Js.toUpperCase s) = Js.toLowerCase s.
Proof.
  unfold Js.toLowerCase, Js.toUpperCase.
  induction s as [|c r IH]; simpl; [reflexivity|].
  now rewrite toLower_toUpper, IH.
Qed.

Lemma matchesKeyword_case (desc kw : string) :
  matchesKeyword (Js.toUpperCase desc) (Js.toUpperCase kw)
  = matchesKeyword desc kw.
Proof.
  unfold matchesKeyword, tokensOf.
  rewrite !toLowerCase_toUpperCase.
  unfold Js.truthy, Js.toUpperCase. now rewrite map_isEmpty.
Qed.

End MatchEngineResults.

(** C6. A keyword of one token matches ["paid at woolworths metro"] when
    the token is [woolworths] and does not match ["woolworthsextra"]; the
    empty keyword matches no description; a keyword whose number of
    tokens is not three matches exactly when it has a token and each of
    its tokens occurs in the lower-cased description between boundaries;
    and the answer does not depend on the case of the description or of
    the keyword. *)
Theorem matches_whole_tokens_ignoring_case :
  MatchEngine.matchesKeyword "paid at woolworths metro" "woolworths" = true
  /\ MatchEngine.matchesKeyword "woolworthsextra" "woolworths" = false
  /\ (forall desc : string, MatchEngine.matchesKeyword desc "" = false)
  /\ (forall desc kw : string,
        List.length (MatchEngine.tokensOf kw) <> 3%nat ->
        (MatchEngine.matchesKeyword desc kw = true
         <-> MatchEngine.tokensOf kw <> []
             /\ forall t, In t (MatchEngine.tokensOf kw) ->
                  MatchSpec.occursDelimited t (Js.toLowerCase desc)))
  /\ (forall desc kw : string,
        MatchEngine.matchesKeyword (Js.toUpperCase desc) (Js.toUpperCase kw)
        = MatchEngine.matchesKeyword desc kw).
Proof.
  split; [reflexivity|]. split; [reflexivity|]. split; [reflexivity|].
  split; [exact matchesKeyword_independent|exact matchesKeyword_case].
Qed.

(** The hypothesis of C6 at the keyword [woolworths]. *)
Lemma matches_whole_tokens_ignoring_case_witness :
  List.length (MatchEngine.tokensOf "woolworths") <> 3%nat
  /\ (MatchEngine.matchesKeyword "woolworthsextra" "woolworths" = true
      <-> MatchEngine.tokensOf "woolworths" <> []
          /\ forall t, In t (MatchEngine.tokensOf "woolworths") ->
               MatchSpec.occursDelimited t (Js.toLowerCase "woolworthsextra")).
Proof.
  assert (List.length (MatchEngine.tokensOf "woolworths") <> 3%nat) as N.
  { vm_compute. lia. }
  split; [exact N|].
  exact (proj1 (proj2 (proj2 (proj2 matches_whole_tokens_ignoring_case)))
           "woolworthsextra" "woolworths" N).
Defined.

(** C7. A keyword of exactly three tokens matches a description exactly
    when the lower-cased description reads: a text that is empty or ends
    with a boundary character, the first token, one or more boundary
    characters, the second token, one or more boundary characters, the
    third token, and a text that is empty or starts with a boundary
    character.  So [coles express fuel] matches
    ["COLES EXPRESS - FUEL PURCHASE"] and not ["fuel coles express"]. *)
Theorem three_token_keyword_in_order :
  (forall desc kw t0 t1 t2 : string,
      MatchEngine.tokensOf kw = [t0; t1; t2] ->
      (MatchEngine.matchesKeyword desc kw = true
       <-> MatchSpec.occurInOrder t0 t1 t2 (Js.toLowerCase desc)))
  /\ MatchEngine.matchesKeyword "COLES EXPRESS - FUEL PURCHASE"
       "coles express fuel" = true
  /\ MatchEngine.matchesKeyword "fuel coles express" "coles express fuel"
     = false.
Proof.
  split; [exact matchesKeyword_three|]. split; reflexivity.
Qed.

(** The hypothesis of C7 at the keyword [coles express fuel]. *)
Lemma three_token_keyword_in_order_witness :
  MatchEngine.tokensOf "coles express fuel" = ["coles"; "express"; "fuel"]
  /\ (MatchEngine.matchesKeyword "fuel coles express" "coles express fuel"
      = true
      <-> MatchSpec.occurInOrder "coles" "express" "fuel"
            (Js.toLowerCase "fuel coles express")).
Proof.
  split; [reflexivity|].
  apply (proj1 three_token_keyword_in_order). reflexivity.
Defined.

(** ** Results on the Categorizer *)

Section CategorizerResults.

Import Categorizer.

Variable d : string.

Let hit (r : RuleStore.Rule) : bool :=
  MatchEngine.matchesKeyword d (RuleStore.keyword r).

(** Rules that do not match leave [matched] as it is. *)
Lemma scan_misses (l : list RuleStore.Rule) (m : option string) :
  (forall r, In r l -> hit r = false) ->
  fold_left (scanStep d) l m = m.
Proof.
  revert m. induction l as [|r l IH]; intros m H; simpl; [reflexivity|].
  unfold scanStep at 2. fold (hit r).
  rewrite (H r (or_introl eq_refl)). apply IH.
  intros r' Hr'. apply H. now right.
Qed.

Lemma scanRules_none (rules : list RuleStore.Rule) :
  (forall r, In r rules -> hit r = false) -> scanRules d rules = None.
Proof. apply scan_misses. Qed.

(** The last rule that matches decides. *)
Lemma scanRules_last (l1 : list RuleStore.Rule) (r : RuleStore.Rule)
    (l2 : list RuleStore.Rule) :
  hit r = true ->
  (forall r', In r' l2 -> hit r' = false) ->
  scanRules d (l1 ++ r :: l2) = Some (RuleStore.category r).
Proof.
  intros Hr H2. unfold scanRules. rewrite fold_left_app. simpl.
  unfold scanStep at 2. fold (hit r). rewrite Hr. now apply scan_misses.
Qed.

(** The scan is a search for a matching rule from the end of the list. *)
Lemma scanRules_find (rules : list RuleStore.Rule) :
  scanRules d rules = option_map RuleStore.category (find hit (rev rules)).
Proof.
  induction rules as [|r l IH] using rev_ind; [reflexivity|].
  unfold scanRules in *. rewrite fold_left_app, rev_app_distr. simpl.
  unfold scanStep at 1. fold (hit r).
  destruct (hit r); [reflexivity|exact IH].
Qed.

End CategorizerResults.

Section CategorizerClaims.

Import Categorizer.

Lemma categoryFor_last (t : Txn) (l1 : list RuleStore.Rule)
    (r : RuleStore.Rule) (l2 : list RuleStore.Rule) :
  MatchEngine.matchesKeyword (descLowerOf t) (RuleStore.keyword r) = true ->
  (forall r', In r' l2 ->
     MatchEngine.matchesKeyword (descLowerOf t) (RuleStore.keyword r') = false) ->
  smallPetrol (Some (RuleStore.category r)) (amountOf t) = false ->
  RuleStore.category r <> "" ->
  categoryFor t (l1 ++ r :: l2) = RuleStore.category r.
Proof.
  intros Hr H2 Hp Hc. unfold categoryFor.
  rewrite (scanRules_last _ l1 r l2 Hr H2).
  unfold postFilter. rewrite Hp. unfold orUncategorised, orText.
  apply truthy_true in Hc. now rewrite Hc.
Qed.

Lemma categoryFor_none (t : Txn) (rules : list RuleStore.Rule) :
  (forall r, In r rules ->
     MatchEngine.matchesKeyword (descLowerOf t) (RuleStore.keyword r) = false) ->
  categoryFor t rules = "UNCATEGORISED".
Proof.
  intros H. unfold categoryFor. now rewrite scanRules_none.
Qed.

Lemma categoryFor_petrol (t : Txn) (rules : list RuleStore.Rule) :
  scanRules (descLowerOf t) rules = Some "PETROL" ->
  categoryFor t rules = if leb (amountOf t) 2 then "COFFEE" else "PETROL".
Proof.
  intros H. unfold categoryFor, postFilter, smallPetrol. rewrite H.
  destruct (leb (amountOf t) 2); reflexivity.
Qed.

Lemma categoryFor_other (t : Txn) (rules : list RuleStore.Rule) (c : string) :
  scanRules (descLowerOf t) rules = Some c ->
  Js.toUpperCase c <> "PETROL" -> c <> "" ->
  categoryFor t rules = c.
Proof.
  intros H Hp Hc. unfold categoryFor. rewrite H. unfold postFilter, smallPetrol.
  apply String.eqb_neq in Hp. rewrite Hp, andb_false_r. simpl.
  unfold orUncategorised, orText. apply truthy_true in Hc. now rewrite Hc.
Qed.

End CategorizerClaims.


(** ** Rules as [parseRules] makes them *)

Section ParsedRules.

Import RuleStore.

Lemma toUpper_idem (c : ascii) : Char.toUpper (Char.toUpper c) = Char.toUpper c.
Proof.
  unfold Char.toUpper.
  destruct (Char.isLower c) eqn:L; [|now rewrite L].
  unfold Char.isLower in *. apply inRange_spec in L.
  pose proof (code_lt_256 c) as B.
  assert (Char.inRange 97 122 (ascii_of_nat (Char.code c - 32)) = false) as ->.
  { apply inRange_false. rewrite code_of_nat; lia. }
  reflexivity.
Qed.

Lemma toUpperCase_idem (s : string) :
  Js.toUpperCase (Js.toUpperCase s) = Js.toUpperCase s.
Proof.
  unfold Js.toUpperCase.
  induction s as [|c r IH]; simpl; [reflexivity|].
  now rewrite toUpper_idem, IH.
Qed.

Lemma parseRulesStep_wellFormed (rules : list Rule) (line : string) :
  Forall RuleSpec.wellFormed rules ->
  Forall RuleSpec.wellFormed (parseRulesStep rules line).
Proof.
  intros H. unfold parseRulesStep.
  destruct (blankOrComment (Js.trim line)); [assumption|].
  destruct (2 <=? List.length (Js.splitArrow (Js.trim line)))%nat; [|assumption].
  destruct (Js.truthy (Js.toLowerCase _) && Js.truthy (Js.toUpperCase _)) eqn:E;
    [|assumption].
  apply andb_true_iff in E as [_ E].
  unfold push. apply Forall_app. split; [assumption|].
  constructor; [|constructor]. split; simpl; [assumption|].
  apply toUpperCase_idem.
Qed.

Lemma fold_parseRulesStep_wellFormed (lines : list string) (rules : list Rule) :
  Forall RuleSpec.wellFormed rules ->
  Forall RuleSpec.wellFormed (fold_left parseRulesStep lines rules).
Proof.
  revert rules. induction lines as [|l lines IH]; intros rules H; simpl.
  - assumption.
  - apply IH. now apply parseRulesStep_wellFormed.
Qed.

Lemma parseRules_wellFormed (text : string) :
  Forall RuleSpec.wellFormed (parseRules text).
Proof. apply fold_parseRulesStep_wellFormed. constructor. Qed.

(** What the scan resolves to is the category of a rule of the list. *)
Lemma scan_In (d : string) (l : list Rule) (m : option string) (c : string) :
  fold_left (Categorizer.scanStep d) l m = Some c ->
  m = Some c \/ exists r, In r l /\ category r = c.
Proof.
  revert m. induction l as [|r l IH]; intros m H; simpl in H.
  - now left.
  - apply IH in H as [H|(r' & Hr' & Hc)].
    + unfold Categorizer.scanStep in H.
      destruct (MatchEngine.matchesKeyword d (keyword r)).
      * right. exists r. injection H as H. split; [now left|assumption].
      * now left.
    + right. exists r'. split; [now right|assumption].
Qed.

Lemma categoryFor_parsed (t : Categorizer.Txn) (text : string) :
  Categorizer.categoryFor t (parseRules text)
  = match Categorizer.scanRules (Categorizer.descLowerOf t) (parseRules text) with
    | None => "UNCATEGORISED"
    | Some c =>
        if String.eqb c "PETROL" && leb (Categorizer.amountOf t) 2
        then "COFFEE" else c
    end.
Proof.
  unfold Categorizer.categoryFor.
  destruct (Categorizer.scanRules _ _) as [c|] eqn:E; [|reflexivity].
  apply scan_In in E as [E|(r & Hr & <-)]; [discriminate E|].
  pose proof (parseRules_wellFormed text) as W.
  rewrite Forall_forall in W. destruct (W r Hr) as [Wt Wu].
  unfold Categorizer.postFilter, Categorizer.smallPetrol.
  rewrite Wt, Wu. simpl.
  destruct (String.eqb (category r) "PETROL" && leb _ 2); [reflexivity|].
  unfold Categorizer.orUncategorised, Categorizer.orText. now rewrite Wt.
Qed.

End ParsedRules.

(** ** The absolute amount *)

Section AbsoluteAmount.

Import Categorizer.

Lemma two_spec : Prim2SF 2 = S754_finite false 4503599627370496 (-51).
Proof. vm_compute; reflexivity. Qed.

Lemma minus_two_spec : Prim2SF (-2) = S754_finite true 4503599627370496 (-51).
Proof. vm_compute; reflexivity. Qed.

(** The absolute value is at most 2 exactly between -2 and 2. *)
Lemma leb_abs_two (x : float) : leb (abs x) 2 = leb (-2) x && leb x 2.
Proof.
  rewrite !FloatAxioms.leb_spec, FloatAxioms.abs_spec, two_spec, minus_two_spec.
  destruct (Prim2SF x) as [s|s| |s m e].
  - destruct s; reflexivity.
  - destruct s; reflexivity.
  - reflexivity.
  - unfold SFleb, SFcompare, SFabs. destruct s.
    + rewrite (Z.compare_antisym e (-51)%Z).
      destruct (e ?= -51)%Z eqn:E; cbn [CompOpp andb]; try reflexivity.
      rewrite (Pos.compare_cont_antisym 4503599627370496 m Eq).
      cbn [CompOpp].
      destruct (Pos.compare_cont Eq m 4503599627370496); reflexivity.
    + reflexivity.
Qed.

Lemma abs_opp (x : float) : abs (- x) = abs x.
Proof.
  apply FloatAxioms.Prim2SF_inj.
  rewrite !FloatAxioms.abs_spec, FloatAxioms.opp_spec.
  destruct (Prim2SF x) as [s|s| |s m e]; reflexivity.
Qed.

Lemma SFeqb_opp (p q : spec_float) : SFeqb (SFopp p) (SFopp q) = SFeqb p q.
Proof.
  unfold SFeqb, SFcompare, SFopp.
  destruct p as [s|s| |s m e], q as [s'|s'| |s' m' e'];
    try reflexivity;
    try (destruct s; reflexivity); try (destruct s'; reflexivity);
    try (destruct s, s'; reflexivity).
  destruct s, s'; cbn [negb]; try reflexivity.
  - destruct (e ?= e')%Z; try reflexivity.
    now destruct (Pos.compare_cont Eq m m').
  - destruct (e ?= e')%Z; try reflexivity.
    now destruct (Pos.compare_cont Eq m m').
Qed.

(** A number and its opposite are truthy together. *)
Lemma truthy_opp (x : float) : Num.truthy (- x) = Num.truthy x.
Proof.
  unfold Num.truthy, is_nan, is_zero.
  rewrite !FloatAxioms.eqb_spec, !FloatAxioms.opp_spec, SFeqb_opp.
  f_equal. f_equal.
  change (Prim2SF zero) with (S754_zero false).
  destruct (Prim2SF x) as [s|s| |s m e]; try reflexivity;
    destruct s; reflexivity.
Qed.

Lemma amountOf_amount (t : Txn) (a : float) :
  amount t = Some a -> Num.truthy a = true -> amountOf t = abs a.
Proof. intros E T. unfold amountOf, orNumber. now rewrite E, T. Qed.

Lemma amountOf_debit (t : Txn) (d : float) :
  (amount t = None \/ exists a, amount t = Some a /\ Num.truthy a = false) ->
  debit t = Some d -> Num.truthy d = true -> amountOf t = abs d.
Proof.
  intros [E|(a & E & F)] D T; unfold amountOf, orNumber; rewrite E, D.
  - now rewrite T.
  - now rewrite F, T.
Qed.

(** The sign of the amount plays no part. *)
Lemma amountOf_opp (t : Txn) (a : float) :
  amount t = Some a ->
  amountOf (mkTxn (date t) (desc t) (description t) (Some (- a)%float)
              (debit t) (category t))
  = amountOf t.
Proof.
  intros E. unfold amountOf, orNumber. cbn [amount debit]. rewrite E.
  rewrite truthy_opp. destruct (Num.truthy a); [apply abs_opp|reflexivity].
Qed.

End AbsoluteAmount.

(** C4. The category resolved by the scan of the rules is that of the
    last rule of the list whose keyword matches the description, that
    is, of the first such rule met from the end of the list; it is
    the category written to the transaction unless the small-fuel case
    applies or that category is empty.  When no rule matches, and so for
    the empty rule list, the transaction gets [UNCATEGORISED].  With the
    rules [coffee shop => CAFE] then [shop => RETAIL], a transaction
    described by [coffee shop] gets [RETAIL]. *)
Theorem last_matching_rule_wins :
  (forall (desc : string) (rules : list RuleStore.Rule),
      Categorizer.scanRules desc rules
      = option_map RuleStore.category
          (find (fun r => MatchEngine.matchesKeyword desc (RuleStore.keyword r))
             (rev rules)))
  /\ (forall (desc : string) (l1 : list RuleStore.Rule) (r : RuleStore.Rule)
          (l2 : list RuleStore.Rule),
      MatchEngine.matchesKeyword desc (RuleStore.keyword r) = true ->
      (forall r', In r' l2 ->
         MatchEngine.matchesKeyword desc (RuleStore.keyword r') = false) ->
      Categorizer.scanRules desc (l1 ++ r :: l2)
      = Some (RuleStore.category r))
  /\ (forall (t : Categorizer.Txn) (l1 : list RuleStore.Rule)
             (r : RuleStore.Rule) (l2 : list RuleStore.Rule),
      MatchEngine.matchesKeyword (Categorizer.descLowerOf t)
        (RuleStore.keyword r) = true ->
      (forall r', In r' l2 ->
         MatchEngine.matchesKeyword (Categorizer.descLowerOf t)
           (RuleStore.keyword r') = false) ->
      Categorizer.smallPetrol (Some (RuleStore.category r))
        (Categorizer.amountOf t) = false ->
      RuleStore.category r <> "" ->
      Categorizer.categoryFor t (l1 ++ r :: l2) = RuleStore.category r)
  /\ (forall (t : Categorizer.Txn) (rules : list RuleStore.Rule),
      (forall r, In r rules ->
         MatchEngine.matchesKeyword (Categorizer.descLowerOf t)
           (RuleStore.keyword r) = false) ->
      Categorizer.categoryFor t rules = "UNCATEGORISED")
  /\ (forall t : Categorizer.Txn,
      Categorizer.categoryFor t [] = "UNCATEGORISED")
  /\ (forall t : Categorizer.Txn,
      Categorizer.descLowerOf t = "coffee shop" ->
      Categorizer.categoryFor t
        [RuleStore.mkRule "coffee shop" "CAFE"; RuleStore.mkRule "shop" "RETAIL"]
      = "RETAIL")
  /\ (forall (txns : list Categorizer.Txn) (rules : list RuleStore.Rule),
      List.map Categorizer.category (Categorizer.categorise txns rules)
      = List.map (fun t => Some (Categorizer.categoryFor t rules)) txns).
Proof.
  split; [exact scanRules_find|].
  split; [exact scanRules_last|].
  split; [exact categoryFor_last|].
  split; [exact categoryFor_none|].
  split; [reflexivity|].
  split.
  - intros t H. unfold Categorizer.categoryFor. rewrite H. reflexivity.
  - intros txns rules. unfold Categorizer.categorise.
    rewrite List.map_map. reflexivity.
Qed.

(** The hypotheses of C4 at a purchase of 5.00 described by
    [Coffee Shop], with the two rules of the example. *)
Lemma last_matching_rule_wins_witness :
  let t := Categorizer.mkTxn "2025-07-01" None (Some "Coffee Shop")
             (Some 5%float) None None in
  let cafe := RuleStore.mkRule "coffee shop" "CAFE" in
  let retail := RuleStore.mkRule "shop" "RETAIL" in
  MatchEngine.matchesKeyword (Categorizer.descLowerOf t)
    (RuleStore.keyword retail) = true
  /\ Categorizer.smallPetrol (Some (RuleStore.category retail))
       (Categorizer.amountOf t) = false
  /\ RuleStore.category retail <> ""
  /\ Categorizer.descLowerOf t = "coffee shop"
  /\ Categorizer.categoryFor t ([cafe] ++ retail :: []) = "RETAIL"
  /\ Categorizer.categoryFor t [cafe; retail] = "RETAIL".
Proof.
  intros t cafe retail.
  assert (MatchEngine.matchesKeyword (Categorizer.descLowerOf t)
            (RuleStore.keyword retail) = true) as H1 by reflexivity.
  assert (Categorizer.smallPetrol (Some (RuleStore.category retail))
            (Categorizer.amountOf t) = false) as H2 by reflexivity.
  assert (RuleStore.category retail <> "") as H3 by (simpl; discriminate).
  assert (Categorizer.descLowerOf t = "coffee shop") as H4 by reflexivity.
  split; [exact H1|]. split; [exact H2|]. split; [exact H3|].
  split; [exact H4|]. split.
  - apply (proj1 (proj2 (proj2 last_matching_rule_wins)) t [cafe] retail []);
      try assumption.
    intros r' [].
  - apply (proj1 (proj2 (proj2 (proj2 (proj2 (proj2 last_matching_rule_wins)))))
             t).
    exact H4.
Defined.

(** C5. When the scan resolves to [PETROL], the transaction gets
    [COFFEE] if the absolute value of its amount is at most 2 and keeps
    [PETROL] otherwise; a resolved category that is not [PETROL] in any
    case of letters, and not empty, is written as it is.  With the rules
    of any rule text this is the only change made to what the scan
    resolved.  A purchase of 1.50 matched to [PETROL] gets [COFFEE]; one
    of 15.00 keeps [PETROL].

    The amount is read without its sign: the absolute value is at most 2
    exactly when the amount lies between -2 and 2, so that a refund of
    -1.50 gets [COFFEE] and one of -15.00 keeps [PETROL], and the
    category of a transaction is that of the transaction with the
    opposite amount.  The amount is the field [amount] when it is
    neither zero nor [NaN], and else the field [debit]. *)
Theorem small_fuel_becomes_incidental :
  (forall (t : Categorizer.Txn) (rules : list RuleStore.Rule),
      Categorizer.scanRules (Categorizer.descLowerOf t) rules = Some "PETROL" ->
      leb (Categorizer.amountOf t) 2 = true ->
      Categorizer.categoryFor t rules = "COFFEE")
  /\ (forall (t : Categorizer.Txn) (rules : list RuleStore.Rule),
      Categorizer.scanRules (Categorizer.descLowerOf t) rules = Some "PETROL" ->
      leb (Categorizer.amountOf t) 2 = false ->
      Categorizer.categoryFor t rules = "PETROL")
  /\ (forall (t : Categorizer.Txn) (rules : list RuleStore.Rule) (c : string),
      Categorizer.scanRules (Categorizer.descLowerOf t) rules = Some c ->
      Js.toUpperCase c <> "PETROL" -> c <> "" ->
      Categorizer.categoryFor t rules = c)
  /\ (forall (t : Categorizer.Txn) (text : string),
      Categorizer.categoryFor t (RuleStore.parseRules text)
      = match Categorizer.scanRules (Categorizer.descLowerOf t)
                (RuleStore.parseRules text) with
        | None => "UNCATEGORISED"
        | Some c =>
            if String.eqb c "PETROL" && leb (Categorizer.amountOf t) 2
            then "COFFEE" else c
        end)
  /\ (forall date : string,
      Categorizer.categorise
        [Categorizer.mkTxn date None (Some "BP SERVO") (Some 1.5%float) None None;
         Categorizer.mkTxn date None (Some "BP SERVO") (Some 15%float) None None]
        [RuleStore.mkRule "bp" "PETROL"]
      = [Categorizer.mkTxn date None (Some "BP SERVO") (Some 1.5%float) None
           (Some "COFFEE");
         Categorizer.mkTxn date None (Some "BP SERVO") (Some 15%float) None
           (Some "PETROL")])
  /\ (forall (t : Categorizer.Txn) (a : float),
      Categorizer.amount t = Some a -> Num.truthy a = true ->
      Categorizer.amountOf t = abs a)
  /\ (forall (t : Categorizer.Txn) (d : float),
      (Categorizer.amount t = None
       \/ exists a, Categorizer.amount t = Some a /\ Num.truthy a = false) ->
      Categorizer.debit t = Some d -> Num.truthy d = true ->
      Categorizer.amountOf t = abs d)
  /\ (forall x : float, leb (abs x) 2 = leb (-2) x && leb x 2)
  /\ (forall (t : Categorizer.Txn) (rules : list RuleStore.Rule) (a : float),
      Categorizer.amount t = Some a -> Num.truthy a = true ->
      Categorizer.scanRules (Categorizer.descLowerOf t) rules = Some "PETROL" ->
      Categorizer.categoryFor t rules
      = if leb (-2) a && leb a 2 then "COFFEE" else "PETROL")
  /\ (forall (t : Categorizer.Txn) (rules : list RuleStore.Rule) (a : float),
      Categorizer.amount t = Some a ->
      Categorizer.categoryFor
        (Categorizer.mkTxn (Categorizer.date t) (Categorizer.desc t)
           (Categorizer.description t) (Some (- a)%float)
           (Categorizer.debit t) (Categorizer.category t)) rules
      = Categorizer.categoryFor t rules)
  /\ (forall date : string,
      Categorizer.categorise
        [Categorizer.mkTxn date None (Some "BP SERVO") (Some (-1.5)%float)
           None None;
         Categorizer.mkTxn date None (Some "BP SERVO") (Some (-15)%float)
           None None;
         Categorizer.mkTxn date None (Some "BP SERVO") None
           (Some (-1.5)%float) None;
         Categorizer.mkTxn date None (Some "BP SERVO") (Some 0%float)
           (Some (-15)%float) None]
        [RuleStore.mkRule "bp" "PETROL"]
      = [Categorizer.mkTxn date None (Some "BP SERVO") (Some (-1.5)%float)
           None (Some "COFFEE");
         Categorizer.mkTxn date None (Some "BP SERVO") (Some (-15)%float)
           None (Some "PETROL");
         Categorizer.mkTxn date None (Some "BP SERVO") None
           (Some (-1.5)%float) (Some "COFFEE");
         Categorizer.mkTxn date None (Some "BP SERVO") (Some 0%float)
           (Some (-15)%float) (Some "PETROL")]).
Proof.
  split.
  { intros t rules H L. now rewrite (categoryFor_petrol t rules H), L. }
  split.
  { intros t rules H L. now rewrite (categoryFor_petrol t rules H), L. }
  split; [exact categoryFor_other|].
  split; [exact categoryFor_parsed|].
  split; [intros date; reflexivity|].
  split; [exact amountOf_amount|].
  split; [exact amountOf_debit|].
  split; [exact leb_abs_two|].
  split.
  { intros t rules a E T H.
    now rewrite (categoryFor_petrol t rules H), (amountOf_amount t a E T),
      leb_abs_two. }
  split.
  { intros t rules a E. unfold Categorizer.categoryFor.
    now rewrite (amountOf_opp t a E). }
  intros date. reflexivity.
Qed.

(** The hypotheses of C5 at purchases of 1.50 and of 15.00 at [BP SERVO],
    at one matched to [GROCERIES], at refunds of -1.50 and of -15.00, and
    at a transaction whose amount is in the field [debit]. *)
Lemma small_fuel_becomes_incidental_witness :
  let small := Categorizer.mkTxn "2025-07-01" None (Some "BP SERVO")
                 (Some 1.5%float) None None in
  let large := Categorizer.mkTxn "2025-07-02" None (Some "BP SERVO")
                 (Some 15%float) None None in
  let rules := [RuleStore.mkRule "bp" "PETROL"; RuleStore.mkRule "coles" "GROCERIES"] in
  let shop := Categorizer.mkTxn "2025-07-03" None (Some "COLES 123")
                (Some 1.5%float) None None in
  let refund := Categorizer.mkTxn "2025-07-04" None (Some "BP SERVO")
                  (Some (-15)%float) None None in
  let owed := Categorizer.mkTxn "2025-07-05" None (Some "BP SERVO")
                (Some 0%float) (Some (-1.5)%float) None in
  Categorizer.scanRules (Categorizer.descLowerOf small) rules = Some "PETROL"
  /\ leb (Categorizer.amountOf small) 2 = true
  /\ Categorizer.categoryFor small rules = "COFFEE"
  /\ Categorizer.scanRules (Categorizer.descLowerOf large) rules = Some "PETROL"
  /\ leb (Categorizer.amountOf large) 2 = false
  /\ Categorizer.categoryFor large rules = "PETROL"
  /\ Categorizer.scanRules (Categorizer.descLowerOf shop) rules
     = Some "GROCERIES"
  /\ Categorizer.categoryFor shop rules = "GROCERIES"
  /\ Categorizer.amount refund = Some (-15)%float
  /\ Num.truthy (-15)%float = true
  /\ Categorizer.amountOf refund = 15%float
  /\ Categorizer.categoryFor refund rules = "PETROL"
  /\ Num.truthy 0%float = false
  /\ Categorizer.debit owed = Some (-1.5)%float
  /\ Categorizer.amountOf owed = 1.5%float
  /\ Categorizer.categoryFor owed rules = "COFFEE".
Proof.
  intros small large rules shop refund owed.
  assert (Categorizer.scanRules (Categorizer.descLowerOf small) rules
          = Some "PETROL") as S1 by reflexivity.
  assert (leb (Categorizer.amountOf small) 2 = true) as S2 by reflexivity.
  assert (Categorizer.scanRules (Categorizer.descLowerOf large) rules
          = Some "PETROL") as L1 by reflexivity.
  assert (leb (Categorizer.amountOf large) 2 = false) as L2 by reflexivity.
  assert (Categorizer.scanRules (Categorizer.descLowerOf shop) rules
          = Some "GROCERIES") as G1 by reflexivity.
  assert (Categorizer.amount refund = Some (-15)%float) as R1 by reflexivity.
  assert (Num.truthy (-15)%float = true) as R2 by reflexivity.
  assert (Categorizer.scanRules (Categorizer.descLowerOf refund) rules
          = Some "PETROL") as R3 by reflexivity.
  assert (Num.truthy 0%float = false) as O1 by reflexivity.
  assert (Categorizer.debit owed = Some (-1.5)%float) as O2 by reflexivity.
  assert (Num.truthy (-1.5)%float = true) as O3 by reflexivity.
  assert (Categorizer.scanRules (Categorizer.descLowerOf owed) rules
          = Some "PETROL") as O4 by reflexivity.
  pose proof small_fuel_becomes_incidental
    as (P1 & P2 & P3 & _ & _ & P6 & P7 & _ & P9 & _ & _).
  assert (Categorizer.amountOf owed = 1.5%float) as O5.
  { rewrite (P7 owed (-1.5)%float
               (or_intror (ex_intro _ 0%float (conj eq_refl O1))) O2 O3).
    reflexivity. }
  split; [exact S1|]. split; [exact S2|]. split.
  { exact (P1 small rules S1 S2). }
  split; [exact L1|]. split; [exact L2|]. split.
  { exact (P2 large rules L1 L2). }
  split; [exact G1|]. split.
  { apply (P3 shop rules "GROCERIES" G1); simpl; discriminate. }
  split; [exact R1|]. split; [exact R2|]. split.
  { rewrite (P6 refund (-15)%float R1 R2). reflexivity. }
  split.
  { rewrite (P9 refund rules (-15)%float R1 R2 R3). reflexivity. }
  split; [exact O1|]. split; [exact O2|]. split; [exact O5|].
  apply (P1 owed rules O4). rewrite O5. reflexivity.
Defined.

(** ** Results on the DocumentTextIngestor *)

Section PdfResults.

Import PdfImport PdfSpec.

Lemma digit_not_space (c : ascii) :
  Char.isDigit c = true -> Char.isCode 32 c = false.
Proof.
  unfold Char.isDigit, Char.isCode. rewrite inRange_spec, Nat.eqb_neq. lia.
Qed.

Lemma letter_not_space (c : ascii) :
  Char.isLetter c = true -> Char.isCode 32 c = false.
Proof.
  unfold Char.isLetter, Char.isUpper, Char.isLower, Char.isCode.
  rewrite orb_true_iff, !inRange_spec, Nat.eqb_neq. lia.
Qed.

Variables d a b c y1 y2 y3 y4 : ascii.
Hypothesis Hd : Char.isDigit d = true.
Hypothesis Ha : Char.isLetter a = true.
Hypothesis Hb : Char.isLetter b = true.
Hypothesis Hc : Char.isLetter c = true.
Hypothesis H1 : Char.isDigit y1 = true.
Hypothesis H2 : Char.isDigit y2 = true.
Hypothesis H3 : Char.isDigit y3 = true.
Hypothesis H4 : Char.isDigit y4 = true.

(** Any three letters pass for a month. *)
Lemma isDateLine_shaped :
  isDateLine (dateShaped d (word3 a b c) (word4 y1 y2 y3 y4)) = true.
Proof.
  unfold isDateLine, Regex.test, dateRe, dateShaped, word3, word4.
  cbn [Regex.search Regex.run Regex.Rep Regex.Opt Regex.plusLoop Js.isEmpty
       Regex.accept andb orb append].
  rewrite Hd, Ha, Hb, Hc, H1, H2, H3, H4. reflexivity.
Qed.

(** The date made from such a line. *)
Lemma normalisePdfDate_shaped :
  normalisePdfDate (dateShaped d (word3 a b c) (word4 y1 y2 y3 y4))
  = word4 y1 y2 y3 y4 ++ "-" ++ show (months (word3 a b c)) ++ "-0"
    ++ String d "".
Proof.
  pose proof (digit_not_space _ Hd) as Sd.
  pose proof (letter_not_space _ Ha) as Sa.
  pose proof (letter_not_space _ Hb) as Sb.
  pose proof (letter_not_space _ Hc) as Sc.
  pose proof (digit_not_space _ H1) as S1.
  pose proof (digit_not_space _ H2) as S2.
  pose proof (digit_not_space _ H3) as S3.
  pose proof (digit_not_space _ H4) as S4.
  unfold normalisePdfDate, dateShaped, word3, word4.
  cbn [Js.splitSpace append].
  rewrite Sd, Sa, Sb, Sc, S1, S2, S3, S4. reflexivity.
Qed.

End PdfResults.

Section PdfStep.

Import PdfImport.

Variables (st : State) (date line : string).
Hypothesis notDate : isDateLine line = false.
Hypothesis isAmount : isAmountLine line = true.
Hypothesis hasDate : pending st = Some date.

Let description : string := Js.trim (Js.join " " (curDesc st)).


End PdfStep.



(** C10. A line made of a digit, a space, any three letters, a space and
    four digits is taken for a date marker; when the three letters are
    not a key of the month table, the date made from it has the text
    [undefined] for its month.  So the lines [1 Foo 2025], [COLES],
    [12.34] give a transaction dated [2025-undefined-01]. *)
Theorem date_marker_accepts_any_three_letters :
  (forall d a b c y1 y2 y3 y4 : ascii,
      Char.isDigit d = true ->
      Char.isLetter a = true -> Char.isLetter b = true ->
      Char.isLetter c = true ->
      Char.isDigit y1 = true -> Char.isDigit y2 = true ->
      Char.isDigit y3 = true -> Char.isDigit y4 = true ->
      let line :=
        PdfSpec.dateShaped d (PdfSpec.word3 a b c) (PdfSpec.word4 y1 y2 y3 y4) in
      PdfImport.isDateLine line = true
      /\ (PdfImport.months (PdfSpec.word3 a b c) = None ->
          PdfImport.normalisePdfDate line
          = PdfSpec.word4 y1 y2 y3 y4 ++ "-undefined-0" ++ String d ""))
  /\ PdfImport.months "Foo" = None
  /\ PdfImport.isDateLine "1 Foo 2025" = true
  /\ PdfImport.ingest ["1 Foo 2025"; "COLES"; "12.34"]
     = [PdfImport.mkTxn "2025-undefined-01" "COLES" 12.34%float]
  /\ PdfImport.parseWestpacPdfText
       ("1 Foo 2025" ++ Js.nl ++ "COLES" ++ Js.nl ++ "12.34")
     = [PdfImport.mkTxn "2025-undefined-01" "COLES" 12.34%float].
Proof.
  split.
  - intros d a b c y1 y2 y3 y4 Hd Ha Hb Hc H1 H2 H3 H4 line. split.
    + now apply isDateLine_shaped.
    + intros M. unfold line.
      rewrite normalisePdfDate_shaped by assumption. now rewrite M.
  - repeat split; reflexivity.
Qed.

(** The hypotheses of C10 at the line [1 Foo 2025]. *)
Lemma date_marker_accepts_any_three_letters_witness :
  Char.isDigit "1" = true
  /\ Char.isLetter "F" = true /\ Char.isLetter "o" = true
  /\ Char.isDigit "2" = true /\ Char.isDigit "0" = true
  /\ Char.isDigit "5" = true
  /\ PdfImport.months (PdfSpec.word3 "F" "o" "o") = None
  /\ PdfImport.isDateLine "1 Foo 2025" = true
  /\ PdfImport.normalisePdfDate "1 Foo 2025" = "2025-undefined-01".
Proof.
  assert (Char.isDigit "1" = true) as D1 by reflexivity.
  assert (Char.isLetter "F" = true) as LF by reflexivity.
  assert (Char.isLetter "o" = true) as Lo by reflexivity.
  assert (Char.isDigit "2" = true) as D2 by reflexivity.
  assert (Char.isDigit "0" = true) as D0 by reflexivity.
  assert (Char.isDigit "5" = true) as D5 by reflexivity.
  assert (PdfImport.months (PdfSpec.word3 "F" "o" "o") = None) as M
    by reflexivity.
  pose proof (proj1 date_marker_accepts_any_three_letters
                "1" "F" "o" "o" "2" "0" "2" "5"
                D1 LF Lo Lo D2 D0 D2 D5)%char as [HL HN].
  split; [exact D1|]. split; [exact LF|]. split; [exact Lo|].
  split; [exact D2|]. split; [exact D0|]. split; [exact D5|].
  split; [exact M|]. split; [exact HL|]. exact (HN M).
Defined.

(** ** More on the DocumentTextIngestor *)

Section PdfScan.

Import PdfImport.

(** The number of records that the scan holds: those emitted, and the
    one that is pending. *)
Let held (st : State) : nat :=
  (List.length (txns st) + match pending st with Some _ => 1 | None => 0 end)%nat.

Lemma push_length {A : Type} (l : list A) (x : A) :
  List.length (RuleStore.push l x) = S (List.length l).
Proof. unfold RuleStore.push. rewrite length_app. simpl. lia. Qed.

Lemma pending_cases (st : State) :
  pending st = None \/ exists d, pending st = Some d.
Proof. destruct (pending st) as [d|]; [right; now exists d|now left]. Qed.

(** A turn on a line that is not a date marker never raises the number
    of records held; a turn on a date marker raises it by one at most. *)
Lemma step_held (st : State) (line : string) :
  (held (step st line)
   <= held st + (if isDateLine line then 1 else 0))%nat.
Proof.
  unfold held, step.
  destruct (isDateLine line).
  - unfold pending at 1. simpl.
    destruct (Js.truthy (normalisePdfDate line));
      destruct (pending st); lia.
  - destruct (pending st) as [d|] eqn:P; [|rewrite P; lia].
    destruct (isAmountLine line).
    + destruct (Regex.test true paymentRe _); unfold pending; simpl;
        rewrite ?push_length; lia.
    + destruct (Regex.test true headerRe line); [rewrite P; lia|].
      unfold pending in *. simpl. destruct (curDate st) as [c|]; [|discriminate].
      destruct (Js.truthy c); [lia|discriminate].
Qed.

Lemma fold_step_held (lines : list string) (st : State) :
  (held (fold_left step lines st)
   <= held st + List.length (List.filter isDateLine lines))%nat.
Proof.
  revert st. induction lines as [|l lines IH]; intros st; simpl; [lia|].
  specialize (IH (step st l)). pose proof (step_held st l) as H.
  destruct (isDateLine l); simpl; lia.
Qed.

(** A turn emits a record only on an amount line. *)
Lemma step_txns_length (st : State) (line : string) :
  (List.length (txns (step st line))
   <= List.length (txns st) + (if isAmountLine line then 1 else 0))%nat.
Proof.
  unfold step.
  destruct (isDateLine line); [simpl; lia|].
  destruct (pending st) as [d|]; [|lia].
  destruct (isAmountLine line).
  - destruct (Regex.test true paymentRe _); simpl; rewrite ?push_length; lia.
  - destruct (Regex.test true headerRe line); simpl; lia.
Qed.

Lemma fold_step_txns_length (lines : list string) (st : State) :
  (List.length (txns (fold_left step lines st))
   <= List.length (txns st) + List.length (List.filter isAmountLine lines))%nat.
Proof.
  revert st. induction lines as [|l lines IH]; intros st; simpl; [lia|].
  specialize (IH (step st l)). pose proof (step_txns_length st l) as H.
  destruct (isAmountLine l); simpl; lia.
Qed.

(** What holds of the records already emitted and is established by each
    emission holds of all the records at the end. *)
Lemma fold_step_Forall (P : Txn -> Prop) (lines : list string) (st : State) :
  (forall d desc amt,
      Regex.test true paymentRe desc = false -> P (mkTxn d desc amt)) ->
  Forall P (txns st) -> Forall P (txns (fold_left step lines st)).
Proof.
  intros HP. revert st. induction lines as [|l lines IH]; intros st H; simpl.
  - assumption.
  - apply IH. unfold step.
    destruct (isDateLine l); [assumption|].
    destruct (pending st) as [d|]; [|assumption].
    destruct (isAmountLine l).
    + destruct (Regex.test true paymentRe _) eqn:E; simpl; [assumption|].
      unfold RuleStore.push. apply Forall_app. split; [assumption|].
      constructor; [|constructor]. now apply HP.
    + destruct (Regex.test true headerRe l); assumption.
Qed.

Lemma filter_none {A : Type} (p : A -> bool) (l : list A) :
  (forall x, In x l -> p x = false) -> List.filter p l = [].
Proof.
  induction l as [|x l IH]; intros H; simpl; [reflexivity|].
  rewrite (H x (or_introl eq_refl)). apply IH.
  intros y Hy. apply H. now right.
Qed.

End PdfScan.

(** Without a date marker nothing is emitted; the transactions are never
    more than the date markers, nor than the amount lines. *)
Theorem ingest_needs_date_and_amount (lines : list string) :
  (List.length (PdfImport.ingest lines)
   <= List.length (List.filter PdfImport.isDateLine lines))%nat
  /\ (List.length (PdfImport.ingest lines)
      <= List.length (List.filter PdfImport.isAmountLine lines))%nat
  /\ ((forall l, In l lines -> PdfImport.isDateLine l = false) ->
      PdfImport.ingest lines = []).
Proof.
  assert (List.length (PdfImport.ingest lines)
          <= List.length (List.filter PdfImport.isDateLine lines))%nat as D.
  { unfold PdfImport.ingest.
    pose proof (fold_step_held lines (PdfImport.mkState [] None [])) as H.
    simpl in H. lia. }
  split; [exact D|]. split.
  - unfold PdfImport.ingest.
    pose proof (fold_step_txns_length lines (PdfImport.mkState [] None [])) as H.
    simpl in H. lia.
  - intros N. rewrite (filter_none _ _ N) in D. simpl in D.
    destruct (PdfImport.ingest lines); [reflexivity|simpl in D; lia].
Qed.

(** The hypothesis at a statement page that shows amounts and no date. *)
Lemma ingest_needs_date_and_amount_witness :
  (forall l, In l ["Opening balance"; "COLES"; "12.34"] ->
             PdfImport.isDateLine l = false)
  /\ PdfImport.ingest ["Opening balance"; "COLES"; "12.34"] = [].
Proof.
  assert (forall l, In l ["Opening balance"; "COLES"; "12.34"] ->
                    PdfImport.isDateLine l = false) as N.
  { intros l [<-|[<-|[<-|[]]]]; reflexivity. }
  split; [exact N|].
  exact (proj2 (proj2 (ingest_needs_date_and_amount _)) N).
Defined.

(** No transaction of the result has a description that matches the
    payment pattern. *)
Theorem ingest_never_emits_payment (lines : list string) :
  Forall (fun t => Regex.test true PdfImport.paymentRe (PdfImport.description t)
                   = false)
    (PdfImport.ingest lines).
Proof.
  unfold PdfImport.ingest. apply fold_step_Forall; [|constructor].
  intros d desc amt H. exact H.
Qed.

Section PdfHeaders.

Import PdfImport Regex.

(** A pattern that starts with [^] matches at index 0 only. *)
Lemma search_anchored (ic : bool) (x : re) (s : string) :
  search ic (Cat Bos x) true s = run ic x true s accept.
Proof.
  assert (forall t, search ic (Cat Bos x) false t = false) as F.
  { induction t as [|c t IH]; simpl; [reflexivity|exact IH]. }
  destruct s as [|c s]; simpl; [apply orb_false_r|].
  now rewrite F, orb_false_r.
Qed.

Lemma toUpper_letter (c : ascii) :
  Char.isUpper (Char.toUpper c) = true -> Char.isLetter c = true.
Proof.
  unfold Char.toUpper, Char.isLetter.
  destruct (Char.isLower c); [intros _; apply orb_true_r|].
  intros ->. reflexivity.
Qed.

(** Under the [i] flag a letter of the pattern is matched by letters
    only. *)
Lemma chEq_letter (x c : ascii) :
  Char.isUpper (Char.toUpper x) = true -> chEq true x c = true ->
  Char.isLetter c = true.
Proof.
  unfold chEq. intros Hx E. apply Ascii.eqb_eq in E.
  apply toUpper_letter. now rewrite <- E.
Qed.

Lemma letter_not_digit (c : ascii) :
  Char.isLetter c = true -> Char.isDigit c = false.
Proof.
  unfold Char.isLetter, Char.isUpper, Char.isLower, Char.isDigit.
  rewrite orb_true_iff, !inRange_spec, inRange_false. lia.
Qed.

Lemma header_starts_with_letter (line : string) :
  test true headerRe line = true ->
  exists c r, line = String c r /\ Char.isLetter c = true.
Proof.
  unfold test, headerRe. rewrite search_anchored.
  destruct line as [|c r]; [intros H; discriminate H|].
  intros H. exists c, r. split; [reflexivity|].
  cbn [run Lit] in H.
  repeat (apply orb_true_iff in H as [H|H]);
    apply andb_true_iff in H as [H _];
    (eapply chEq_letter; [|exact H]); reflexivity.
Qed.

Lemma dateLine_starts_with_digit (c : ascii) (r : string) :
  isDateLine (String c r) = true -> Char.isDigit c = true.
Proof.
  unfold isDateLine, test, dateRe. rewrite search_anchored.
  cbn [run]. intros H. now apply andb_true_iff in H as [H _].
Qed.

Lemma amountLine_starts (c : ascii) (r : string) :
  isAmountLine (String c r) = true ->
  Char.isDigit c = true \/ c = "-"%char \/ c = "$"%char.
Proof.
  unfold isAmountLine, test, amountRe. rewrite search_anchored.
  cbn [run Opt plusLoop]. intros H.
  apply orb_true_iff in H as [H|H].
  - apply andb_true_iff in H as [H _]. apply Ascii.eqb_eq in H. auto.
  - apply orb_true_iff in H as [H|H].
    + apply andb_true_iff in H as [H _]. apply Ascii.eqb_eq in H. auto.
    + apply andb_true_iff in H as [H _]. auto.
Qed.

(** The scan passes over a line of the stoplist. *)
Lemma step_header (st : State) (line : string) :
  test true headerRe line = true -> step st line = st.
Proof.
  intros H. destruct (header_starts_with_letter line H) as (c & r & -> & L).
  unfold step.
  destruct (isDateLine (String c r)) eqn:D.
  { apply dateLine_starts_with_digit in D.
    rewrite (letter_not_digit c L) in D. discriminate D. }
  destruct (pending st) as [d|]; [|reflexivity].
  destruct (isAmountLine (String c r)) eqn:A.
  { apply amountLine_starts in A as [A|[->| ->]].
    - rewrite (letter_not_digit c L) in A. discriminate A.
    - discriminate L.
    - discriminate L. }
  now rewrite H.
Qed.

End PdfHeaders.

(** A line that is one of the words [withdrawal], [deposit], [date] or
    [description], in any case of letters, changes nothing wherever it
    stands among the lines. *)
Theorem ingest_skips_header_lines (l1 : list string) (h : string)
    (l2 : list string) :
  Regex.test true PdfImport.headerRe h = true ->
  PdfImport.ingest (l1 ++ h :: l2) = PdfImport.ingest (l1 ++ l2).
Proof.
  intros H. unfold PdfImport.ingest.
  rewrite !fold_left_app. simpl. now rewrite (step_header _ h H).
Qed.

(** The hypothesis at a column header printed inside a record. *)
Lemma ingest_skips_header_lines_witness :
  Regex.test true PdfImport.headerRe "Description" = true
  /\ PdfImport.ingest (["1 Jan 2025"; "COLES"] ++ "Description" :: ["12.34"])
     = PdfImport.ingest (["1 Jan 2025"; "COLES"] ++ ["12.34"]).
Proof.
  assert (Regex.test true PdfImport.headerRe "Description" = true) as H
    by reflexivity.
  split; [exact H|].
  exact (ingest_skips_header_lines ["1 Jan 2025"; "COLES"] "Description"
           ["12.34"] H).
Defined.

(** ** Paging *)

Section PagingLemmas.

Import Paging.

Context {A : Type}.

Variable size : Z.
Hypothesis size_pos : (0 < size)%Z.

(** The items of page [p], for a page size [size]. *)
Let chunk (p : Z) (l : list A) : list A :=
  firstn (Z.to_nat size) (skipn (Z.to_nat ((p - 1) * size)) l).

Lemma slice_chunk (p : Z) (l : list A) :
  (1 <= p)%Z ->
  slice ((p - 1) * size) ((p - 1) * size + size) l = chunk p l.
Proof.
  intros Hp. unfold slice, chunk.
  set (len := Z.of_nat (List.length l)).
  set (start := ((p - 1) * size)%Z).
  assert (0 <= start)%Z as Hs by (unfold start; nia).
  destruct (start <? 0)%Z eqn:E1; [apply Z.ltb_lt in E1; lia|].
  destruct (start + size <? 0)%Z eqn:E2; [apply Z.ltb_lt in E2; lia|].
  destruct (Z_le_gt_dec len start) as [Hge|Hlt].
  - rewrite Z.min_r by lia.
    rewrite !skipn_all2 by (unfold len in *; lia).
    now rewrite !firstn_nil.
  - rewrite (Z.min_l start len) by lia.
    destruct (Z_le_gt_dec (start + size) len) as [H1|H1].
    + rewrite Z.min_l by lia. f_equal. lia.
    + rewrite Z.min_r by lia.
      rewrite !firstn_all2; [reflexivity| |];
        rewrite length_skipn; unfold len in *; lia.
Qed.

Lemma totalPagesOf_bounds (n : nat) :
  (1 <= totalPagesOf size n)%Z
  /\ (Z.of_nat n <= totalPagesOf size n * size)%Z
  /\ ((0 < n)%nat -> ((totalPagesOf size n - 1) * size < Z.of_nat n)%Z).
Proof.
  unfold totalPagesOf.
  set (q := ((Z.of_nat n + size - 1) / size)%Z).
  assert (size * q <= Z.of_nat n + size - 1 < size * q + size)%Z as Hq.
  { unfold q.
    pose proof (Z.mul_div_le (Z.of_nat n + size - 1) size size_pos).
    pose proof (Z.mul_succ_div_gt (Z.of_nat n + size - 1) size size_pos).
    lia. }
  repeat split; try lia; try nia.
Qed.

Lemma chunk_length (p : Z) (l : list A) :
  (Z.of_nat (List.length (chunk p l)) <= size)%Z.
Proof. unfold chunk. rewrite length_firstn. lia. Qed.

Lemma chunk_nonempty (p : Z) (l : list A) :
  (1 <= p)%Z -> ((p - 1) * size < Z.of_nat (List.length l))%Z ->
  chunk p l <> [].
Proof.
  intros Hp H E. apply (f_equal (@List.length A)) in E.
  unfold chunk in E. rewrite length_firstn, length_skipn in E. simpl in E.
  nia.
Qed.

Lemma chunk_nth (p : Z) (l : list A) (i : nat) :
  (1 <= p)%Z -> (Z.of_nat i < size)%Z ->
  nth_error (chunk p l) i = nth_error l (Z.to_nat ((p - 1) * size) + i).
Proof.
  intros Hp Hi. unfold chunk.
  rewrite nth_error_firstn.
  destruct (Nat.ltb_spec i (Z.to_nat size)); [|lia].
  apply nth_error_skipn.
Qed.

(** The pages, one after the other, are the whole list. *)
Lemma nat_chunks_cover (sz n : nat) (l : list A) :
  (List.length l <= n * sz)%nat ->
  flat_map (fun k => firstn sz (skipn (k * sz) l)) (seq 0 n) = l.
Proof.
  revert l. induction n as [|n IH]; intros l H.
  - destruct l; [reflexivity|simpl in H; lia].
  - cbn [seq flat_map]. rewrite <- seq_shift.
    rewrite flat_map_concat_map, map_map, <- flat_map_concat_map.
    transitivity (firstn sz l ++ skipn sz l)%list; [|apply firstn_skipn].
    f_equal.
    rewrite <- (IH (skipn sz l)) at 1 by (rewrite length_skipn; lia).
    apply flat_map_ext. intros k. rewrite skipn_skipn.
    do 2 f_equal. lia.
Qed.

Lemma chunks_cover (n : nat) (l : list A) :
  (Z.of_nat (List.length l) <= Z.of_nat n * size)%Z ->
  flat_map (fun k => chunk (Z.of_nat k) l) (seq 1 n) = l.
Proof.
  intros H. rewrite <- seq_shift.
  rewrite flat_map_concat_map, map_map, <- flat_map_concat_map.
  transitivity
    (flat_map (fun k => firstn (Z.to_nat size) (skipn (k * Z.to_nat size) l))
       (seq 0 n)); [|apply nat_chunks_cover; nia].
  apply flat_map_ext. intros k. unfold chunk. do 2 f_equal. nia.
Qed.

End PagingLemmas.

Section PagingResults.

Import Paging.

Context {A : Type}.

(** The two orders in which the page number is brought into range give
    the same page. *)
Lemma tablePage_fst (cur : Z) (l : list A) :
  fst (tablePage cur l)
  = Z.max 1 (Z.min cur (totalPagesOf PAGE_SIZE (List.length l))).
Proof.
  unfold tablePage. cbn [fst].
  pose proof (totalPagesOf_bounds PAGE_SIZE eq_refl (List.length l)) as [B _].
  rewrite Z.gtb_ltb.
  destruct (Z.ltb_spec (totalPagesOf PAGE_SIZE (List.length l)) cur);
    match goal with |- context [(?a <? 1)%Z] => destruct (Z.ltb_spec a 1) end;
    lia.
Qed.

Lemma renderPage_fst (page : Z) (l : list A) :
  fst (renderPage page l)
  = Z.max 1 (Z.min page (totalPagesOf PICKER_PAGE_SIZE (List.length l))).
Proof.
  unfold renderPage. cbn [fst].
  pose proof (totalPagesOf_bounds PICKER_PAGE_SIZE eq_refl (List.length l))
    as [B _].
  rewrite Z.gtb_ltb.
  destruct (Z.ltb_spec page 1);
    match goal with |- context [(?a <? ?b)%Z] => destruct (Z.ltb_spec a b) end;
    lia.
Qed.

Lemma tablePage_snd (cur : Z) (l : list A) :
  snd (tablePage cur l)
  = firstn 10 (skipn (Z.to_nat ((fst (tablePage cur l) - 1) * 10)) l).
Proof.
  pose proof (tablePage_fst cur l) as F.
  unfold tablePage in *. cbn [fst snd] in *.
  set (p := if (_ <? 1)%Z then 1%Z else _) in *.
  rewrite (slice_chunk PAGE_SIZE eq_refl p l) by lia. reflexivity.
Qed.

Lemma renderPage_snd (page : Z) (l : list A) :
  snd (renderPage page l)
  = firstn 15 (skipn (Z.to_nat ((fst (renderPage page l) - 1) * 15)) l).
Proof.
  pose proof (renderPage_fst page l) as F.
  unfold renderPage in *. cbn [fst snd] in *.
  set (p := if (_ >? _)%Z then _ else _) in *.
  rewrite (slice_chunk PICKER_PAGE_SIZE eq_refl p l) by lia. reflexivity.
Qed.

End PagingResults.

(** The page shown by the transactions table is a page that exists: it
    is the requested page when that one exists, it holds at most ten
    rows, at least one when there is a transaction, and its rows are the
    ten that start at index [(page - 1) * 10]. *)
Theorem tablePage_valid {A : Type} (cur : Z) (l : list A) :
  let total := Paging.totalPagesOf Paging.PAGE_SIZE (List.length l) in
  let page := fst (Paging.tablePage cur l) in
  let items := snd (Paging.tablePage cur l) in
  (1 <= page <= total)%Z
  /\ ((1 <= cur <= total)%Z -> page = cur)
  /\ (List.length items <= 10)%nat
  /\ (l <> [] -> items <> [])
  /\ (forall i : nat, (i < 10)%nat ->
        nth_error items i = nth_error l (Z.to_nat ((page - 1) * 10) + i)).
Proof.
  intros total page items.
  pose proof (totalPagesOf_bounds Paging.PAGE_SIZE eq_refl (List.length l))
    as (B1 & B2 & B3).
  fold total in B1, B2, B3.
  assert (page = Z.max 1 (Z.min cur total)) as P by apply tablePage_fst.
  assert (items = firstn 10 (skipn (Z.to_nat ((page - 1) * 10)) l)) as I
    by apply tablePage_snd.
  split; [lia|]. split; [lia|]. split.
  { rewrite I, length_firstn. lia. }
  split.
  { intros N. rewrite I.
    apply (chunk_nonempty Paging.PAGE_SIZE eq_refl page l); [lia|].
    assert (0 < List.length l)%nat as L by (destruct l; [easy|simpl; lia]).
    specialize (B3 L). unfold Paging.PAGE_SIZE in *. nia. }
  intros i Hi. rewrite I.
  apply (chunk_nth Paging.PAGE_SIZE eq_refl page l i); [lia|].
  unfold Paging.PAGE_SIZE. lia.
Qed.

(** The hypotheses at page 2 of twelve rows. *)
Lemma tablePage_valid_witness :
  let l := seq 1 12 in
  (1 <= 2 <= Paging.totalPagesOf Paging.PAGE_SIZE (List.length l))%Z
  /\ l <> []
  /\ (1 < 10)%nat
  /\ fst (Paging.tablePage 2 l) = 2%Z
  /\ snd (Paging.tablePage 2 l) <> []
  /\ nth_error (snd (Paging.tablePage 2 l)) 1
     = nth_error l (Z.to_nat ((fst (Paging.tablePage 2 l) - 1) * 10) + 1).
Proof.
  intros l.
  assert (1 <= 2 <= Paging.totalPagesOf Paging.PAGE_SIZE (List.length l))%Z
    as H1 by (vm_compute; split; discriminate).
  assert (l <> []) as H2 by discriminate.
  assert (1 < 10)%nat as H3 by lia.
  destruct (tablePage_valid 2 l) as (_ & T1 & _ & T2 & T3).
  split; [exact H1|]. split; [exact H2|]. split; [exact H3|].
  split; [exact (T1 H1)|]. split; [exact (T2 H2)|]. exact (T3 1%nat H3).
Defined.

(** The pages of the transactions table, from the first to the last, show
    every row once and in order. *)
Theorem tablePages_cover {A : Type} (l : list A) :
  flat_map (fun p => snd (Paging.tablePage (Z.of_nat p) l))
    (seq 1 (Z.to_nat (Paging.totalPagesOf Paging.PAGE_SIZE (List.length l))))
  = l.
Proof.
  pose proof (totalPagesOf_bounds Paging.PAGE_SIZE eq_refl (List.length l))
    as (B1 & B2 & _).
  set (total := Paging.totalPagesOf Paging.PAGE_SIZE (List.length l)) in *.
  etransitivity;
    [|apply (chunks_cover Paging.PAGE_SIZE eq_refl (Z.to_nat total) l); lia].
  rewrite !flat_map_concat_map. f_equal.
  apply map_ext_in. intros p Hp. apply in_seq in Hp.
  rewrite tablePage_snd, tablePage_fst. fold total.
  replace (Z.max 1 (Z.min (Z.of_nat p) total)) with (Z.of_nat p) by lia.
  reflexivity.
Qed.

(** The page shown by the category picker is a page that exists, with at
    most fifteen names; its pages show every name once and in order; and
    when there is a name, the range printed by its pager counts the names
    of the page. *)
Theorem renderPage_valid {A : Type} (page : Z) (categories : list A) :
  let total :=
    Paging.totalPagesOf Paging.PICKER_PAGE_SIZE (List.length categories) in
  let shown := fst (Paging.renderPage page categories) in
  let items := snd (Paging.renderPage page categories) in
  (1 <= shown <= total)%Z
  /\ ((1 <= page <= total)%Z -> shown = page)
  /\ (List.length items <= 15)%nat
  /\ (categories <> [] ->
      let range := Paging.pickerRange shown (List.length categories) in
      Z.of_nat (List.length items) = (snd range - fst range + 1)%Z)
  /\ flat_map (fun p => snd (Paging.renderPage (Z.of_nat p) categories))
       (seq 1 (Z.to_nat total))
     = categories.
Proof.
  intros total shown items.
  pose proof (totalPagesOf_bounds Paging.PICKER_PAGE_SIZE eq_refl
                (List.length categories)) as (B1 & B2 & B3).
  fold total in B1, B2, B3.
  assert (shown = Z.max 1 (Z.min page total)) as P by apply renderPage_fst.
  assert (items
          = firstn 15 (skipn (Z.to_nat ((shown - 1) * 15)) categories)) as I
    by apply renderPage_snd.
  split; [lia|]. split; [lia|]. split.
  { rewrite I, length_firstn. lia. }
  split.
  { intros N range. unfold range, Paging.pickerRange. cbn [fst snd].
    assert (0 < List.length categories)%nat as L
      by (destruct categories; [easy|simpl; lia]).
    specialize (B3 L). unfold Paging.PICKER_PAGE_SIZE in *.
    rewrite I, length_firstn, length_skipn. lia. }
  etransitivity;
    [|apply (chunks_cover Paging.PICKER_PAGE_SIZE eq_refl (Z.to_nat total)
               categories); lia].
  rewrite !flat_map_concat_map. f_equal.
  apply map_ext_in. intros p Hp. apply in_seq in Hp.
  rewrite renderPage_snd, renderPage_fst. fold total.
  replace (Z.max 1 (Z.min (Z.of_nat p) total)) with (Z.of_nat p) by lia.
  reflexivity.
Qed.

(** The hypotheses at page 2 of twenty names. *)
Lemma renderPage_valid_witness :
  let l := seq 1 20 in
  (1 <= 2 <= Paging.totalPagesOf Paging.PICKER_PAGE_SIZE (List.length l))%Z
  /\ l <> []
  /\ fst (Paging.renderPage 2 l) = 2%Z
  /\ Z.of_nat (List.length (snd (Paging.renderPage 2 l)))
     = (snd (Paging.pickerRange (fst (Paging.renderPage 2 l)) (List.length l))
        - fst (Paging.pickerRange (fst (Paging.renderPage 2 l)) (List.length l))
        + 1)%Z.
Proof.
  intros l.
  assert (1 <= 2
          <= Paging.totalPagesOf Paging.PICKER_PAGE_SIZE (List.length l))%Z
    as H1 by (vm_compute; split; discriminate).
  assert (l <> []) as H2 by discriminate.
  destruct (renderPage_valid 2 l) as (_ & T1 & _ & T2 & _).
  split; [exact H1|]. split; [exact H2|]. split; [exact (T1 H1)|].
  exact (T2 H2).
Defined.

(** With the current page among the pages, the numbered buttons of the
    pager run over pages that exist, include the current page, and are
    five whenever there are five pages or more; [Prev] and [Next] lead to
    pages that exist. *)
Theorem pagerWindow_valid (totalPages cur : Z) :
  (1 <= cur <= totalPages)%Z ->
  let first := fst (Paging.pagerWindow totalPages cur) in
  let last := snd (Paging.pagerWindow totalPages cur) in
  (1 <= first <= cur)%Z /\ (cur <= last <= totalPages)%Z
  /\ (last - first + 1 = Z.min totalPages 5)%Z
  /\ (1 <= Paging.prevPage cur <= totalPages)%Z
  /\ (1 <= Paging.nextPage totalPages cur <= totalPages)%Z.
Proof.
  intros H first last.
  unfold first, last, Paging.pagerWindow, Paging.prevPage, Paging.nextPage.
  cbn [fst snd].
  destruct (Z.eqb_spec totalPages 0); [lia|].
  change (5 / 2)%Z with 2%Z. lia.
Qed.

(** The hypothesis at page 10 of 10. *)
Lemma pagerWindow_valid_witness :
  (1 <= 10 <= 10)%Z
  /\ Paging.pagerWindow 10 10 = (6, 10)%Z
  /\ (snd (Paging.pagerWindow 10 10) - fst (Paging.pagerWindow 10 10) + 1
      = Z.min 10 5)%Z.
Proof.
  assert (1 <= 10 <= 10)%Z as H by lia.
  split; [exact H|]. split; [reflexivity|].
  exact (proj1 (proj2 (proj2 (pagerWindow_valid 10 10 H)))).
Defined.

(** ** Text helpers *)

Section EscapeHtml.

Import Text.

Lemma replaceChar_append (n : nat) (b x y : string) :
  replaceChar n b (x ++ y) = replaceChar n b x ++ replaceChar n b y.
Proof.
  induction x as [|c x IH]; simpl; [reflexivity|].
  destruct (Char.isCode n c); simpl; rewrite IH; [|reflexivity].
  now rewrite append_assoc.
Qed.

(** The five replacements, one after the other, amount to one pass that
    replaces each character by its entity. *)
Lemma escapeHtml_cons (c : ascii) (r : string) :
  escapeHtml (String c r) = entityOf c ++ escapeHtml r.
Proof.
  unfold escapeHtml, entityOf.
  cbn [replaceChar].
  destruct (Char.isCode 38 c) eqn:E1.
  { rewrite !replaceChar_append. reflexivity. }
  cbn [replaceChar]. destruct (Char.isCode 60 c) eqn:E2.
  { rewrite !replaceChar_append. reflexivity. }
  cbn [replaceChar]. destruct (Char.isCode 62 c) eqn:E3.
  { rewrite !replaceChar_append. reflexivity. }
  cbn [replaceChar]. destruct (Char.isCode 34 c) eqn:E4.
  { rewrite !replaceChar_append. reflexivity. }
  cbn [replaceChar]. destruct (Char.isCode 39 c) eqn:E5; reflexivity.
Qed.

Lemma isCode_eq (n : nat) (c : ascii) :
  Char.isCode n c = true -> c = ascii_of_nat n.
Proof.
  unfold Char.isCode, Char.code. intros H. apply Nat.eqb_eq in H.
  rewrite <- H. symmetry. apply ascii_nat_embedding.
Qed.

Lemma entityOf_safe (c : ascii) :
  Js.all (fun x => negb (isMarkup x)) (entityOf c) = true.
Proof.
  unfold entityOf.
  destruct (Char.isCode 38 c); [reflexivity|].
  destruct (Char.isCode 60 c) eqn:E2; [reflexivity|].
  destruct (Char.isCode 62 c) eqn:E3; [reflexivity|].
  destruct (Char.isCode 34 c) eqn:E4; [reflexivity|].
  destruct (Char.isCode 39 c) eqn:E5; [reflexivity|].
  simpl. unfold isMarkup. now rewrite E2, E3, E4, E5.
Qed.

(** The entities can be told apart at the head of a text. *)
Lemma entityOf_head (c d : ascii) (x y : string) :
  entityOf c ++ x = entityOf d ++ y -> c = d /\ x = y.
Proof.
  unfold entityOf.
  destruct (Char.isCode 38 c) eqn:C1;
    [apply isCode_eq in C1; subst c|];
    [|destruct (Char.isCode 60 c) eqn:C2;
        [apply isCode_eq in C2; subst c|];
        [|destruct (Char.isCode 62 c) eqn:C3;
            [apply isCode_eq in C3; subst c|];
            [|destruct (Char.isCode 34 c) eqn:C4;
                [apply isCode_eq in C4; subst c|];
                [|destruct (Char.isCode 39 c) eqn:C5;
                    [apply isCode_eq in C5; subst c|]]]]];
    (destruct (Char.isCode 38 d) eqn:D1;
       [apply isCode_eq in D1; subst d|];
       [|destruct (Char.isCode 60 d) eqn:D2;
           [apply isCode_eq in D2; subst d|];
           [|destruct (Char.isCode 62 d) eqn:D3;
               [apply isCode_eq in D3; subst d|];
               [|destruct (Char.isCode 34 d) eqn:D4;
                   [apply isCode_eq in D4; subst d|];
                   [|destruct (Char.isCode 39 d) eqn:D5;
                       [apply isCode_eq in D5; subst d|]]]]]);
    simpl; intros E; try discriminate E;
    try (injection E as E; subst; split; reflexivity);
    try (injection E as E1 E2; subst; discriminate).
Qed.

End EscapeHtml.

(** The escaped text has none of the characters [<], [>], double quote
    and single quote; it is the text with each of [&], [<], [>] and the
    two quotes replaced by its entity; and two texts that differ have
    escaped texts that differ. *)
Theorem escapeHtml_safe_and_faithful :
  (forall s : string,
      Js.all (fun c => negb (Text.isMarkup c)) (Text.escapeHtml s) = true)
  /\ (forall (c : ascii) (r : string),
      Text.escapeHtml (String c r) = Text.entityOf c ++ Text.escapeHtml r)
  /\ (forall s t : string, Text.escapeHtml s = Text.escapeHtml t -> s = t).
Proof.
  split; [|split; [exact escapeHtml_cons|]].
  - induction s as [|c r IH]; [reflexivity|].
    now rewrite escapeHtml_cons, all_append, entityOf_safe, IH.
  - induction s as [|c r IH]; intros [|d t] E.
    + reflexivity.
    + rewrite escapeHtml_cons in E. exfalso. revert E. unfold Text.entityOf.
      destruct (Char.isCode 38 d); [discriminate|].
      destruct (Char.isCode 60 d); [discriminate|].
      destruct (Char.isCode 62 d); [discriminate|].
      destruct (Char.isCode 34 d); [discriminate|].
      destruct (Char.isCode 39 d); discriminate.
    + rewrite escapeHtml_cons in E. exfalso. revert E. unfold Text.entityOf.
      destruct (Char.isCode 38 c); [discriminate|].
      destruct (Char.isCode 60 c); [discriminate|].
      destruct (Char.isCode 62 c); [discriminate|].
      destruct (Char.isCode 34 c); [discriminate|].
      destruct (Char.isCode 39 c); discriminate.
    + rewrite !escapeHtml_cons in E. apply entityOf_head in E as [-> E].
      f_equal. now apply IH.
Qed.

(** The hypothesis at two equal texts. *)
Lemma escapeHtml_safe_and_faithful_witness :
  Text.escapeHtml "a<b" = Text.escapeHtml "a<b" /\ "a<b" = "a<b".
Proof.
  assert (Text.escapeHtml "a<b" = Text.escapeHtml "a<b") as H by reflexivity.
  split; [exact H|].
  exact (proj2 (proj2 escapeHtml_safe_and_faithful) "a<b" "a<b" H).
Defined.

Section Runs.

Import Text.

Variable p : ascii -> bool.
Variable b : ascii.

Lemma replaceRuns_all (q : ascii -> bool) (s : string) :
  q b = true ->
  Js.all (fun c => p c || q c) s = true ->
  Js.all q (replaceRuns p b s) = true.
Proof.
  intros Hb. induction s as [|c r IH]; simpl; [reflexivity|].
  intros H. apply andb_true_iff in H as [Hc Hr]. specialize (IH Hr).
  destruct (p c) eqn:E.
  - destruct (Js.startsWithChar p r); [assumption|]. simpl. now rewrite Hb.
  - simpl in Hc. simpl. now rewrite Hc.
Qed.

(** When the replacement is not of the class, the result has no
    character of the class. *)
Lemma replaceRuns_clean (s : string) :
  p b = false -> Js.all (fun c => negb (p c)) (replaceRuns p b s) = true.
Proof.
  intros Hb. apply replaceRuns_all.
  - now rewrite Hb.
  - clear. induction s as [|c r IH]; simpl; [reflexivity|].
    rewrite IH. now destruct (p c).
Qed.

(** A text without a character of the class is left as it is. *)
Lemma replaceRuns_fixed (s : string) :
  Js.all (fun c => negb (p c)) s = true -> replaceRuns p b s = s.
Proof.
  induction s as [|c r IH]; simpl; [reflexivity|].
  intros H. apply andb_true_iff in H as [Hc Hr].
  apply negb_true_iff in Hc. now rewrite Hc, IH.
Qed.

End Runs.

Section Trim.

Import Js.

Variable q : ascii -> bool.

Lemma trimStart_all (s : string) : all q s = true -> all q (trimStart s) = true.
Proof.
  induction s as [|c r IH]; simpl; [reflexivity|].
  intros H. destruct (Char.isWhite c); [|exact H].
  apply andb_true_iff in H as [_ H]. now apply IH.
Qed.

Lemma trimEnd_all (s : string) : all q s = true -> all q (trimEnd s) = true.
Proof.
  induction s as [|c r IH]; simpl; [reflexivity|].
  intros H. apply andb_true_iff in H as [Hc Hr].
  destruct (Char.isWhite c && isEmpty (trimEnd r)); [reflexivity|].
  simpl. now rewrite Hc, IH.
Qed.

Lemma trim_all (s : string) : all q s = true -> all q (trim s) = true.
Proof. intros H. unfold trim. now apply trimEnd_all, trimStart_all. Qed.

End Trim.

Section TitleCase.

Import Text.

Lemma all_impl (q1 q2 : ascii -> bool) (s : string) :
  (forall c, q1 c = true -> q2 c = true) ->
  Js.all q1 s = true -> Js.all q2 s = true.
Proof.
  intros I. induction s as [|c r IH]; simpl; [reflexivity|].
  intros H. apply andb_true_iff in H as [Hc Hr].
  now rewrite (I c Hc), IH.
Qed.

Lemma toUpper_not_joiner (c : ascii) :
  isJoiner c = false -> isJoiner (Char.toUpper c) = false.
Proof.
  unfold Char.toUpper. destruct (Char.isLower c) eqn:L; [|easy].
  intros _. unfold Char.isLower in L. apply inRange_spec in L.
  pose proof (code_lt_256 c).
  unfold isJoiner, Char.isCode.
  rewrite code_of_nat by lia.
  apply orb_false_iff. split; apply Nat.eqb_neq; lia.
Qed.

Lemma capitalise_no_joiner (prev : bool) (s : string) :
  Js.all (fun c => negb (isJoiner c)) s = true ->
  Js.all (fun c => negb (isJoiner c)) (capitalise prev s) = true.
Proof.
  revert prev. induction s as [|c r IH]; intros prev; simpl; [reflexivity|].
  intros H. apply andb_true_iff in H as [Hc Hr]. rewrite (IH _ Hr).
  apply negb_true_iff in Hc.
  destruct (negb prev && Char.isLower c);
    [rewrite (toUpper_not_joiner c Hc)|rewrite Hc]; reflexivity.
Qed.

Lemma toTitleCase_no_joiner (s : string) :
  Js.all (fun c => negb (isJoiner c)) (toTitleCase s) = true.
Proof.
  unfold toTitleCase. destruct (negb (Js.truthy s)); [reflexivity|].
  apply capitalise_no_joiner, trim_all.
  apply replaceRuns_all; [reflexivity|].
  apply (all_impl (fun c => negb (isJoiner c))).
  { intros c ->. apply orb_true_r. }
  now apply replaceRuns_clean.
Qed.

Lemma toTitleCase_case (s : string) :
  toTitleCase (Js.toUpperCase s) = toTitleCase s.
Proof.
  unfold toTitleCase. rewrite toLowerCase_toUpperCase.
  unfold Js.truthy, Js.toUpperCase. now rewrite map_isEmpty.
Qed.

End TitleCase.

(** The display name of a category has no underscore and no hyphen, and
    it is the same for the category written in upper case. *)
Theorem toTitleCase_shape (s : string) :
  Js.all (fun c => negb (Text.isJoiner c)) (Text.toTitleCase s) = true
  /\ Text.toTitleCase (Js.toUpperCase s) = Text.toTitleCase s.
Proof.
  split; [apply toTitleCase_no_joiner|apply toTitleCase_case].
Qed.

(** The part of a file name made from a label has no white space; a
    label without white space is kept as it is, so making the part again
    from the result changes nothing. *)
Theorem forFilename_no_space (label : string) :
  Js.all (fun c => negb (Char.isWhite c)) (Text.forFilename label) = true
  /\ (Js.all (fun c => negb (Char.isWhite c)) label = true ->
      Text.forFilename label = label)
  /\ Text.forFilename (Text.forFilename label) = Text.forFilename label.
Proof.
  assert (Js.all (fun c => negb (Char.isWhite c)) (Text.forFilename label)
          = true) as H
    by (unfold Text.forFilename; now apply replaceRuns_clean).
  split; [exact H|]. split.
  - apply replaceRuns_fixed.
  - now apply replaceRuns_fixed.
Qed.

(** The hypothesis at the label [2025-07]. *)
Lemma forFilename_no_space_witness :
  Js.all (fun c => negb (Char.isWhite c)) "2025-07" = true
  /\ Text.forFilename "2025-07" = "2025-07".
Proof.
  assert (Js.all (fun c => negb (Char.isWhite c)) "2025-07" = true) as H
    by reflexivity.
  split; [exact H|].
  exact (proj1 (proj2 (forFilename_no_space "2025-07")) H).
Defined.

(** ** Category totals and the category filter *)

Section TotalsLemmas.

Import Totals.

Let keys (m : NumMap) : list string := List.map fst m.

Lemma mapSet_keys (k : string) (v : float) (m : NumMap) :
  keys (mapSet k v m) = if in_dec string_dec k (keys m) then keys m
                        else (keys m ++ [k])%list.
Proof.
  induction m as [|[k' v'] m IH]; simpl; [reflexivity|].
  destruct (String.eqb_spec k' k) as [E|N]; simpl.
  - subst k'. destruct (string_dec k k); [|congruence].
    reflexivity.
  - destruct (string_dec k' k) as [E|N']; [congruence|].
    fold (keys (mapSet k v m)) (keys m). rewrite IH.
    now destruct (in_dec string_dec k (keys m)).
Qed.

Lemma mapSet_NoDup (k : string) (v : float) (m : NumMap) :
  NoDup (keys m) -> NoDup (keys (mapSet k v m)).
Proof.
  intros H. rewrite mapSet_keys.
  destruct (in_dec string_dec k (keys m)) as [I|N]; [assumption|].
  apply NoDup_app; [assumption|repeat constructor; easy|].
  intros x Hx [<-|[]]. contradiction.
Qed.

Lemma mapSet_In (k : string) (v : float) (m : NumMap) (x : string) :
  In x (keys (mapSet k v m)) <-> In x (keys m) \/ x = k.
Proof.
  rewrite mapSet_keys.
  destruct (in_dec string_dec k (keys m)) as [I|N].
  - split; [auto|]. intros [H| ->]; assumption.
  - rewrite in_app_iff. simpl. intuition congruence.
Qed.

Lemma fold_totals_keys (txns : list Categorizer.Txn) (m : NumMap) :
  NoDup (keys m) ->
  NoDup (keys (fold_left totalsStep txns m))
  /\ forall x, In x (keys (fold_left totalsStep txns m))
               <-> In x (keys m) \/ In x (List.map catOf txns).
Proof.
  revert m. induction txns as [|t txns IH]; intros m H; simpl.
  - split; [assumption|]. intros x. tauto.
  - destruct (IH (totalsStep m t)) as [N I].
    { now apply mapSet_NoDup. }
    split; [assumption|]. intros x. rewrite I.
    unfold totalsStep. rewrite mapSet_In. intuition congruence.
Qed.

Lemma insertRow_perm (x : string * float) (l : NumMap) :
  Permutation (insertRow x l) (x :: l).
Proof.
  induction l as [|y l IH]; simpl; [reflexivity|].
  destruct (after x y); [|reflexivity].
  rewrite IH. apply perm_swap.
Qed.

Lemma sortRows_perm (l : NumMap) : Permutation (sortRows l) l.
Proof.
  induction l as [|x l IH]; simpl; [reflexivity|].
  rewrite insertRow_perm. now constructor.
Qed.

Lemma catOf_truthy (t : Categorizer.Txn) : Js.truthy (catOf t) = true.
Proof.
  unfold catOf, Js.truthy, Js.toUpperCase. rewrite map_isEmpty.
  unfold Categorizer.orText.
  destruct (Categorizer.category t) as [c|]; [|reflexivity].
  destruct (Js.truthy c) eqn:E; [exact E|reflexivity].
Qed.

(** The keys of the rows: no key twice, and the keys are the categories
    of the transactions. *)
Lemma rows_keys (txns : list Categorizer.Txn) :
  NoDup (keys (fst (computeCategoryTotals txns)))
  /\ forall k, In k (keys (fst (computeCategoryTotals txns)))
               <-> In k (List.map catOf txns).
Proof.
  unfold computeCategoryTotals. cbn [fst].
  destruct (fold_totals_keys txns [] (NoDup_nil _)) as [N I].
  assert (Permutation (keys (sortRows (byCategory txns)))
            (keys (byCategory txns))) as P
    by (apply Permutation_map, sortRows_perm).
  split.
  - apply (Permutation_NoDup (Permutation_sym P)), N.
  - intros k. split; intros H.
    + apply (Permutation_in _ P) in H.
      apply I in H as [[]|H]. exact H.
    + apply (Permutation_in _ (Permutation_sym P)).
      apply I. now right.
Qed.

Lemma list_sum_add {B : Type} (f g : B -> nat) (l : list B) :
  list_sum (List.map (fun x => (f x + g x)%nat) l)
  = (list_sum (List.map f l) + list_sum (List.map g l))%nat.
Proof. induction l as [|x l IH]; simpl; [reflexivity|]. rewrite IH. lia. Qed.

(** Among keys that are all different, one key at most is a given
    text. *)
Lemma list_sum_one (c : string) (ks : list string) :
  NoDup ks -> In c ks ->
  list_sum (List.map (fun k => if String.eqb c k then 1 else 0)%nat ks) = 1%nat.
Proof.
  induction ks as [|k ks IH]; intros N I; [destruct I|].
  inversion N as [|? ? Nk N']; subst. simpl.
  destruct (String.eqb_spec c k) as [E|E].
  - subst k. f_equal. clear IH I N.
    induction ks as [|k ks IH]; [reflexivity|]. simpl.
    destruct (String.eqb_spec c k) as [E|E].
    + subst k. exfalso. apply Nk. now left.
    + apply IH.
      * intros H. apply Nk. now right.
      * now inversion N'.
  - destruct I as [I|I]; [congruence|]. now apply IH.
Qed.

(** With keys that are all different and include the category of every
    transaction, the filtered lists have the transactions between
    them. *)
Lemma views_sum (ks : list string) (txns : list Categorizer.Txn) :
  NoDup ks ->
  (forall t, In t txns -> In (catOf t) ks) ->
  list_sum
    (List.map
       (fun k => List.length
                   (List.filter (fun t => String.eqb (catOf t) k) txns))
       ks)
  = List.length txns.
Proof.
  intros N. induction txns as [|t txns IH]; intros C.
  - clear. simpl. induction ks as [|k ks IH]; simpl; [reflexivity|exact IH].
  - rewrite (map_ext _
               (fun k =>
                  ((if String.eqb (catOf t) k then 1 else 0)
                   + List.length
                       (List.filter (fun t0 => String.eqb (catOf t0) k) txns))%nat)).
    + rewrite list_sum_add, list_sum_one, IH; [reflexivity| |exact N|].
      * intros t' H'. apply C. now right.
      * apply C. now left.
    + intros k. simpl. now destruct (String.eqb (catOf t) k).
Qed.

End TotalsLemmas.

(** The rows of the totals have one row for each category that a
    transaction has, in upper case and [UNCATEGORISED] when it has none,
    and no category twice; so the rows are never more than the
    transactions. *)
Theorem totals_rows_are_the_categories (txns : list Categorizer.Txn) :
  let rows := fst (Totals.computeCategoryTotals txns) in
  NoDup (List.map fst rows)
  /\ (forall k, In k (List.map fst rows)
                <-> exists t, In t txns /\ Totals.catOf t = k)
  /\ (List.length rows <= List.length txns)%nat.
Proof.
  intros rows. destruct (rows_keys txns) as [N I]. fold rows in N, I.
  split; [exact N|]. split.
  - intros k. rewrite I, in_map_iff. split; intros (t & H1 & H2); eauto.
  - rewrite <- (length_map fst rows), <- (length_map Totals.catOf txns).
    apply NoDup_incl_length; [exact N|]. intros k. apply I.
Qed.

(** Filtering by the category of a row shows a transaction at least;
    every transaction is shown under its own category; and the lists
    shown for the rows have, between them, as many transactions as there
    are. *)
Theorem category_views_partition (txns : list Categorizer.Txn) :
  let rows := fst (Totals.computeCategoryTotals txns) in
  (forall k, In k (List.map fst rows) ->
             Totals.getFilteredTxns (Some k) txns <> [])
  /\ (forall t, In t txns ->
                In (Totals.catOf t) (List.map fst rows)
                /\ In t (Totals.getFilteredTxns (Some (Totals.catOf t)) txns))
  /\ list_sum
       (List.map
          (fun k => List.length (Totals.getFilteredTxns (Some k) txns))
          (List.map fst rows))
     = List.length txns.
Proof.
  intros rows. destruct (rows_keys txns) as [N I]. fold rows in N, I.
  assert (forall k, In k (List.map fst rows) ->
            Totals.getFilteredTxns (Some k) txns
            = List.filter (fun t => String.eqb (Totals.catOf t) k) txns) as F.
  { intros k Hk. apply I in Hk. apply in_map_iff in Hk as (t & <- & _).
    unfold Totals.getFilteredTxns. now rewrite catOf_truthy. }
  split; [|split].
  - intros k Hk. rewrite (F k Hk). apply I in Hk.
    apply in_map_iff in Hk as (t & <- & Ht). intros E.
    assert (In t (List.filter
                    (fun t0 => String.eqb (Totals.catOf t0) (Totals.catOf t))
                    txns)) as X
      by (apply filter_In; split; [exact Ht|apply String.eqb_refl]).
    rewrite E in X. exact X.
  - intros t Ht.
    assert (In (Totals.catOf t) (List.map fst rows)) as K
      by (apply I, in_map; exact Ht).
    split; [exact K|]. rewrite (F _ K).
    apply filter_In. split; [exact Ht|apply String.eqb_refl].
  - rewrite (map_ext_in _
               (fun k => List.length
                           (List.filter
                              (fun t => String.eqb (Totals.catOf t) k) txns))).
    + apply views_sum; [exact N|]. intros t Ht. apply I, in_map. exact Ht.
    + intros k Hk. now rewrite (F k Hk).
Qed.

(** The hypotheses at three purchases in two categories. *)
Lemma category_views_partition_witness :
  let coles := Categorizer.mkTxn "2025-07-01" None (Some "COLES")
                 (Some 12.5%float) None (Some "groceries") in
  let aldi := Categorizer.mkTxn "2025-07-02" None (Some "ALDI")
                (Some 7.5%float) None (Some "GROCERIES") in
  let misc := Categorizer.mkTxn "2025-07-03" None (Some "ATM")
                (Some 20%float) None None in
  let txns := [coles; aldi; misc] in
  In "GROCERIES" (List.map fst (fst (Totals.computeCategoryTotals txns)))
  /\ In aldi txns
  /\ Totals.getFilteredTxns (Some "GROCERIES") txns <> []
  /\ In aldi (Totals.getFilteredTxns (Some (Totals.catOf aldi)) txns).
Proof.
  intros coles aldi misc txns.
  assert (In "GROCERIES"
            (List.map fst (fst (Totals.computeCategoryTotals txns)))) as H1
    by (vm_compute; auto).
  assert (In aldi txns) as H2 by (simpl; auto).
  split; [exact H1|]. split; [exact H2|]. split.
  - exact (proj1 (category_views_partition txns) "GROCERIES" H1).
  - exact (proj2 (proj1 (proj2 (category_views_partition txns)) aldi H2)).
Defined.

(** ** Keyword suggestion *)

Section TokenRuns.

Import Suggest MatchEngine MatchSpec.

Lemma delim_tokChar (c : ascii) : delim c = negb (tokChar c).
Proof. reflexivity. Qed.

Lemma white_not_tokChar (c : ascii) : Char.isWhite c = true -> tokChar c = false.
Proof.
  unfold Char.isWhite, tokChar, Char.isUpper, Char.isLower, Char.isDigit,
    Char.isCode.
  rewrite orb_true_iff, inRange_spec, Nat.eqb_eq. intros H.
  repeat (apply orb_false_iff; split);
    try (apply inRange_false; lia); apply Nat.eqb_neq; lia.
Qed.

(** *** The runs of a trimmed text and of a lower-cased text *)

Lemma matchRuns_trimStart (s : string) :
  matchRuns tokChar (Js.trimStart s) = matchRuns tokChar s.
Proof.
  induction s as [|c r IH]; [reflexivity|]. simpl.
  destruct (Char.isWhite c) eqn:W; [|reflexivity].
  now rewrite (white_not_tokChar c W).
Qed.

Lemma startsWith_trimEnd (s : string) :
  Js.startsWithChar tokChar (Js.trimEnd s) = Js.startsWithChar tokChar s.
Proof.
  destruct s as [|c r]; [reflexivity|]. simpl.
  destruct (Char.isWhite c && Js.isEmpty (Js.trimEnd r)) eqn:E; [|reflexivity].
  apply andb_true_iff in E as [W _]. simpl.
  now rewrite (white_not_tokChar c W).
Qed.

Lemma matchRuns_trimEnd (s : string) :
  matchRuns tokChar (Js.trimEnd s) = matchRuns tokChar s.
Proof.
  induction s as [|c r IH]; [reflexivity|]. simpl.
  destruct (Char.isWhite c && Js.isEmpty (Js.trimEnd r)) eqn:E.
  - apply andb_true_iff in E as [W E]. apply isEmpty_true in E.
    rewrite (white_not_tokChar c W), <- IH, E. reflexivity.
  - simpl. now rewrite startsWith_trimEnd, IH.
Qed.

Lemma matchRuns_trim (s : string) :
  matchRuns tokChar (Js.trim s) = matchRuns tokChar s.
Proof. unfold Js.trim. now rewrite matchRuns_trimEnd, matchRuns_trimStart. Qed.

Lemma tokChar_toLower (c : ascii) : tokChar (Char.toLower c) = tokChar c.
Proof.
  unfold Char.toLower. destruct (Char.isUpper c) eqn:U; [|reflexivity].
  unfold tokChar at 2. rewrite U. simpl.
  unfold Char.isUpper in U. apply inRange_spec in U.
  pose proof (code_lt_256 c).
  unfold tokChar.
  assert (Char.isLower (ascii_of_nat (Char.code c + 32)) = true) as ->.
  { apply inRange_spec. rewrite code_of_nat; lia. }
  apply orb_true_iff. left. apply orb_true_iff. left.
  apply orb_true_iff. left. apply orb_true_iff. left. apply orb_true_r.
Qed.

Lemma startsWith_toLowerCase (s : string) :
  Js.startsWithChar tokChar (Js.toLowerCase s) = Js.startsWithChar tokChar s.
Proof. destruct s; [reflexivity|]. simpl. apply tokChar_toLower. Qed.

Lemma map_consHead (f : ascii -> ascii) (c : ascii) (l : list string) :
  List.map (Js.map f) (Js.consHead c l) = Js.consHead (f c) (List.map (Js.map f) l).
Proof. destruct l; reflexivity. Qed.

Lemma matchRuns_toLowerCase (s : string) :
  List.map Js.toLowerCase (matchRuns tokChar s)
  = matchRuns tokChar (Js.toLowerCase s).
Proof.
  induction s as [|c r IH]; [reflexivity|].
  cbn [matchRuns Js.toLowerCase Js.map].
  fold (Js.toLowerCase r).
  rewrite tokChar_toLower, startsWith_toLowerCase, <- IH.
  destruct (tokChar c); [|reflexivity].
  destruct (Js.startsWithChar tokChar r); [|reflexivity].
  apply map_consHead.
Qed.

(** *** The runs cut the text into tokens *)

Lemma matchRuns_Tokens (s : string) : Tokens s (matchRuns tokChar s).
Proof.
  induction s as [|c r IH]; [now constructor|].
  cbn [matchRuns]. destruct (tokChar c) eqn:T.
  - destruct (Js.startsWithChar tokChar r) eqn:S.
    + inversion IH as [d Hd E1 E2|d t rest ts Hd Ht Ha Hb Hr E1 E2]; subst.
      * destruct r as [|x r]; [discriminate S|]. simpl in S, Hd.
        rewrite delim_tokChar, S in Hd. discriminate Hd.
      * destruct d as [|x d].
        -- simpl. apply (Tokens_cons "" (String c t) rest ts); simpl; auto.
           now rewrite T.
        -- simpl in S, Hd. rewrite delim_tokChar, S in Hd. discriminate Hd.
    + apply (Tokens_cons "" (String c "") r); simpl; auto.
      * now rewrite T.
      * destruct r as [|x r]; [reflexivity|]. simpl in *.
        now rewrite delim_tokChar, S.
  - inversion IH as [d Hd E1 E2|d t rest ts Hd Ht Ha Hb Hr E1 E2]; subst.
    + constructor. simpl. now rewrite delim_tokChar, T.
    + apply (Tokens_cons (String c d) t rest ts); simpl; auto.
      now rewrite delim_tokChar, T.
Qed.

End TokenRuns.

Section TokenOccurrences.

Import Suggest MatchEngine MatchSpec.

Lemma Tokens_ok (s : string) (ts : list string) :
  Tokens s ts ->
  Forall (fun t => Js.truthy t = true /\ Js.all tokChar t = true) ts.
Proof. induction 1; constructor; auto. Qed.

(** A token does not start where a boundary character starts. *)
Lemma token_not_boundary (t rest : string) :
  Js.truthy t = true -> Js.all tokChar t = true ->
  boundaryAfter (t ++ rest) = false.
Proof.
  destruct t as [|c t]; [discriminate|]. simpl. intros _ H.
  apply andb_true_iff in H as [H _]. now rewrite delim_tokChar, H.
Qed.

Lemma boundaryBefore_delims (d : string) :
  Js.all delim d = true -> boundaryBefore d = true.
Proof.
  induction d as [|c d IH]; [reflexivity|]. simpl. intros H.
  apply andb_true_iff in H as [Hc Hd]. destruct d; auto.
Qed.

Lemma boundaryBefore_append (x y : string) :
  Js.truthy y = true -> boundaryBefore (x ++ y) = boundaryBefore y.
Proof.
  intros Hy. induction x as [|c x IH]; [reflexivity|].
  cbn [append boundaryBefore]. rewrite IH.
  destruct (x ++ y) eqn:E; [|reflexivity].
  destruct x; [|discriminate]. simpl in E. now subst y.
Qed.

(** What comes before an occurrence in the rest of the text, when the
    rest starts with a boundary character or is empty. *)
Lemma lift_before (d t pre tok post : string) :
  boundaryAfter (pre ++ tok ++ post) = true ->
  Js.truthy tok = true -> Js.all tokChar tok = true ->
  boundaryBefore pre = true ->
  boundaryBefore (d ++ t ++ pre) = true.
Proof.
  intros Ha Ht Hk Hb.
  destruct pre as [|c pre].
  - simpl in Ha. now rewrite token_not_boundary in Ha.
  - now rewrite <- append_assoc, boundaryBefore_append.
Qed.

(** Each token stands in the text between boundaries. *)
Lemma Tokens_single (s : string) (ts : list string) :
  Tokens s ts -> forall t, In t ts -> occursDelimited t s.
Proof.
  induction 1 as [d Hd|d t rest ts Hd Ht Hk Ha Hr IH]; intros x Hx.
  - destruct Hx.
  - destruct Hx as [<-|Hx].
    + exists d, rest. auto using boundaryBefore_delims.
    + destruct (IH x Hx) as (pre & post & E & Hb & Hp).
      pose proof (Tokens_ok _ _ Hr) as Ok. rewrite Forall_forall in Ok.
      destruct (Ok x Hx) as [Tx Kx].
      exists (d ++ t ++ pre), post. subst rest. split; [|split].
      * now rewrite !append_assoc.
      * now apply (lift_before d t pre x post).
      * assumption.
Qed.

(** Three tokens that follow one another stand in the text in this
    order, with boundary characters only between them. *)
Lemma Tokens_triple (s : string) (ts : list string) :
  Tokens s ts ->
  forall (k : nat) (t0 t1 t2 : string) (tl : list string),
    skipn k ts = t0 :: t1 :: t2 :: tl -> occurInOrder t0 t1 t2 s.
Proof.
  induction 1 as [d Hd|d t rest ts Hd Ht Hk Ha Hr IH];
    intros k t0 t1 t2 tl E.
  - destruct k; discriminate E.
  - destruct k as [|k].
    + simpl in E. injection E as -> ->.
      inversion Hr as [|d1 t1' r1 ts1 Hd1 Ht1 Hk1 Ha1 Hr1 E1 E2]; subst.
      inversion Hr1 as [|d2 t2' r2 ts2 Hd2 Ht2 Hk2 Ha2 Hr2 E3 E4]; subst.
      exists d, d1, d2, r2. split; [reflexivity|].
      split; [now apply boundaryBefore_delims|].
      unfold gap. split; [|split; [|assumption]].
      * destruct d1 as [|c d1]; [|now rewrite Hd1].
        simpl in Ha. now rewrite token_not_boundary in Ha.
      * destruct d2 as [|c d2]; [|now rewrite Hd2].
        simpl in Ha1. now rewrite token_not_boundary in Ha1.
    + simpl in E.
      destruct (IH k t0 t1 t2 tl E) as (pre & d1 & d2 & post & E' & Hb & G).
      pose proof (Tokens_ok _ _ Hr) as Ok. rewrite Forall_forall in Ok.
      assert (In t0 ts) as I0.
      { rewrite <- (firstn_skipn k ts), E. apply in_or_app. right. now left. }
      destruct (Ok t0 I0) as [T0 K0].
      exists (d ++ t ++ pre), d1, d2, post. subst rest. split; [|split].
      * now rewrite !append_assoc.
      * now apply (lift_before d t pre t0 (d1 ++ t1 ++ d2 ++ t2 ++ post)).
      * exact G.
Qed.

End TokenOccurrences.

Section JoinSplit.

Import Js.

Variable p : ascii -> bool.

Lemma splitRuns_clean (a : string) :
  all (fun c => negb (p c)) a = true -> splitRuns p a = [a].
Proof.
  induction a as [|c a IH]; [reflexivity|]. simpl. intros H.
  apply andb_true_iff in H as [Hc Ha]. apply negb_true_iff in Hc.
  now rewrite Hc, IH.
Qed.

Lemma splitRuns_sep (a : string) (sp : ascii) (rest : string) :
  all (fun c => negb (p c)) a = true -> p sp = true ->
  startsWithChar p rest = false ->
  splitRuns p (a ++ String sp rest) = a :: splitRuns p rest.
Proof.
  intros Ha Hs Hr. induction a as [|c a IH]; simpl.
  - now rewrite Hs, Hr.
  - simpl in Ha. apply andb_true_iff in Ha as [Hc Ha].
    apply negb_true_iff in Hc. now rewrite Hc, IH.
Qed.

Lemma startsWith_append (a b : string) :
  truthy a = true -> startsWithChar p (a ++ b) = startsWithChar p a.
Proof. destruct a; [discriminate|reflexivity]. Qed.

Lemma startsWith_clean (a : string) :
  all (fun c => negb (p c)) a = true -> startsWithChar p a = false.
Proof.
  destruct a as [|c a]; [reflexivity|]. simpl. intros H.
  apply andb_true_iff in H as [H _]. now apply negb_true_iff in H.
Qed.

(** Words without a separator, joined by one separator, split into the
    same words. *)
Lemma splitRuns_join (sp : ascii) (w : list string) :
  p sp = true -> w <> [] ->
  Forall (fun t => truthy t = true /\ all (fun c => negb (p c)) t = true) w ->
  splitRuns p (join (String sp "") w) = w.
Proof.
  intros Hs. induction w as [|a w IH]; intros N F; [congruence|].
  inversion F as [|? ? [Ta Ca] F']; subst.
  destruct w as [|b w]; [now apply splitRuns_clean|].
  change (join (String sp "") (a :: b :: w))
    with (a ++ String sp (join (String sp "") (b :: w))).
  rewrite splitRuns_sep; [|assumption..|].
  - f_equal. apply IH; [discriminate|assumption].
  - inversion F' as [|? ? [Tb Cb] _]; subst.
    destruct w as [|c w]; [now apply startsWith_clean|].
    change (join (String sp "") (b :: c :: w))
      with (b ++ String sp (join (String sp "") (c :: w))).
    rewrite startsWith_append by assumption. now apply startsWith_clean.
Qed.

Lemma map_append (f : ascii -> ascii) (a b : string) :
  map f (a ++ b) = map f a ++ map f b.
Proof. induction a as [|c a IH]; simpl; [|rewrite IH]; reflexivity. Qed.

Lemma map_join (f : ascii -> ascii) (sep : string) (l : list string) :
  map f (join sep l) = join (map f sep) (List.map (map f) l).
Proof.
  induction l as [|a l IH]; [reflexivity|].
  destruct l as [|b l]; [reflexivity|].
  change (join sep (a :: b :: l)) with (a ++ sep ++ join sep (b :: l)).
  rewrite !map_append, IH. reflexivity.
Qed.

Lemma join_truthy (sep : string) (a : string) (l : list string) :
  truthy a = true -> truthy (join sep (a :: l)) = true.
Proof. destruct a; [discriminate|]. now destruct l. Qed.

End JoinSplit.

Section Suggestion.

Import Suggest MatchEngine MatchSpec.

Lemma slice_window {A : Type} (a : Z) (n : nat) (l : list A) :
  (0 <= a)%Z ->
  Paging.slice a (a + Z.of_nat n) l = firstn n (skipn (Z.to_nat a) l).
Proof.
  intros Ha. unfold Paging.slice.
  set (len := Z.of_nat (List.length l)).
  destruct (Z.ltb_spec a 0); [lia|].
  destruct (Z.ltb_spec (a + Z.of_nat n) 0); [lia|].
  destruct (Z_le_gt_dec len a) as [Hge|Hlt].
  - rewrite Z.min_r by lia.
    rewrite !skipn_all2 by (unfold len in *; lia).
    now rewrite !firstn_nil.
  - rewrite (Z.min_l a len) by lia.
    destruct (Z_le_gt_dec (a + Z.of_nat n) len) as [H1|H1].
    + rewrite Z.min_l by lia. f_equal. lia.
    + rewrite Z.min_r by lia.
      rewrite !firstn_all2; [reflexivity| |];
        rewrite length_skipn; unfold len in *; lia.
Qed.

Lemma In_window {A : Type} (n k : nat) (l : list A) (x : A) :
  In x (firstn n (skipn k l)) -> In x l.
Proof.
  intros H.
  rewrite <- (firstn_skipn k l). apply in_or_app. right.
  rewrite <- (firstn_skipn n (skipn k l)). apply in_or_app. now left.
Qed.

Lemma truthy_false (s : string) : Js.truthy s = false -> s = "".
Proof. destruct s; [reflexivity|discriminate]. Qed.

Lemma indexOf_range (x : string) (l : list string) :
  indexOf x l = (-1)%Z
  \/ (0 <= indexOf x l < Z.of_nat (List.length l))%Z.
Proof.
  induction l as [|y l IH]; [now left|]. cbn [indexOf List.length].
  destruct (String.eqb y x); [right; lia|].
  destruct (Z.eqb_spec (indexOf x l) (-1)); [now left|right; lia].
Qed.

Lemma lowered_toLowerCase (t : string) :
  lowered t = true -> Js.toLowerCase t = t.
Proof.
  unfold lowered, Js.toLowerCase.
  induction t as [|c t IH]; [reflexivity|]. simpl. intros H.
  apply andb_true_iff in H as [Hc Ht]. apply negb_true_iff in Hc.
  rewrite (IH Ht). unfold Char.toLower. now rewrite Hc.
Qed.

Lemma tokChar_not_white (t : string) :
  Js.all tokChar t = true ->
  Js.all (fun c => negb (Char.isWhite c)) t = true.
Proof.
  apply all_impl. intros c H.
  destruct (Char.isWhite c) eqn:W; [|reflexivity].
  now rewrite (white_not_tokChar c W) in H.
Qed.

(** The tokens of a window of the tokens of a text, written in upper case
    and joined by spaces, are the window. *)
Lemma tokensOf_join (w : list string) :
  w <> [] ->
  Forall (fun t => Js.truthy t = true /\ Js.all tokChar t = true
                   /\ lowered t = true) w ->
  tokensOf (Js.join " " (List.map Js.toUpperCase w)) = w.
Proof.
  intros N F. unfold tokensOf.
  unfold Js.toLowerCase at 1. rewrite map_join, map_map.
  change (Js.map Char.toLower " ") with " ".
  rewrite (map_ext_in _ (fun t => t)), map_id.
  - rewrite splitRuns_join; [| reflexivity | assumption |].
    + apply forallb_filter_id. apply forallb_forall. intros t Ht.
      rewrite Forall_forall in F. now apply F.
    + eapply Forall_impl; [|exact F]. intros t (T & K & _).
      split; [assumption|now apply tokChar_not_white].
  - intros t Ht. rewrite Forall_forall in F. destruct (F t Ht) as (_ & _ & L).
    change (Js.toLowerCase (Js.toUpperCase t) = t).
    now rewrite toLowerCase_toUpperCase, lowered_toLowerCase.
Qed.

(** A keyword made of up to three tokens that follow one another in a
    text matches the text. *)
Lemma join3_matches (desc : string) (tokens : list string) (k : Z) :
  Tokens (Js.toLowerCase desc) tokens ->
  Forall (fun t => lowered t = true) tokens ->
  (0 <= k < Z.of_nat (List.length tokens))%Z ->
  Js.truthy (join3 tokens k) = true
  /\ (List.length (tokensOf (join3 tokens k)) <= 3)%nat
  /\ matchesKeyword desc (join3 tokens k) = true.
Proof.
  intros T L Hk.
  pose proof (Tokens_ok _ _ T) as Ok.
  assert (Forall (fun t => Js.truthy t = true /\ Js.all tokChar t = true
                           /\ lowered t = true) tokens) as F.
  { rewrite Forall_forall in *. intros t Ht.
    destruct (Ok t Ht). repeat split; auto. }
  set (w := firstn 3 (skipn (Z.to_nat k) tokens)).
  assert (forall t, In t w -> In t tokens) as Sub.
  { intros t Ht. exact (In_window _ _ _ _ Ht). }
  assert (Forall (fun t => Js.truthy t = true /\ Js.all tokChar t = true
                           /\ lowered t = true) w) as Fw.
  { rewrite Forall_forall in *. intros t Ht. apply F, Sub, Ht. }
  assert (join3 tokens k = Js.join " " (List.map Js.toUpperCase w)) as E.
  { unfold join3. change (k + 3)%Z with (k + Z.of_nat 3)%Z.
    rewrite slice_window by lia. fold w.
    rewrite forallb_filter_id; [reflexivity|].
    apply forallb_forall. intros t Ht. rewrite Forall_forall in Fw.
    now apply Fw. }
  destruct (skipn (Z.to_nat k) tokens) as [|t0 rest] eqn:S.
  { apply (f_equal (@List.length string)) in S.
    rewrite length_skipn in S. simpl in S. lia. }
  assert (w <> []) as Nw by (unfold w; simpl; discriminate).
  pose proof (tokensOf_join w Nw Fw) as Tw. rewrite <- E in Tw.
  split.
  { rewrite E. unfold w.
    change (firstn 3 (t0 :: rest)) with (t0 :: firstn 2 rest).
    cbn [List.map]. apply join_truthy.
    assert (In t0 tokens) as I0 by (apply Sub; unfold w; now left).
    rewrite Forall_forall in F. destruct (F t0 I0) as (T0 & _).
    unfold Js.truthy, Js.toUpperCase in *. now rewrite map_isEmpty. }
  split.
  { rewrite Tw. unfold w. rewrite length_firstn. lia. }
  destruct rest as [|t1 [|t2 tl]].
  - apply matchesKeyword_independent; [rewrite Tw; simpl; lia|].
    rewrite Tw. split; [exact Nw|].
    intros t Ht. apply (Tokens_single _ _ T), Sub, Ht.
  - apply matchesKeyword_independent; [rewrite Tw; simpl; lia|].
    rewrite Tw. split; [exact Nw|].
    intros t Ht. apply (Tokens_single _ _ T), Sub, Ht.
  - apply (matchesKeyword_three desc _ t0 t1 t2); [exact Tw|].
    exact (Tokens_triple _ _ T _ _ _ _ _ S).
Qed.

Lemma tokens_of_description (d : string) :
  let tokens := List.map Js.toLowerCase (matchRuns tokChar (Js.trim d)) in
  Tokens (Js.toLowerCase d) tokens
  /\ Forall (fun t => lowered t = true) tokens
  /\ (tokens = [] <-> matchRuns tokChar d = []).
Proof.
  intros tokens. unfold tokens. rewrite matchRuns_trim. split; [|split].
  - rewrite matchRuns_toLowerCase. apply matchRuns_Tokens.
  - apply Forall_map, Forall_forall. intros t _. apply toLowerCase_lowered.
  - destruct (matchRuns tokChar d); simpl; split; congruence.
Qed.

(** The suggestion is empty when the description has no token, and is
    made of up to three tokens that follow one another otherwise. *)
Lemma derive_cases (t : Categorizer.Txn) :
  let tokens :=
    List.map Js.toLowerCase (matchRuns tokChar (Js.trim (describedBy t))) in
  (tokens = [] /\ deriveKeywordFromTxn (Some t) = "")
  \/ exists k, (0 <= k < Z.of_nat (List.length tokens))%Z
               /\ deriveKeywordFromTxn (Some t) = join3 tokens k.
Proof.
  intros tokens. unfold deriveKeywordFromTxn. fold (describedBy t).
  fold tokens.
  destruct (Js.truthy (Js.trim (describedBy t))) eqn:D; cbn [negb].
  2:{ left. split; [|reflexivity]. unfold tokens.
      apply truthy_false in D. now rewrite D. }
  destruct tokens as [|t0 ts] eqn:E; [left; now split|right].
  cbn [RuleStore.nonEmpty negb].
  pose proof (indexOf_range "paypal" (t0 :: ts)) as [P|P].
  - rewrite P. cbn [Z.eqb negb].
    destruct (atWordStart "VISA-" false _);
      [|exists 0%Z; split; [simpl; lia|reflexivity]].
    pose proof (indexOf_range "visa" (t0 :: ts)) as [V|V].
    + rewrite V. exists 0%Z. split; [simpl; lia|reflexivity].
    + destruct (Z.eqb_spec (indexOf "visa" (t0 :: ts)) (-1)); [lia|].
      cbn [negb]. eexists. split; [|reflexivity]. simpl List.length in *. lia.
  - destruct (Z.eqb_spec (indexOf "paypal" (t0 :: ts)) (-1)); [lia|].
    cbn [negb]. eexists. split; [|reflexivity]. exact P.
Qed.

End Suggestion.

(** The keyword suggested for a transaction matches the description it
    was made from, and so the description that [categorise] reads when
    the transaction has no field [desc]; it has three tokens at most; and
    it is empty exactly when the description has no run of letters,
    digits, [&], [.] or [_]. *)
Theorem derived_keyword_matches (t : Categorizer.Txn) :
  let kw := Suggest.deriveKeywordFromTxn (Some t) in
  (kw <> "" -> MatchEngine.matchesKeyword (describedBy t) kw = true)
  /\ (Categorizer.desc t = None -> kw <> "" ->
      MatchEngine.matchesKeyword (Categorizer.descLowerOf t) kw = true)
  /\ (List.length (MatchEngine.tokensOf kw) <= 3)%nat
  /\ (kw = "" <-> Suggest.matchRuns Suggest.tokChar (describedBy t) = []).
Proof.
  intros kw.
  destruct (tokens_of_description (describedBy t)) as (T & L & N).
  destruct (derive_cases t) as [[E K]|(k & Hk & K)]; fold kw in K.
  - split; [congruence|]. split; [congruence|]. split.
    + rewrite K. simpl. lia.
    + split; [intros _; now apply N|intros _; exact K].
  - destruct (join3_matches (describedBy t) _ k T L Hk) as (J1 & J2 & J3).
    rewrite <- K in J1, J2, J3.
    assert (kw <> "") as Nk by now apply truthy_true.
    split; [intros _; exact J3|]. split; [|split; [exact J2|]].
    + intros D _.
      assert (Categorizer.descLowerOf t = Js.toLowerCase (describedBy t))
        as ->.
      { unfold Categorizer.descLowerOf, describedBy. now rewrite D. }
      unfold MatchEngine.matchesKeyword in *.
      rewrite (lowered_toLowerCase (Js.toLowerCase (describedBy t)))
        by apply toLowerCase_lowered.
      exact J3.
    + split; [congruence|]. intros M. apply N in M.
      rewrite M in Hk. simpl in Hk. lia.
Qed.

(** The hypotheses at a card purchase. *)
Lemma derived_keyword_matches_witness :
  let t := Categorizer.mkTxn "2025-07-01" None
             (Some "VISA-COLES EXPRESS 1234 SYDNEY AU") (Some 54.2%float)
             None None in
  Suggest.deriveKeywordFromTxn (Some t) = "COLES EXPRESS 1234"
  /\ Suggest.deriveKeywordFromTxn (Some t) <> ""
  /\ Categorizer.desc t = None
  /\ MatchEngine.matchesKeyword (describedBy t)
       (Suggest.deriveKeywordFromTxn (Some t)) = true
  /\ MatchEngine.matchesKeyword (Categorizer.descLowerOf t)
       (Suggest.deriveKeywordFromTxn (Some t)) = true.
Proof.
  intros t.
  assert (Suggest.deriveKeywordFromTxn (Some t) <> "") as N
    by (vm_compute; discriminate).
  assert (Categorizer.desc t = None) as D by reflexivity.
  split; [reflexivity|]. split; [exact N|]. split; [exact D|]. split.
  - exact (proj1 (derived_keyword_matches t) N).
  - exact (proj1 (proj2 (derived_keyword_matches t)) D N).
Defined.


(** ** More on the MatchEngine and the Categorizer *)

Section SingleTokens.

Import MatchEngine MatchSpec.

Lemma splitRuns_pieces (p : ascii -> bool) (s : string) :
  Forall (fun t => Js.all (fun c => negb (p c)) t = true) (Js.splitRuns p s).
Proof.
  induction s as [|c r IH]; simpl; [repeat constructor|].
  destruct (p c) eqn:E.
  - destruct (Js.startsWithChar p r); [assumption|now constructor].
  - apply consHead_Forall; simpl; try rewrite E; auto.
Qed.

(** A token of a keyword is, as a keyword, that one token. *)
Lemma tokensOf_token (kw t : string) :
  In t (tokensOf kw) -> tokensOf t = [t].
Proof.
  intros H. destruct (tokensOf_In kw t H) as [T L].
  unfold tokensOf in *. apply filter_In in H as [H _].
  pose proof (splitRuns_pieces Char.isWhite (Js.toLowerCase kw)) as F.
  rewrite Forall_forall in F.
  rewrite (lowered_toLowerCase t L), (splitRuns_clean _ _ (F t H)).
  simpl. now rewrite T.
Qed.

Lemma matchesKeyword_token (desc kw t : string) :
  In t (tokensOf kw) ->
  matchesKeyword desc t = Regex.test true (tokenRe t) (Js.toLowerCase desc).
Proof.
  intros H. unfold matchesKeyword. rewrite (tokensOf_token kw t H).
  destruct (tokensOf_In kw t H) as [T _]. rewrite T. simpl.
  apply andb_true_r.
Qed.

(** With boundary characters after it, a text ends at a boundary. *)
Lemma boundaryBefore_gap (x d : string) :
  gap d = true -> boundaryBefore (x ++ d) = true.
Proof.
  unfold gap. intros H. apply andb_true_iff in H as [T A].
  rewrite boundaryBefore_append by assumption.
  now apply boundaryBefore_delims.
Qed.

Lemma boundaryAfter_gap (d y : string) :
  gap d = true -> boundaryAfter (d ++ y) = true.
Proof.
  unfold gap. destruct d as [|c d]; [discriminate|]. simpl. intros H.
  now apply andb_true_iff in H as [H _].
Qed.

(** Three tokens in order are three tokens, each between boundaries. *)
Lemma occurInOrder_each (t0 t1 t2 text : string) :
  occurInOrder t0 t1 t2 text ->
  occursDelimited t0 text /\ occursDelimited t1 text
  /\ occursDelimited t2 text.
Proof.
  intros (pre & d1 & d2 & post & -> & Hb & G1 & G2 & Ha).
  split; [|split].
  - exists pre, (d1 ++ t1 ++ d2 ++ t2 ++ post).
    split; [reflexivity|]. split; [assumption|now apply boundaryAfter_gap].
  - exists (pre ++ t0 ++ d1), (d2 ++ t2 ++ post). split; [|split].
    + now rewrite !append_assoc.
    + rewrite <- append_assoc. now apply boundaryBefore_gap.
    + now apply boundaryAfter_gap.
  - exists (pre ++ t0 ++ d1 ++ t1 ++ d2), post. split; [|split].
    + now rewrite !append_assoc.
    + rewrite <- !append_assoc. now apply boundaryBefore_gap.
    + assumption.
Qed.

Lemma matchesKeyword_each (desc kw : string) :
  matchesKeyword desc kw = true ->
  forall t, In t (tokensOf kw) -> matchesKeyword desc t = true.
Proof.
  intros M t Ht. rewrite (matchesKeyword_token desc kw t Ht).
  destruct (tokensOf_In kw t Ht) as [_ L].
  apply tokenRe_lowered; [assumption|apply toLowerCase_lowered|].
  destruct (Nat.eq_dec (List.length (tokensOf kw)) 3) as [E|N].
  - destruct (tokensOf kw) as [|a [|b [|c [|x l]]]] eqn:K; try discriminate E.
    apply (matchesKeyword_three desc kw a b c K) in M.
    apply occurInOrder_each in M as (M0 & M1 & M2).
    destruct Ht as [<-|[<-|[<-|[]]]]; assumption.
  - apply (matchesKeyword_independent desc kw N) in M as [_ M]. now apply M.
Qed.

Lemma forallb_same {A : Type} (f g : A -> bool) (l : list A) :
  (forall x, In x l -> f x = g x) -> forallb f l = forallb g l.
Proof.
  induction l as [|x l IH]; intros H; simpl; [reflexivity|].
  rewrite (H x (or_introl eq_refl)), IH; [reflexivity|].
  intros y Hy. apply H. now right.
Qed.

Lemma matchesKeyword_all (desc kw : string) :
  List.length (tokensOf kw) <> 3%nat ->
  matchesKeyword desc kw
  = RuleStore.nonEmpty (tokensOf kw)
    && forallb (fun t => matchesKeyword desc t) (tokensOf kw).
Proof.
  intros N.
  assert (forallb (fun t => matchesKeyword desc t) (tokensOf kw)
          = forallb (fun t => Regex.test true (tokenRe t) (Js.toLowerCase desc))
              (tokensOf kw)) as ->.
  { apply forallb_same. intros t Ht.
    apply (matchesKeyword_token desc kw t Ht). }
  unfold matchesKeyword.
  destruct kw as [|c kw]; [reflexivity|]. cbn [Js.truthy Js.isEmpty negb].
  destruct (tokensOf (String c kw)) as [|a [|b [|d [|e l]]]];
    try reflexivity.
  now contradiction N.
Qed.

End SingleTokens.

(** A keyword that matches a description has every one of its tokens
    matching it as a keyword of its own; when the number of tokens is not
    three the converse holds too, so that the order of the tokens and
    their repetition do not count. *)
Theorem keyword_matches_by_tokens (desc kw : string) :
  (MatchEngine.matchesKeyword desc kw = true ->
   forall t, In t (MatchEngine.tokensOf kw) ->
             MatchEngine.matchesKeyword desc t = true)
  /\ (List.length (MatchEngine.tokensOf kw) <> 3%nat ->
      MatchEngine.matchesKeyword desc kw
      = RuleStore.nonEmpty (MatchEngine.tokensOf kw)
        && forallb (fun t => MatchEngine.matchesKeyword desc t)
             (MatchEngine.tokensOf kw)).
Proof.
  split; [apply matchesKeyword_each|apply matchesKeyword_all].
Qed.

(** The hypotheses at the keywords of the fuel example. *)
Lemma keyword_matches_by_tokens_witness :
  MatchEngine.matchesKeyword "COLES EXPRESS - FUEL" "coles express fuel" = true
  /\ In "fuel" (MatchEngine.tokensOf "coles express fuel")
  /\ MatchEngine.matchesKeyword "COLES EXPRESS - FUEL" "fuel" = true
  /\ List.length (MatchEngine.tokensOf "fuel coles") <> 3%nat
  /\ MatchEngine.matchesKeyword "COLES EXPRESS - FUEL" "fuel coles"
     = RuleStore.nonEmpty (MatchEngine.tokensOf "fuel coles")
       && forallb (fun t => MatchEngine.matchesKeyword "COLES EXPRESS - FUEL" t)
            (MatchEngine.tokensOf "fuel coles").
Proof.
  assert (MatchEngine.matchesKeyword "COLES EXPRESS - FUEL"
            "coles express fuel" = true) as M by reflexivity.
  assert (In "fuel" (MatchEngine.tokensOf "coles express fuel")) as I
    by (vm_compute; auto).
  assert (List.length (MatchEngine.tokensOf "fuel coles") <> 3%nat) as N
    by (vm_compute; lia).
  split; [exact M|]. split; [exact I|]. split.
  - exact (proj1 (keyword_matches_by_tokens _ _) M "fuel" I).
  - split; [exact N|].
    exact (proj2 (keyword_matches_by_tokens "COLES EXPRESS - FUEL" "fuel coles")
             N).
Defined.

(** [categorise] writes a category that does not depend on the category
    the transaction had: categories set by hand are overwritten, doing it
    twice is doing it once, and nothing but the category changes. *)
Theorem categorise_overwrites (txns : list Categorizer.Txn)
    (rules : list RuleStore.Rule) :
  (forall f : Categorizer.Txn -> string,
      Categorizer.categorise
        (List.map (fun t => Categorizer.setCategory t (f t)) txns) rules
      = Categorizer.categorise txns rules)
  /\ Categorizer.categorise (Categorizer.categorise txns rules) rules
     = Categorizer.categorise txns rules
  /\ List.map
       (fun t => (Categorizer.date t, Categorizer.desc t,
                  Categorizer.description t, Categorizer.amount t,
                  Categorizer.debit t))
       (Categorizer.categorise txns rules)
     = List.map
         (fun t => (Categorizer.date t, Categorizer.desc t,
                    Categorizer.description t, Categorizer.amount t,
                    Categorizer.debit t))
         txns.
Proof.
  assert (forall f : Categorizer.Txn -> string,
            Categorizer.categorise
              (List.map (fun t => Categorizer.setCategory t (f t)) txns) rules
            = Categorizer.categorise txns rules) as H.
  { intros f. unfold Categorizer.categorise. rewrite map_map.
    apply map_ext. intros t. reflexivity. }
  split; [exact H|]. split.
  - unfold Categorizer.categorise at 2. apply H.
  - unfold Categorizer.categorise. rewrite map_map. apply map_ext.
    intros t. reflexivity.
Qed.

(** ** TabularIngestor *)

Section CsvRows.

Import Csv.

Variable headers : list string.

(** What every transaction made from a row satisfies. *)
Let kept (t : Categorizer.Txn) : Prop :=
  exists a, Categorizer.amount t = Some a
            /\ is_finite a = true /\ eqb a zero = false /\ is_nan a = false
            /\ (Categorizer.date t <> ""
                \/ Categorizer.description t <> Some "").

Lemma usable_spec (a : float) :
  usable a = true ->
  is_finite a = true /\ eqb a zero = false /\ is_nan a = false.
Proof.
  unfold usable. intros H. apply andb_true_iff in H as [F Z].
  apply negb_true_iff in Z. repeat split; try assumption.
  unfold is_finite in F. apply negb_true_iff, orb_false_iff in F. apply F.
Qed.

Lemma rowStep_kept (txns : list Categorizer.Txn) (r : Row) :
  Forall kept txns -> Forall kept (rowStep headers txns r).
Proof.
  intros H. unfold rowStep.
  destruct ((Js.truthy _ || Js.truthy _) && usable _) eqn:E; [|assumption].
  apply andb_true_iff in E as [D U]. apply usable_spec in U as (U1 & U2 & U3).
  unfold RuleStore.push. apply Forall_app. split; [assumption|].
  constructor; [|constructor].
  eexists. cbn [Categorizer.amount Categorizer.date Categorizer.description].
  split; [reflexivity|]. repeat split; try assumption.
  apply orb_true_iff in D as [D|D]; apply truthy_true in D;
    [left|right]; congruence.
Qed.

Lemma loadRows_kept (rows : list Row) (txns : list Categorizer.Txn) :
  Forall kept txns -> Forall kept (fold_left (rowStep headers) rows txns).
Proof.
  revert txns. induction rows as [|r rows IH]; intros txns H; simpl.
  - assumption.
  - now apply IH, rowStep_kept.
Qed.

Lemma rowStep_length (txns : list Categorizer.Txn) (r : Row) :
  (List.length (rowStep headers txns r) <= S (List.length txns))%nat.
Proof.
  unfold rowStep. destruct (_ && _); [rewrite push_length|]; lia.
Qed.

Lemma loadRows_length (rows : list Row) (txns : list Categorizer.Txn) :
  (List.length (fold_left (rowStep headers) rows txns)
   <= List.length txns + List.length rows)%nat.
Proof.
  revert txns. induction rows as [|r rows IH]; intros txns; simpl; [lia|].
  specialize (IH (rowStep headers txns r)).
  pose proof (rowStep_length txns r). lia.
Qed.

(** A row whose amount cell is absent, or has no decimal digit, is
    dropped. *)
Lemma rowStep_noDigit (txns : list Categorizer.Txn) (r : Row) :
  match cell (debitField headers) r with
  | Some s => Js.all (fun c => negb (Char.isDigit c)) s = true
  | None => True
  end ->
  rowStep headers txns r = txns.
Proof.
  intros H. unfold rowStep.
  assert (parseAmount (cell (debitField headers) r) = zero) as ->.
  { destruct (cell (debitField headers) r) as [s|]; [|reflexivity].
    now apply parseAmount_noDigit. }
  replace (usable zero) with false by reflexivity.
  now rewrite andb_false_r.
Qed.

End CsvRows.

(** Every transaction made from the table has an amount that is finite
    and not zero, and a date or a description; the transactions are never
    more than the rows; and rows whose amount cell is absent or has no
    decimal digit give no transaction. *)
Theorem loadRows_keeps_usable_rows (headers : list string)
    (rows : list Csv.Row) :
  Forall
    (fun t => exists a,
         Categorizer.amount t = Some a
         /\ is_finite a = true /\ eqb a zero = false /\ is_nan a = false
         /\ (Categorizer.date t <> ""
             \/ Categorizer.description t <> Some ""))
    (Csv.loadRows headers rows)
  /\ (List.length (Csv.loadRows headers rows) <= List.length rows)%nat
  /\ ((forall r, In r rows ->
         match Csv.cell (Csv.debitField headers) r with
         | Some s => Js.all (fun c => negb (Char.isDigit c)) s = true
         | None => True
         end) ->
      Csv.loadRows headers rows = []).
Proof.
  split; [|split].
  - apply loadRows_kept. constructor.
  - pose proof (loadRows_length headers rows []) as H. simpl in H. exact H.
  - intros H. unfold Csv.loadRows.
    assert (forall txns,
              fold_left (Csv.rowStep headers) rows txns = txns) as F.
    { induction rows as [|r rows IH]; intros txns; simpl; [reflexivity|].
      rewrite rowStep_noDigit by (apply H; now left).
      apply IH. intros r' Hr'. apply H. now right. }
    apply F.
Qed.

(** The hypothesis at two rows without an amount. *)
Lemma loadRows_keeps_usable_rows_witness :
  let headers := ["Date"; "Debit Amount"; "Description"] in
  let rows := [[("Date", "01/07/2025"); ("Debit Amount", "");
                ("Description", "PENDING")];
               [("Date", "02/07/2025"); ("Description", "INTEREST")]] in
  (forall r, In r rows ->
     match Csv.cell (Csv.debitField headers) r with
     | Some s => Js.all (fun c => negb (Char.isDigit c)) s = true
     | None => True
     end)
  /\ Csv.loadRows headers rows = [].
Proof.
  intros headers rows.
  assert (forall r, In r rows ->
            match Csv.cell (Csv.debitField headers) r with
            | Some s => Js.all (fun c => negb (Char.isDigit c)) s = true
            | None => True
            end) as H.
  { intros r [<-|[<-|[]]]; vm_compute; auto. }
  split; [exact H|].
  exact (proj2 (proj2 (loadRows_keeps_usable_rows headers rows)) H).
Defined.

(** ** Trimming *)

Section TrimLemmas.

Import Js.

Lemma trimStart_idem (s : string) : trimStart (trimStart s) = trimStart s.
Proof.
  induction s as [|c r IH]; [reflexivity|]. simpl.
  destruct (Char.isWhite c) eqn:W; [exact IH|]. simpl. now rewrite W.
Qed.

Lemma trimEnd_idem (s : string) : trimEnd (trimEnd s) = trimEnd s.
Proof.
  induction s as [|c r IH]; [reflexivity|]. simpl.
  destruct (Char.isWhite c && isEmpty (trimEnd r)) eqn:E; [reflexivity|].
  simpl. now rewrite IH, E.
Qed.

(** Trimming at the two ends can be done in either order. *)
Lemma trim_commute (s : string) : trimEnd (trimStart s) = trimStart (trimEnd s).
Proof.
  induction s as [|c r IH]; [reflexivity|]. simpl.
  destruct (Char.isWhite c) eqn:W; simpl.
  - rewrite IH. destruct (isEmpty (trimEnd r)) eqn:E.
    + apply isEmpty_true in E. now rewrite E.
    + simpl. now rewrite W.
  - now rewrite W.
Qed.

Lemma trim_idem (s : string) : trim (trim s) = trim s.
Proof.
  unfold trim. rewrite (trim_commute s), trimStart_idem.
  now rewrite <- trim_commute, trimEnd_idem.
Qed.

Lemma trim_trimStart (s : string) : trim (trimStart s) = trim s.
Proof. unfold trim. now rewrite trimStart_idem. Qed.

Lemma trim_trimEnd (s : string) : trim (trimEnd s) = trim s.
Proof. unfold trim. now rewrite !trim_commute, trimEnd_idem. Qed.

(** Trimming and the case mappings. *)
Lemma isWhite_toUpper (c : ascii) : Char.isWhite (Char.toUpper c) = Char.isWhite c.
Proof.
  unfold Char.toUpper. destruct (Char.isLower c) eqn:L; [|reflexivity].
  unfold Char.isLower in L. apply inRange_spec in L.
  pose proof (code_lt_256 c).
  unfold Char.isWhite, Char.isCode.
  assert (forall x, Char.inRange 9 13 x = false
                    <-> (Char.code x < 9 \/ 13 < Char.code x)%nat) as R
    by (intros x; apply inRange_false).
  rewrite (proj2 (R c)) by lia.
  rewrite (proj2 (R _)) by (rewrite code_of_nat; lia).
  rewrite code_of_nat by lia. simpl.
  rewrite (proj2 (Nat.eqb_neq _ _)) by lia.
  rewrite (proj2 (Nat.eqb_neq _ _)) by lia. reflexivity.
Qed.

Lemma isWhite_toLower (c : ascii) : Char.isWhite (Char.toLower c) = Char.isWhite c.
Proof.
  unfold Char.toLower. destruct (Char.isUpper c) eqn:L; [|reflexivity].
  unfold Char.isUpper in L. apply inRange_spec in L.
  pose proof (code_lt_256 c).
  unfold Char.isWhite, Char.isCode.
  assert (forall x, Char.inRange 9 13 x = false
                    <-> (Char.code x < 9 \/ 13 < Char.code x)%nat) as R
    by (intros x; apply inRange_false).
  rewrite (proj2 (R c)) by lia.
  rewrite (proj2 (R _)) by (rewrite code_of_nat; lia).
  rewrite code_of_nat by lia. simpl.
  rewrite (proj2 (Nat.eqb_neq _ _)) by lia.
  rewrite (proj2 (Nat.eqb_neq _ _)) by lia. reflexivity.
Qed.

Section Mapped.

Variable f : ascii -> ascii.
Hypothesis f_white : forall c, Char.isWhite (f c) = Char.isWhite c.

Lemma trimStart_map (s : string) : trimStart (map f s) = map f (trimStart s).
Proof.
  induction s as [|c r IH]; [reflexivity|]. simpl. rewrite f_white.
  now destruct (Char.isWhite c).
Qed.

Lemma trimEnd_map (s : string) : trimEnd (map f s) = map f (trimEnd s).
Proof.
  induction s as [|c r IH]; [reflexivity|]. simpl.
  rewrite f_white, IH, map_isEmpty.
  now destruct (Char.isWhite c && isEmpty (trimEnd r)).
Qed.

Lemma trim_map (s : string) : trim (map f s) = map f (trim s).
Proof. unfold trim. now rewrite trimStart_map, trimEnd_map. Qed.

End Mapped.

Lemma trim_toUpperCase (s : string) :
  trim (toUpperCase s) = toUpperCase (trim s).
Proof. apply trim_map, isWhite_toUpper. Qed.

Lemma trim_toLowerCase (s : string) :
  trim (toLowerCase s) = toLowerCase (trim s).
Proof. apply trim_map, isWhite_toLower. Qed.

(** White space at the end of a text. *)
Lemma trimEnd_white (x w : string) :
  all Char.isWhite w = true -> trimEnd (x ++ w) = trimEnd x.
Proof.
  intros Hw. induction x as [|c x IH]; simpl.
  - induction w as [|d w IHw]; [reflexivity|]. simpl in *.
    apply andb_true_iff in Hw as [Hd Hw]. now rewrite Hd, (IHw Hw).
  - now rewrite IH.
Qed.

Lemma trim_white_end (x w : string) :
  all Char.isWhite w = true -> trim (x ++ w) = trim x.
Proof.
  intros Hw. unfold trim. now rewrite !trim_commute, trimEnd_white.
Qed.

Lemma trim_white_start (w x : string) :
  all Char.isWhite w = true -> trim (w ++ x) = trim x.
Proof.
  intros Hw. unfold trim. f_equal.
  induction w as [|d w IH]; [reflexivity|]. simpl in *.
  apply andb_true_iff in Hw as [Hd Hw]. now rewrite Hd, IH.
Qed.

(** The head of a trimmed text is the first character that is not white
    space. *)
Lemma trim_empty (s : string) : trim s = "" <-> trimStart s = "".
Proof.
  unfold trim. split; [|now intros ->].
  destruct (trimStart s) as [|c r] eqn:E; [reflexivity|].
  assert (Char.isWhite c = false) as W.
  { clear - E. induction s as [|d s IH]; [discriminate|]. simpl in E.
    destruct (Char.isWhite d) eqn:D; [now apply IH|].
    injection E as -> _. exact D. }
  simpl. rewrite W. discriminate.
Qed.

Lemma trim_head (p : ascii -> bool) (s : string) :
  startsWithChar p (trim s) = startsWithChar p (trimStart s).
Proof.
  unfold trim. destruct (trimStart s) as [|c r] eqn:E; [reflexivity|].
  assert (Char.isWhite c = false) as W.
  { clear - E. induction s as [|d s IH]; [discriminate|]. simpl in E.
    destruct (Char.isWhite d) eqn:D; [now apply IH|].
    injection E as -> _. exact D. }
  simpl. now rewrite W.
Qed.

End TrimLemmas.

(** ** Splitting at the arrow *)

Section ArrowLemmas.

Import Js RuleLines.

Lemma splitArrow_cut (s : string) :
  splitArrow s =
  match cutArrow s with
  | Some (a, b) => a :: splitArrow b
  | None => [s]
  end.
Proof.
  induction s as [|c r IH]; [reflexivity|].
  destruct r as [|d r']; [reflexivity|].
  change (splitArrow (String c (String d r')))
    with (if Char.isCode 61 c && Char.isCode 62 d then "" :: splitArrow r'
          else consHead c (splitArrow (String d r'))).
  change (cutArrow (String c (String d r')))
    with (if Char.isCode 61 c && Char.isCode 62 d then Some ("", r')
          else match cutArrow (String d r') with
               | Some (a, b) => Some (String c a, b)
               | None => None
               end).
  destruct (Char.isCode 61 c && Char.isCode 62 d); [reflexivity|].
  rewrite IH. now destruct (cutArrow (String d r')) as [[a b]|].
Qed.

Lemma splitArrow_nonempty (s : string) : splitArrow s <> [].
Proof. rewrite splitArrow_cut. now destruct (cutArrow s) as [[a b]|]. Qed.

Lemma cutArrow_length (s a b : string) :
  cutArrow s = Some (a, b) -> (String.length b < String.length s)%nat.
Proof.
  revert a b. induction s as [|c r IH]; intros a b H; [discriminate|].
  destruct r as [|d r']; [discriminate|].
  change (cutArrow (String c (String d r')))
    with (if Char.isCode 61 c && Char.isCode 62 d then Some ("", r')
          else match cutArrow (String d r') with
               | Some (a, b) => Some (String c a, b)
               | None => None
               end) in H.
  destruct (Char.isCode 61 c && Char.isCode 62 d).
  - injection H as _ <-. simpl. lia.
  - destruct (cutArrow (String d r')) as [[a' b']|] eqn:E; [|discriminate].
    injection H as _ <-. specialize (IH _ _ eq_refl).
    change (String.length (String c (String d r')))
      with (S (String.length (String d r'))). lia.
Qed.

(** A cut text is its two sides around the arrow. *)
Lemma cutArrow_sides (s a b : string) :
  cutArrow s = Some (a, b) -> s = a ++ "=>" ++ b.
Proof.
  revert a b. induction s as [|c r IH]; intros a b H; [discriminate|].
  destruct r as [|d r']; [discriminate|].
  change (cutArrow (String c (String d r')))
    with (if Char.isCode 61 c && Char.isCode 62 d then Some ("", r')
          else match cutArrow (String d r') with
               | Some (a, b) => Some (String c a, b)
               | None => None
               end) in H.
  destruct (Char.isCode 61 c && Char.isCode 62 d) eqn:E.
  - injection H as <- <-. apply andb_true_iff in E as [E1 E2].
    apply isCode_eq in E1, E2. now subst.
  - destruct (cutArrow (String d r')) as [[a' b']|] eqn:E'; [|discriminate].
    injection H as <- <-. simpl. f_equal. now apply IH.
Qed.

(** The pieces after the first, joined again, are the text after the first
    arrow. *)
Lemma join_splitArrow (s : string) : join "=>" (splitArrow s) = s.
Proof.
  remember (String.length s) as n eqn:Hn.
  revert s Hn. induction n as [n IH] using lt_wf_ind. intros s Hn.
  rewrite splitArrow_cut. destruct (cutArrow s) as [[a b]|] eqn:E;
    [|reflexivity].
  pose proof (cutArrow_length _ _ _ E) as L.
  pose proof (cutArrow_sides _ _ _ E) as S.
  assert (join "=>" (splitArrow b) = b) as J by (apply (IH (String.length b)); [lia|reflexivity]).
  pose proof (splitArrow_nonempty b) as N.
  destruct (splitArrow b) as [|x t] eqn:B; [easy|].
  change (join "=>" (a :: x :: t)) with (a ++ "=>" ++ join "=>" (x :: t)).
  now rewrite J.
Qed.

Lemma splitArrow_two (s : string) :
  (2 <=? List.length (splitArrow s))%nat =
  match cutArrow s with Some _ => true | None => false end.
Proof.
  rewrite splitArrow_cut. destruct (cutArrow s) as [[a b]|]; [|reflexivity].
  pose proof (splitArrow_nonempty b). now destruct (splitArrow b).
Qed.

Lemma splitArrow_first (s a b : string) :
  cutArrow s = Some (a, b) -> nth 0 (splitArrow s) "" = a.
Proof. intros E. now rewrite splitArrow_cut, E. Qed.

Lemma splitArrow_second (s a b : string) :
  cutArrow s = Some (a, b) -> nth 1 (splitArrow s) "" = firstSeg b.
Proof.
  intros E. rewrite splitArrow_cut, E. simpl. unfold firstSeg.
  rewrite splitArrow_cut. now destruct (cutArrow b) as [[x y]|].
Qed.

Lemma splitArrow_rest (s a b : string) :
  cutArrow s = Some (a, b) -> join "=>" (tl (splitArrow s)) = b.
Proof. intros E. rewrite splitArrow_cut, E. simpl. apply join_splitArrow. Qed.

(** One step of [cutArrow]. *)
Lemma cutArrow_cons (c : ascii) (r : string) :
  cutArrow (String c r) =
  if Char.isCode 61 c && startsWithChar (Char.isCode 62) r
  then Some ("", match r with String _ r' => r' | "" => "" end)
  else match cutArrow r with
       | Some (a, b) => Some (String c a, b)
       | None => None
       end.
Proof.
  destruct r as [|d r']; [simpl; now rewrite andb_false_r|reflexivity].
Qed.

Lemma white_not_arrow (c : ascii) :
  Char.isWhite c = true -> Char.isCode 61 c = false /\ Char.isCode 62 c = false.
Proof.
  intros W. unfold Char.isWhite in W. apply orb_true_iff in W as [W|W].
  - apply inRange_spec in W. unfold Char.isCode.
    split; apply Nat.eqb_neq; lia.
  - apply isCode_eq in W. now subst.
Qed.

(** Trimming the start of a text trims the start of its first side. *)
Lemma cutArrow_trimStart (s : string) :
  cutArrow (trimStart s) =
  match cutArrow s with
  | Some (a, b) => Some (trimStart a, b)
  | None => None
  end.
Proof.
  induction s as [|c r IH]; [reflexivity|].
  change (trimStart (String c r))
    with (if Char.isWhite c then trimStart r else String c r).
  destruct (Char.isWhite c) eqn:W.
  - rewrite IH, cutArrow_cons.
    destruct (white_not_arrow _ W) as [-> _]. simpl.
    destruct (cutArrow r) as [[a b]|]; [|reflexivity]. simpl. now rewrite W.
  - rewrite cutArrow_cons.
    destruct (Char.isCode 61 c && startsWithChar (Char.isCode 62) r);
      [reflexivity|].
    destruct (cutArrow r) as [[a b]|]; [|reflexivity]. simpl. now rewrite W.
Qed.

Lemma trimEnd_head (p : ascii -> bool) (r : string) :
  (forall c, p c = true -> Char.isWhite c = false) ->
  startsWithChar p (trimEnd r) = startsWithChar p r.
Proof.
  intros Hp. destruct r as [|d r']; [reflexivity|]. simpl.
  destruct (Char.isWhite d && isEmpty (trimEnd r')) eqn:E; [|reflexivity].
  simpl. apply andb_true_iff in E as [W _].
  destruct (p d) eqn:P; [|reflexivity]. apply Hp in P. congruence.
Qed.

Lemma arrow_not_white (c : ascii) :
  Char.isCode 62 c = true -> Char.isWhite c = false.
Proof. intros H. apply isCode_eq in H. now subst. Qed.

(** Trimming the end of a text trims the end of its second side. *)
Lemma cutArrow_trimEnd (s : string) :
  cutArrow (trimEnd s) =
  match cutArrow s with
  | Some (a, b) => Some (a, trimEnd b)
  | None => None
  end.
Proof.
  induction s as [|c r IH]; [reflexivity|].
  change (trimEnd (String c r))
    with (if Char.isWhite c && isEmpty (trimEnd r) then ""
          else String c (trimEnd r)).
  destruct (Char.isWhite c && isEmpty (trimEnd r)) eqn:E.
  - apply andb_true_iff in E as [W E]. apply isEmpty_true in E.
    rewrite E in IH. rewrite cutArrow_cons.
    destruct (white_not_arrow _ W) as [-> _]. simpl.
    destruct (cutArrow r) as [[a b]|]; [discriminate|reflexivity].
  - rewrite !cutArrow_cons, IH, (trimEnd_head _ _ arrow_not_white).
    destruct (Char.isCode 61 c && startsWithChar (Char.isCode 62) r) eqn:A.
    + f_equal. f_equal. apply andb_true_iff in A as [_ A].
      destruct r as [|d r']; [discriminate|]. simpl in A.
      simpl. rewrite (arrow_not_white _ A). reflexivity.
    + now destruct (cutArrow r) as [[a b]|].
Qed.

Lemma cutArrow_trim (s : string) :
  cutArrow (trim s) =
  match cutArrow s with
  | Some (a, b) => Some (trimStart a, trimEnd b)
  | None => None
  end.
Proof.
  unfold trim. rewrite cutArrow_trimEnd, cutArrow_trimStart.
  now destruct (cutArrow s) as [[a b]|].
Qed.

(** The case mappings keep the arrows where they are. *)
Lemma cutArrow_map (f : ascii -> ascii) (s : string) :
  (forall c, Char.isCode 61 (f c) = Char.isCode 61 c) ->
  (forall c, Char.isCode 62 (f c) = Char.isCode 62 c) ->
  cutArrow (map f s) =
  match cutArrow s with
  | Some (a, b) => Some (map f a, map f b)
  | None => None
  end.
Proof.
  intros H1 H2. induction s as [|c r IH]; [reflexivity|].
  change (map f (String c r)) with (String (f c) (map f r)).
  rewrite !cutArrow_cons, IH, H1.
  assert (startsWithChar (Char.isCode 62) (map f r)
          = startsWithChar (Char.isCode 62) r) as ->
    by (destruct r; [reflexivity|apply H2]).
  destruct (Char.isCode 61 c && startsWithChar (Char.isCode 62) r).
  - now destruct r.
  - now destruct (cutArrow r) as [[a b]|].
Qed.

Lemma isCode_toUpper (n : nat) (c : ascii) :
  (n < 65 \/ 90 < n < 97 \/ 122 < n)%nat ->
  Char.isCode n (Char.toUpper c) = Char.isCode n c.
Proof.
  intros Hn. unfold Char.toUpper. destruct (Char.isLower c) eqn:L;
    [|reflexivity].
  unfold Char.isLower in L. apply inRange_spec in L.
  pose proof (code_lt_256 c). unfold Char.isCode.
  rewrite code_of_nat by lia.
  rewrite (proj2 (Nat.eqb_neq _ _)) by lia. symmetry. apply Nat.eqb_neq. lia.
Qed.

Lemma isCode_toLower (n : nat) (c : ascii) :
  (n < 65 \/ 90 < n < 97 \/ 122 < n)%nat ->
  Char.isCode n (Char.toLower c) = Char.isCode n c.
Proof.
  intros Hn. unfold Char.toLower. destruct (Char.isUpper c) eqn:L;
    [|reflexivity].
  unfold Char.isUpper in L. apply inRange_spec in L.
  pose proof (code_lt_256 c). unfold Char.isCode.
  rewrite code_of_nat by lia.
  rewrite (proj2 (Nat.eqb_neq _ _)) by lia. symmetry. apply Nat.eqb_neq. lia.
Qed.

Lemma cutArrow_toUpperCase (s : string) :
  cutArrow (toUpperCase s) =
  match cutArrow s with
  | Some (a, b) => Some (toUpperCase a, toUpperCase b)
  | None => None
  end.
Proof. apply cutArrow_map; intros c; apply isCode_toUpper; lia. Qed.

Lemma firstSeg_toUpperCase (s : string) :
  firstSeg (toUpperCase s) = toUpperCase (firstSeg s).
Proof.
  unfold firstSeg. rewrite cutArrow_toUpperCase.
  now destruct (cutArrow s) as [[a b]|].
Qed.

(** Trimming a text before or after taking its first piece gives the same
    trimmed piece. *)
Lemma firstSeg_trimStart (s : string) :
  trim (firstSeg (trimStart s)) = trim (firstSeg s).
Proof.
  unfold firstSeg. rewrite cutArrow_trimStart.
  destruct (cutArrow s) as [[a b]|]; apply trim_trimStart.
Qed.

Lemma firstSeg_trimEnd (s : string) :
  trim (firstSeg (trimEnd s)) = trim (firstSeg s).
Proof.
  unfold firstSeg. rewrite cutArrow_trimEnd.
  destruct (cutArrow s) as [[a b]|]; [reflexivity|apply trim_trimEnd].
Qed.

Lemma firstSeg_trim (s : string) :
  trim (firstSeg (trim s)) = trim (firstSeg s).
Proof. unfold trim at 2. now rewrite firstSeg_trimEnd, firstSeg_trimStart. Qed.

(** A text without an arrow, an arrow, and any text: the cut is at that
    arrow. *)
Lemma cutArrow_compose (a b : string) :
  cutArrow a = None -> cutArrow (a ++ "=>" ++ b) = Some (a, b).
Proof.
  induction a as [|c a IH]; intros N; [reflexivity|].
  change (String c a ++ "=>" ++ b) with (String c (a ++ "=>" ++ b)).
  rewrite cutArrow_cons in N. rewrite cutArrow_cons.
  destruct (Char.isCode 61 c && startsWithChar (Char.isCode 62) a) eqn:E;
    [discriminate|].
  assert (startsWithChar (Char.isCode 62) (a ++ "=>" ++ b)
          = startsWithChar (Char.isCode 62) a) as S.
  { destruct a as [|d a']; [|reflexivity]. simpl.
    now rewrite andb_false_r in E. }
  destruct a as [|d a'].
  - simpl. rewrite andb_false_r. reflexivity.
  - rewrite S, E. rewrite IH; [reflexivity|].
    now destruct (cutArrow (String d a')) as [[x y]|].
Qed.

Lemma cutArrow_none_snoc (a w : string) :
  cutArrow a = None -> all Char.isWhite w = true -> cutArrow (a ++ w) = None.
Proof.
  intros N W. induction a as [|c a IH].
  - simpl. clear N. induction w as [|d w IHw]; [reflexivity|].
    simpl in W. apply andb_true_iff in W as [Wd W].
    rewrite cutArrow_cons. destruct (white_not_arrow _ Wd) as [-> _].
    simpl. now rewrite (IHw W).
  - change (String c a ++ w) with (String c (a ++ w)).
    rewrite cutArrow_cons in N. rewrite cutArrow_cons.
    destruct (Char.isCode 61 c && startsWithChar (Char.isCode 62) a) eqn:E;
      [discriminate|].
    assert (startsWithChar (Char.isCode 62) (a ++ w)
            = startsWithChar (Char.isCode 62) a) as S.
    { destruct a as [|d a']; [|reflexivity]. simpl.
      destruct w as [|d w]; [reflexivity|]. simpl in *.
      apply andb_true_iff in W as [Wd _].
      now destruct (white_not_arrow _ Wd) as [_ ->]. }
    rewrite S, E. rewrite IH; [reflexivity|].
    now destruct (cutArrow a) as [[x y]|].
Qed.

Lemma firstSeg_white_start (w s : string) :
  all Char.isWhite w = true -> firstSeg (w ++ s) = w ++ firstSeg s.
Proof.
  intros W. induction w as [|d w IH]; [reflexivity|].
  simpl in W. apply andb_true_iff in W as [Wd W].
  specialize (IH W). unfold firstSeg in *.
  change (String d w ++ s) with (String d (w ++ s)).
  rewrite cutArrow_cons. destruct (white_not_arrow _ Wd) as [-> _]. simpl.
  destruct (cutArrow (w ++ s)) as [[x y]|]; now rewrite IH.
Qed.

End ArrowLemmas.

(** ** The rule lines of the box *)

Section RuleLineLemmas.

Import Js RuleStore RuleLines.

Lemma cutArrow_first_none (s a b : string) :
  cutArrow s = Some (a, b) -> cutArrow a = None.
Proof.
  revert a. induction s as [|c r IH]; intros a H; [discriminate|].
  rewrite cutArrow_cons in H.
  destruct (Char.isCode 61 c && startsWithChar (Char.isCode 62) r) eqn:E.
  - now injection H as <- _.
  - destruct (cutArrow r) as [[x y]|] eqn:R; [|discriminate].
    injection H as <- <-. specialize (IH _ eq_refl).
    rewrite cutArrow_cons, IH.
    destruct (Char.isCode 61 c && startsWithChar (Char.isCode 62) x) eqn:E';
      [|reflexivity].
    apply andb_true_iff in E' as [E1 E2]. rewrite E1 in E. simpl in E.
    destruct x as [|d x]; [discriminate|].
    apply cutArrow_sides in R. subst r. simpl in E, E2. congruence.
Qed.

(** What [parseRules] reads from one line, by the first arrow of the
    line. *)
Lemma ruleOfLine_spec (l : string) :
  ruleOfLine l =
  if blankOrComment (trim l) then []
  else
    match cutArrow l with
    | None => []
    | Some (a, b) =>
        let k := toLowerCase (trim a) in
        let c := toUpperCase (trim (firstSeg b)) in
        if truthy k && truthy c then [mkRule k c] else []
    end.
Proof.
  unfold ruleOfLine, parseRulesStep.
  destruct (blankOrComment (trim l)); [reflexivity|].
  rewrite splitArrow_two, cutArrow_trim.
  destruct (cutArrow l) as [[a b]|] eqn:E; [|reflexivity].
  assert (cutArrow (trim l) = Some (trimStart a, trimEnd b)) as T
    by now rewrite cutArrow_trim, E.
  rewrite (splitArrow_first _ _ _ T), (splitArrow_second _ _ _ T).
  rewrite trim_trimStart, firstSeg_trimEnd. reflexivity.
Qed.

Lemma parseRulesStep_app (rules : list Rule) (l : string) :
  parseRulesStep rules l = (rules ++ ruleOfLine l)%list.
Proof.
  unfold ruleOfLine, parseRulesStep, push.
  destruct (blankOrComment (trim l)); [now rewrite app_nil_r|].
  destruct (2 <=? List.length (splitArrow (trim l)))%nat;
    [|now rewrite app_nil_r].
  destruct (truthy _ && truthy _); [reflexivity|now rewrite app_nil_r].
Qed.

Lemma fold_parseRulesStep (ls : list string) (acc : list Rule) :
  fold_left parseRulesStep ls acc = (acc ++ flat_map ruleOfLine ls)%list.
Proof.
  revert acc. induction ls as [|l ls IH]; intros acc; simpl;
    [now rewrite app_nil_r|].
  now rewrite IH, parseRulesStep_app, <- app_assoc.
Qed.

Lemma parseRules_lines (text : string) :
  parseRules text = flat_map ruleOfLine (splitLines text).
Proof. unfold parseRules. now rewrite fold_parseRulesStep. Qed.

Lemma bucketStep_app (b : Buckets) (l : string) :
  bucketStep b l =
  mkBuckets (comments b ++ commentOfLine l) (ruleLines b ++ normOfLine l).
Proof.
  unfold commentOfLine, normOfLine, bucketStep, push.
  destruct (blankOrComment (trim l)); cbn [comments ruleLines];
    [now rewrite app_nil_r|].
  destruct (2 <=? List.length (splitArrow l))%nat; cbn [comments ruleLines];
    [|now rewrite app_nil_r].
  destruct (truthy _ && truthy _); cbn [comments ruleLines app].
  - now rewrite app_nil_r.
  - rewrite !app_nil_r. now destruct b.
Qed.

Lemma fold_bucketStep (ls : list string) (b : Buckets) :
  fold_left bucketStep ls b =
  mkBuckets (comments b ++ flat_map commentOfLine ls)
            (ruleLines b ++ flat_map normOfLine ls).
Proof.
  revert b. induction ls as [|l ls IH]; intros b; simpl.
  - rewrite !app_nil_r. now destruct b.
  - rewrite IH, bucketStep_app. simpl. now rewrite <- !app_assoc.
Qed.

(** What [sortRulesBox] writes for one line. *)
Lemma normOfLine_spec (l : string) :
  normOfLine l =
  if blankOrComment (trim l) then []
  else
    match cutArrow l with
    | None => []
    | Some (a, b) =>
        if truthy (trim a) && truthy (trim b)
        then [toUpperCase (trim a) ++ " => " ++ toUpperCase (trim b)]
        else []
    end.
Proof.
  unfold normOfLine, bucketStep, push.
  destruct (blankOrComment (trim l)); [reflexivity|].
  rewrite splitArrow_two.
  destruct (cutArrow l) as [[a b]|] eqn:E; [|reflexivity].
  rewrite (splitArrow_first _ _ _ E), (splitArrow_rest _ _ _ E).
  now destruct (truthy (trim a) && truthy (trim b)).
Qed.

Lemma commentOfLine_spec (l : string) :
  commentOfLine l =
  if blankOrComment (trim l) then [l]
  else match cutArrow l with None => [l] | Some _ => [] end.
Proof.
  unfold commentOfLine, bucketStep, push.
  destruct (blankOrComment (trim l)); [reflexivity|].
  rewrite splitArrow_two.
  destruct (cutArrow l) as [[a b]|] eqn:E; [|reflexivity].
  now destruct (truthy _ && truthy _).
Qed.

(** A line kept as a comment gives no rule. *)
Lemma commentOfLine_rule (l : string) :
  flat_map ruleOfLine (commentOfLine l) = [].
Proof.
  rewrite commentOfLine_spec.
  destruct (blankOrComment (trim l)) eqn:B.
  - simpl. rewrite ruleOfLine_spec, B. reflexivity.
  - destruct (cutArrow l) as [[a b]|] eqn:E; [reflexivity|].
    simpl. rewrite ruleOfLine_spec, B, E. reflexivity.
Qed.

Lemma trim_first_not_white (s : string) (c : ascii) (r : string) :
  trim s = String c r -> Char.isWhite c = false.
Proof.
  intros H. destruct (Char.isWhite c) eqn:W; [|reflexivity].
  assert (trim (String c r) = String c r) as F by (rewrite <- H; apply trim_idem).
  unfold trim in F. simpl in F. rewrite W in F.
  exfalso. clear - F.
  assert (forall x, (String.length (trimStart x) <= String.length x)%nat) as L1.
  { induction x as [|d x IH]; simpl; [lia|].
    destruct (Char.isWhite d); simpl; lia. }
  assert (forall x, (String.length (trimEnd x) <= String.length x)%nat) as L2.
  { induction x as [|d x IH]; simpl; [lia|].
    destruct (Char.isWhite d && isEmpty (trimEnd x)); simpl; lia. }
  apply (f_equal String.length) in F. simpl in F.
  specialize (L1 r). specialize (L2 (trimStart r)). lia.
Qed.

Lemma trimStart_fixed (s x : string) :
  trim s <> "" -> trimStart (trim s ++ x) = trim s ++ x.
Proof.
  intros N. destruct (trim s) as [|c r] eqn:E; [easy|].
  simpl. now rewrite (trim_first_not_white _ _ _ E).
Qed.

Lemma startsWith_prefix (p : ascii -> bool) (a x : string) :
  a <> "" -> startsWithChar p (a ++ x) = startsWithChar p a.
Proof. intros N. now destruct a. Qed.

(** The first character of a rule line is the first character of its
    keyword. *)
Lemma rule_line_head (p : ascii -> bool) (l a b : string) :
  cutArrow l = Some (a, b) -> trim a <> "" ->
  startsWithChar p (trim l) = startsWithChar p (trim a).
Proof.
  intros E N. rewrite !trim_head.
  pose proof (cutArrow_trimStart l) as T. rewrite E in T.
  apply cutArrow_sides in T. rewrite T.
  apply startsWith_prefix. intros Z. apply N. now apply trim_empty.
Qed.

Lemma startsWith_toUpperCase (n : nat) (s : string) :
  (n < 65 \/ 90 < n < 97 \/ 122 < n)%nat ->
  startsWithChar (Char.isCode n) (toUpperCase s)
  = startsWithChar (Char.isCode n) s.
Proof. intros H. destruct s; [reflexivity|]. simpl. now apply isCode_toUpper. Qed.

Lemma toUpperCase_empty (s : string) : toUpperCase s = "" <-> s = "".
Proof. now destruct s. Qed.

(** The line written by [sortRulesBox] for a rule line gives the rule that
    [parseRules] reads from the line itself. *)
Lemma normOfLine_rule (l : string) :
  flat_map ruleOfLine (normOfLine l) = ruleOfLine l.
Proof.
  rewrite normOfLine_spec, (ruleOfLine_spec l).
  destruct (blankOrComment (trim l)) eqn:B; [reflexivity|].
  destruct (cutArrow l) as [[a b]|] eqn:E; [|reflexivity].
  destruct (truthy (trim a)) eqn:Ta.
  2:{ simpl. apply truthy_false in Ta. rewrite Ta. reflexivity. }
  destruct (truthy (trim b)) eqn:Tb.
  2:{ simpl. apply truthy_false in Tb.
      assert (cutArrow b = None) as Nb.
      { pose proof (cutArrow_trim b) as T. rewrite Tb in T.
        now destruct (cutArrow b) as [[x y]|]. }
      unfold firstSeg. rewrite Nb, Tb. simpl. now rewrite andb_false_r. }
  apply truthy_true in Ta, Tb.
  cbn [andb flat_map]. rewrite app_nil_r.
  set (U := toUpperCase (trim a)). set (C := toUpperCase (trim b)).
  assert (U ++ " => " ++ C = (U ++ " ") ++ "=>" ++ (" " ++ C)) as Shape
    by (rewrite append_assoc; reflexivity).
  assert (U <> "") as NU by (unfold U; now rewrite toUpperCase_empty).
  assert (trimStart (U ++ " => " ++ C) = U ++ " => " ++ C) as Fix.
  { unfold U. rewrite <- trim_toUpperCase. apply trimStart_fixed.
    rewrite trim_toUpperCase. exact NU. }
  assert (blankOrComment (trim (U ++ " => " ++ C)) = false) as B'.
  { unfold blankOrComment in *. apply orb_false_iff in B as [B1 B2].
    apply orb_false_iff. split.
    - destruct (trim (U ++ " => " ++ C)) eqn:T; [|reflexivity].
      apply trim_empty in T. rewrite Fix in T. now destruct U.
    - rewrite trim_head, Fix, startsWith_prefix by exact NU.
      unfold U. rewrite startsWith_toUpperCase by lia.
      now rewrite <- (rule_line_head _ l a b E Ta). }
  assert (cutArrow (U ++ " => " ++ C) = Some (U ++ " ", " " ++ C)) as Cut.
  { rewrite Shape. apply cutArrow_compose. apply cutArrow_none_snoc;
      [|reflexivity].
    unfold U. rewrite cutArrow_toUpperCase, cutArrow_trim.
    now rewrite (cutArrow_first_none _ _ _ E). }
  rewrite (ruleOfLine_spec (U ++ " => " ++ C)), B', Cut.
  cbv zeta.
  rewrite trim_white_end by reflexivity.
  rewrite (firstSeg_white_start " " C) by reflexivity.
  rewrite trim_white_start by reflexivity.
  unfold U, C.
  rewrite trim_toUpperCase, trim_idem, toLowerCase_toUpperCase.
  rewrite firstSeg_toUpperCase, trim_toUpperCase, toUpperCase_idem.
  rewrite firstSeg_trim. reflexivity.
Qed.

(** *** Lines and line feeds *)

Lemma oneLine_cons (c : ascii) (s : string) :
  oneLine (String c s) = negb (Char.isLF c) && oneLine s.
Proof. reflexivity. Qed.

Lemma splitLines_oneLine (s : string) : Forall (fun l => oneLine l = true) (splitLines s).
Proof.
  induction s as [|c r IH]; simpl; [now constructor|].
  destruct (Char.isLF c) eqn:L; [now constructor|].
  destruct (Char.isCR c && startsWithChar Char.isLF r); [exact IH|].
  apply consHead_Forall; [| |exact IH].
  - intros h H. rewrite oneLine_cons, L. exact H.
  - rewrite oneLine_cons, L. reflexivity.
Qed.

Lemma splitLines_single (l : string) : oneLine l = true -> splitLines l = [l].
Proof.
  induction l as [|c r IH]; [reflexivity|]. rewrite oneLine_cons.
  intros H. apply andb_true_iff in H as [Hc Hr]. simpl.
  apply negb_true_iff in Hc. rewrite Hc.
  assert (startsWithChar Char.isLF r = false) as ->.
  { destruct r as [|d r]; [reflexivity|]. rewrite oneLine_cons in Hr.
    apply andb_true_iff in Hr as [Hd _]. now apply negb_true_iff in Hd. }
  rewrite andb_false_r, (IH Hr). reflexivity.
Qed.

(** A line followed by a line feed is read back, but for a carriage return
    at its end. *)
Lemma splitLines_line (l rest : string) :
  oneLine l = true ->
  exists l', splitLines (l ++ nl ++ rest) = l' :: splitLines rest
             /\ trimEnd l' = trimEnd l.
Proof.
  induction l as [|c r IH]; intros H.
  - exists "". split; reflexivity.
  - rewrite oneLine_cons in H. apply andb_true_iff in H as [Hc Hr].
    apply negb_true_iff in Hc. destruct (IH Hr) as [l' [S T]].
    change (String c r ++ nl ++ rest) with (String c (r ++ nl ++ rest)).
    cbn [splitLines]. rewrite Hc.
    destruct (Char.isCR c && startsWithChar Char.isLF (r ++ nl ++ rest)) eqn:E.
    + apply andb_true_iff in E as [E1 E2].
      destruct r as [|d r].
      * exists "". split; [reflexivity|].
        apply isCode_eq in E1. subst c. reflexivity.
      * simpl in E2. rewrite oneLine_cons in Hr.
        apply andb_true_iff in Hr as [Hd _]. apply negb_true_iff in Hd.
        congruence.
    + exists (String c l'). rewrite S. split; [reflexivity|].
      simpl. now rewrite T.
Qed.

Lemma ruleOfLine_trimEnd (l l' : string) :
  trimEnd l' = trimEnd l -> ruleOfLine l' = ruleOfLine l.
Proof.
  intros H. unfold ruleOfLine, parseRulesStep.
  assert (trim l' = trim l) as -> by (unfold trim; now rewrite !trim_commute, H).
  reflexivity.
Qed.

(** The rules read from lines joined by line feeds are the rules of the
    lines. *)
Lemma rules_of_joined (out : list string) :
  Forall (fun l => oneLine l = true) out ->
  flat_map ruleOfLine (splitLines (join nl out)) = flat_map ruleOfLine out.
Proof.
  induction 1 as [|l out Hl Hout IH]; [reflexivity|].
  destruct out as [|l2 out].
  - simpl. now rewrite (splitLines_single _ Hl).
  - change (join nl (l :: l2 :: out)) with (l ++ nl ++ join nl (l2 :: out)).
    destruct (splitLines_line l (join nl (l2 :: out)) Hl) as [l' [S T]].
    rewrite S. cbn [flat_map]. rewrite IH.
    now rewrite (ruleOfLine_trimEnd _ _ T).
Qed.

Lemma oneLine_append (a b : string) :
  oneLine (a ++ b) = oneLine a && oneLine b.
Proof. apply all_append. Qed.

Lemma oneLine_toUpperCase (s : string) : oneLine (toUpperCase s) = oneLine s.
Proof.
  induction s as [|c r IH]; [reflexivity|].
  change (toUpperCase (String c r)) with (String (Char.toUpper c) (toUpperCase r)).
  rewrite !oneLine_cons, IH. unfold Char.isLF.
  now rewrite isCode_toUpper by lia.
Qed.

Lemma normOfLine_oneLine (l : string) :
  oneLine l = true -> Forall (fun x => oneLine x = true) (normOfLine l).
Proof.
  intros H. rewrite normOfLine_spec.
  destruct (blankOrComment (trim l)); [constructor|].
  destruct (cutArrow l) as [[a b]|] eqn:E; [|constructor].
  destruct (truthy _ && truthy _); [|constructor].
  constructor; [|constructor].
  apply cutArrow_sides in E. subst l.
  rewrite !oneLine_append in H.
  apply andb_true_iff in H as [Ha H]. apply andb_true_iff in H as [_ Hb].
  rewrite !oneLine_append, !oneLine_toUpperCase.
  unfold oneLine. rewrite !trim_all by assumption. reflexivity.
Qed.

Lemma commentOfLine_oneLine (l : string) :
  oneLine l = true -> Forall (fun x => oneLine x = true) (commentOfLine l).
Proof.
  intros H. rewrite commentOfLine_spec.
  destruct (blankOrComment (trim l)); [now repeat constructor|].
  destruct (cutArrow l); now repeat constructor.
Qed.

Lemma Forall_flat_map {A B : Type} (P : A -> Prop) (Q : B -> Prop)
      (f : A -> list B) (l : list A) :
  (forall x, P x -> Forall Q (f x)) -> Forall P l -> Forall Q (flat_map f l).
Proof.
  intros H. induction 1 as [|x l Hx Hl IH]; simpl; [constructor|].
  apply Forall_app. split; [now apply H|exact IH].
Qed.

Lemma flat_map_flat_map {A B C : Type} (f : A -> list B) (g : B -> list C)
      (l : list A) :
  flat_map g (flat_map f l) = flat_map (fun x => flat_map g (f x)) l.
Proof.
  induction l as [|x l IH]; simpl; [reflexivity|].
  now rewrite flat_map_app, IH.
Qed.

Lemma flat_map_nil {A B : Type} (f : A -> list B) (l : list A) :
  (forall x, f x = []) -> flat_map f l = [].
Proof.
  intros H. induction l as [|x l IH]; simpl; [reflexivity|].
  now rewrite H, IH.
Qed.

Lemma flat_map_same {A B : Type} (f g : A -> list B) (l : list A) :
  (forall x, f x = g x) -> flat_map f l = flat_map g l.
Proof.
  intros H. induction l as [|x l IH]; simpl; [reflexivity|].
  now rewrite H, IH.
Qed.

Lemma Permutation_flat_map' {A B : Type} (f : A -> list B) (l l' : list A) :
  Permutation l l' -> Permutation (flat_map f l) (flat_map f l').
Proof.
  induction 1; simpl.
  - constructor.
  - now apply Permutation_app_head.
  - rewrite !app_assoc. apply Permutation_app_tail, Permutation_app_comm.
  - etransitivity; eassumption.
Qed.

Section Sorted.

Variable localeCompare : string -> string -> Z.

Lemma insertLine_perm (x : string) (l : list string) :
  Permutation (insertLine localeCompare x l) (x :: l).
Proof.
  induction l as [|y l IH]; simpl; [reflexivity|].
  destruct (compareLines localeCompare x y <=? 0)%Z; [reflexivity|].
  rewrite IH. apply perm_swap.
Qed.

Lemma sortLines_perm (l : list string) :
  Permutation (sortLines localeCompare l) l.
Proof.
  induction l as [|x l IH]; simpl; [reflexivity|].
  rewrite insertLine_perm. now constructor.
Qed.

End Sorted.

End RuleLineLemmas.

(** ** Sorting the box, adding a rule *)

Section RuleBoxLemmas.

Import Js RuleStore RuleLines RuleBox.

Variable localeCompare : string -> string -> Z.

Lemma nonEmpty_id {A : Type} (l : list A) :
  (if nonEmpty l then l else []) = l.
Proof. now destruct l. Qed.

(** The rules read from the sorted box are the rules read from the box, in
    another order. *)
Lemma canonicalize_rules (original : string) :
  Permutation (parseRules (canonicalize localeCompare original))
              (parseRules original).
Proof.
  unfold canonicalize. rewrite fold_bucketStep. cbn [comments ruleLines app].
  set (lines := splitLines original).
  set (cs := flat_map commentOfLine lines).
  set (rs := flat_map normOfLine lines).
  set (sorted := sortLines localeCompare rs).
  rewrite !nonEmpty_id.
  assert (Forall (fun l => oneLine l = true) lines) as Hl
    by apply splitLines_oneLine.
  assert (Forall (fun l => oneLine l = true) cs) as Hc.
  { unfold cs. eapply Forall_flat_map; [|exact Hl].
    intros x Hx. now apply commentOfLine_oneLine. }
  assert (Forall (fun l => oneLine l = true) rs) as Hr.
  { unfold rs. eapply Forall_flat_map; [|exact Hl].
    intros x Hx. now apply normOfLine_oneLine. }
  assert (Forall (fun l => oneLine l = true) sorted) as Hs.
  { apply Forall_forall. intros x Hx.
    apply (Permutation_in _ (sortLines_perm localeCompare rs)) in Hx.
    revert x Hx. now apply Forall_forall. }
  rewrite !parseRules_lines, rules_of_joined.
  2:{ apply Forall_app. split; [exact Hc|]. apply Forall_app. split; [|exact Hs].
      destruct (nonEmpty cs && nonEmpty sorted); now repeat constructor. }
  rewrite !flat_map_app.
  assert (flat_map ruleOfLine cs = []) as ->.
  { unfold cs. rewrite flat_map_flat_map. apply flat_map_nil.
    apply commentOfLine_rule. }
  assert (flat_map ruleOfLine
            (if nonEmpty cs && nonEmpty sorted then [""] else []) = []) as ->
    by now destruct (nonEmpty cs && nonEmpty sorted).
  cbn [app]. unfold sorted.
  rewrite (Permutation_flat_map' ruleOfLine _ _ (sortLines_perm localeCompare rs)).
  unfold rs. rewrite flat_map_flat_map.
  rewrite (flat_map_same _ ruleOfLine) by apply normOfLine_rule.
  reflexivity.
Qed.

Lemma sortRulesBox_value (x : string) :
  fst (sortRulesBox localeCompare x) = canonicalize localeCompare x.
Proof.
  unfold sortRulesBox.
  destruct (String.eqb (canonicalize localeCompare x) x) eqn:E; [|reflexivity].
  apply String.eqb_eq in E. simpl. now rewrite E.
Qed.

(** *** The line written for a new rule *)

Lemma plain_spec (s : string) :
  plain s = true ->
  s <> "" /\ trim s = s /\ cutArrow s = None /\ oneLine s = true.
Proof.
  unfold plain. intros H.
  apply andb_true_iff in H as [H H4]. apply andb_true_iff in H as [H H3].
  apply andb_true_iff in H as [H1 H2].
  apply truthy_true in H1. apply String.eqb_eq in H2.
  destruct (cutArrow s); [discriminate|]. auto.
Qed.

Lemma ruleOfLine_new (K C : string) :
  plain K = true -> startsWithChar (Char.isCode 35) K = false ->
  plain C = true ->
  ruleOfLine (ruleLine K C) = [mkRule (toLowerCase K) (toUpperCase C)].
Proof.
  intros HK Hash HC.
  destruct (plain_spec _ HK) as (NK & TK & AK & _).
  destruct (plain_spec _ HC) as (NC & TC & AC & _).
  unfold ruleLine.
  assert (K ++ " => " ++ C = (K ++ " ") ++ "=>" ++ (" " ++ C)) as Shape
    by (rewrite append_assoc; reflexivity).
  assert (trimStart (K ++ " => " ++ C) = K ++ " => " ++ C) as Fix.
  { rewrite <- TK. apply trimStart_fixed. now rewrite TK. }
  assert (blankOrComment (trim (K ++ " => " ++ C)) = false) as B.
  { unfold blankOrComment. apply orb_false_iff. split.
    - destruct (trim (K ++ " => " ++ C)) eqn:T; [|reflexivity].
      apply trim_empty in T. rewrite Fix in T. now destruct K.
    - now rewrite trim_head, Fix, startsWith_prefix. }
  assert (cutArrow (K ++ " => " ++ C) = Some (K ++ " ", " " ++ C)) as Cut.
  { rewrite Shape. apply cutArrow_compose.
    now apply cutArrow_none_snoc. }
  rewrite ruleOfLine_spec, B, Cut. cbv zeta.
  rewrite trim_white_end by reflexivity.
  rewrite (firstSeg_white_start " " C) by reflexivity.
  rewrite trim_white_start by reflexivity.
  unfold firstSeg. rewrite AC, TK, TC.
  assert (truthy (toLowerCase K) = true) as -> by now destruct K.
  assert (truthy (toUpperCase C) = true) as -> by now destruct C.
  reflexivity.
Qed.

Lemma ruleLine_oneLine (K C : string) :
  plain K = true -> plain C = true -> oneLine (ruleLine K C) = true.
Proof.
  intros HK HC.
  destruct (plain_spec _ HK) as (_ & _ & _ & LK).
  destruct (plain_spec _ HC) as (_ & _ & _ & LC).
  unfold ruleLine. now rewrite !oneLine_append, LK, LC.
Qed.

(** *** The loop *)

Lemma sameKeyword_spec (k l : string) :
  sameKeyword k l =
  if blankOrComment (trim l) then false
  else match cutArrow l with
       | None => false
       | Some (a, _) => String.eqb (toLowerCase (trim a)) k
       end.
Proof.
  unfold sameKeyword.
  destruct (blankOrComment (trim l)); [reflexivity|].
  rewrite splitArrow_two, cutArrow_trim.
  destruct (cutArrow l) as [[a b]|] eqn:E; [|reflexivity].
  assert (cutArrow (trim l) = Some (trimStart a, trimEnd b)) as T
    by now rewrite cutArrow_trim, E.
  now rewrite (splitArrow_first _ _ _ T), trim_trimStart.
Qed.

Lemma sameKeyword_no (k l : string) :
  sameKeyword k l = false ->
  Forall (fun r => keyword r <> k) (ruleOfLine l).
Proof.
  rewrite sameKeyword_spec, ruleOfLine_spec.
  destruct (blankOrComment (trim l)); [constructor|].
  destruct (cutArrow l) as [[a b]|]; [|constructor].
  intros H. cbv zeta. destruct (truthy _ && truthy _); [|constructor].
  constructor; [|constructor]. simpl. now apply String.eqb_neq.
Qed.

Lemma sameKeyword_yes (k l : string) :
  sameKeyword k l = true ->
  ruleOfLine l = [] \/ exists c, ruleOfLine l = [mkRule k c].
Proof.
  rewrite sameKeyword_spec, ruleOfLine_spec.
  destruct (blankOrComment (trim l)); [discriminate|].
  destruct (cutArrow l) as [[a b]|]; [|discriminate].
  intros H. apply String.eqb_eq in H. cbv zeta. rewrite H.
  destruct (truthy _ && truthy _); [right; eauto|now left].
Qed.

Lemma updateFirst_spec (k new : string) (lines : list string) :
  (updateFirst k new lines = (lines, false)
   /\ Forall (fun l => sameKeyword k l = false) lines)
  \/ exists pre l post,
       lines = (pre ++ l :: post)%list
       /\ updateFirst k new lines = ((pre ++ new :: post)%list, true)
       /\ Forall (fun l => sameKeyword k l = false) pre
       /\ sameKeyword k l = true.
Proof.
  induction lines as [|l rest IH].
  - left. split; [reflexivity|constructor].
  - cbn [updateFirst]. destruct (sameKeyword k l) eqn:S.
    + right. exists [], l, rest. repeat split; auto.
    + destruct IH as [[E F]|(pre & l0 & post & E1 & E2 & F & Y)].
      * left. rewrite E. split; [reflexivity|now constructor].
      * right. exists (l :: pre), l0, post. rewrite E2, E1.
        repeat split; auto.
Qed.

Lemma Forall_flat_map_rules (k : string) (lines : list string) :
  Forall (fun l => sameKeyword k l = false) lines ->
  Forall (fun r => keyword r <> k) (flat_map ruleOfLine lines).
Proof.
  intros H. eapply Forall_flat_map; [|exact H].
  intros x Hx. now apply sameKeyword_no.
Qed.

(** What [addOrUpdateRuleLine] does to the rules of the box. *)
Lemma addOrUpdate_rules (value K C : string) :
  plain K = true -> startsWithChar (Char.isCode 35) K = false ->
  plain C = true ->
  let new := mkRule (toLowerCase K) (toUpperCase C) in
  let out := addOrUpdateRuleLine localeCompare value K C in
  snd out = true
  /\ exists R1 old R2,
       parseRules value = (R1 ++ old ++ R2)%list
       /\ Forall (fun r => keyword r <> toLowerCase K) R1
       /\ (old = [] \/ exists c, old = [mkRule (toLowerCase K) c])
       /\ Permutation (parseRules (fst out)) (new :: R1 ++ R2).
Proof.
  intros HK Hash HC new out.
  destruct (plain_spec _ HK) as (NK & _). destruct (plain_spec _ HC) as (NC & _).
  apply truthy_true in NK, NC.
  unfold out, addOrUpdateRuleLine. rewrite NK, NC. cbn [negb orb].
  assert (forall x, fst (sortRulesBox localeCompare x)
                    = canonicalize localeCompare x) as SB.
  { intros x. unfold sortRulesBox.
    destruct (String.eqb (canonicalize localeCompare x) x) eqn:E;
      [|reflexivity].
    apply String.eqb_eq in E. simpl. now rewrite E. }
  pose proof (splitLines_oneLine value) as Hl.
  pose proof (ruleLine_oneLine K C HK HC) as Hn.
  pose proof (ruleOfLine_new K C HK Hash HC) as Rn.
  destruct (updateFirst_spec (toLowerCase K) (ruleLine K C) (splitLines value))
    as [[E F]|(pre & l & post & E1 & E2 & F & Y)].
  - rewrite E. cbn [negb snd fst]. split; [reflexivity|].
    exists (parseRules value), [], []. rewrite !app_nil_r.
    split; [reflexivity|]. split.
    { rewrite parseRules_lines. now apply Forall_flat_map_rules. }
    split; [now left|].
    rewrite SB, canonicalize_rules, parseRules_lines, rules_of_joined.
    2:{ unfold push. apply Forall_app. split; [exact Hl|now repeat constructor]. }
    unfold push. rewrite flat_map_app. cbn [flat_map]. rewrite Rn, app_nil_r.
    rewrite <- parseRules_lines. symmetry. apply Permutation_cons_append.
  - rewrite E2. cbn [negb snd fst]. split; [reflexivity|].
    exists (flat_map ruleOfLine pre), (ruleOfLine l), (flat_map ruleOfLine post).
    split.
    { rewrite parseRules_lines, E1, flat_map_app. reflexivity. }
    split; [now apply Forall_flat_map_rules|].
    split; [now apply sameKeyword_yes|].
    rewrite E1 in Hl. apply Forall_app in Hl as [Hpre Hpost].
    inversion Hpost as [|? ? _ Hpost']; subst.
    rewrite SB, canonicalize_rules, parseRules_lines, rules_of_joined.
    2:{ apply Forall_app. split; [exact Hpre|now constructor]. }
    rewrite flat_map_app. cbn [flat_map]. rewrite Rn. cbn [app].
    symmetry. apply Permutation_middle.
Qed.

End RuleBoxLemmas.

(** ** The suggested keyword as a rule *)

Section SuggestedRule.

Import Js RuleStore RuleLines RuleBox Suggest.

Lemma tokChar_code (c : ascii) :
  tokChar c = true ->
  (65 <= Char.code c <= 90 \/ 97 <= Char.code c <= 122
   \/ 48 <= Char.code c <= 57
   \/ Char.code c = 38 \/ Char.code c = 46 \/ Char.code c = 95)%nat.
Proof.
  unfold tokChar, Char.isUpper, Char.isLower, Char.isDigit, Char.isCode.
  rewrite !orb_true_iff, !inRange_spec, !Nat.eqb_eq. tauto.
Qed.

Lemma tokChar_not_code (n : nat) (c : ascii) :
  n = 35 \/ n = 61 \/ n = 62 \/ n = 10 ->
  tokChar c = true -> Char.isCode n c = false.
Proof.
  intros Hn H. apply tokChar_code in H. unfold Char.isCode.
  apply Nat.eqb_neq. lia.
Qed.

Lemma tokChar_toUpper (c : ascii) : tokChar (Char.toUpper c) = tokChar c.
Proof.
  unfold Char.toUpper. destruct (Char.isLower c) eqn:L; [|reflexivity].
  unfold tokChar at 2. rewrite L, orb_true_r. simpl.
  unfold Char.isLower in L. apply inRange_spec in L.
  pose proof (code_lt_256 c).
  unfold tokChar.
  assert (Char.isUpper (ascii_of_nat (Char.code c - 32)) = true) as ->.
  { apply inRange_spec. rewrite code_of_nat; lia. }
  reflexivity.
Qed.

Lemma all_toUpperCase (t : string) :
  all tokChar (toUpperCase t) = all tokChar t.
Proof.
  induction t as [|c t IH]; [reflexivity|].
  change (toUpperCase (String c t)) with (String (Char.toUpper c) (toUpperCase t)).
  simpl. now rewrite tokChar_toUpper, IH.
Qed.

Lemma cutArrow_clean (s : string) :
  all (fun c => negb (Char.isCode 61 c)) s = true -> cutArrow s = None.
Proof.
  induction s as [|c r IH]; [reflexivity|]. simpl all. intros H.
  apply andb_true_iff in H as [Hc Hr]. apply negb_true_iff in Hc.
  rewrite cutArrow_cons, Hc, (IH Hr). reflexivity.
Qed.

Lemma keyChar_no_arrow (s : string) :
  all keyChar s = true -> cutArrow s = None.
Proof.
  intros H. apply cutArrow_clean. revert H. apply all_impl.
  intros c Hc. apply negb_true_iff. unfold keyChar in Hc.
  apply orb_true_iff in Hc as [Hc|Hc].
  - apply (tokChar_not_code 61); auto.
  - apply isCode_eq in Hc. now subst.
Qed.

Lemma keyChar_oneLine (s : string) : all keyChar s = true -> oneLine s = true.
Proof.
  apply all_impl. intros c Hc. apply negb_true_iff. unfold keyChar in Hc.
  apply orb_true_iff in Hc as [Hc|Hc].
  - apply (tokChar_not_code 10); auto.
  - apply isCode_eq in Hc. now subst.
Qed.

Lemma trimEnd_clean (x : string) :
  all tokChar x = true -> trimEnd x = x.
Proof.
  induction x as [|c x IH]; [reflexivity|]. simpl. intros H.
  apply andb_true_iff in H as [Hc Hx].
  destruct (Char.isWhite c) eqn:W;
    [now rewrite (white_not_tokChar c W) in Hc|].
  simpl. now rewrite (IH Hx).
Qed.

Lemma trimEnd_append_fixed (a y : string) :
  y <> "" -> trimEnd y = y -> trimEnd (a ++ y) = a ++ y.
Proof.
  intros N F. induction a as [|c a IH]; [exact F|]. simpl. rewrite IH.
  assert (isEmpty (a ++ y) = false) as ->
    by (destruct a; [now destruct y|reflexivity]).
  now rewrite andb_false_r.
Qed.

(** Tokens joined by single spaces. *)
Lemma join_plain (x : string) (l : list string) :
  Forall (fun t => truthy t = true /\ all tokChar t = true) (x :: l) ->
  let s := join " " (x :: l) in
  s <> "" /\ startsWithChar tokChar s = true /\ trimEnd s = s
  /\ all keyChar s = true.
Proof.
  revert x. induction l as [|y l IH]; intros x H s.
  - inversion H as [|? ? [Tx Ax] _]; subst. unfold s. simpl.
    split; [now apply truthy_true|]. split.
    + destruct x as [|c x]; [discriminate|]. simpl in *.
      now apply andb_true_iff in Ax as [-> _].
    + split; [now apply trimEnd_clean|].
      revert Ax. apply all_impl. intros c Hc. unfold keyChar. now rewrite Hc.
  - inversion H as [|? ? [Tx Ax] H']; subst.
    destruct (IH y H') as (N & S & T & K).
    unfold s. change (join " " (x :: y :: l)) with (x ++ " " ++ join " " (y :: l)).
    split; [destruct x; [discriminate|discriminate]|]. split.
    + destruct x as [|c x]; [discriminate|]. simpl in *.
      now apply andb_true_iff in Ax as [-> _].
    + split.
      * rewrite <- append_assoc. apply trimEnd_append_fixed; assumption.
      * assert (all keyChar x = true) as Kx.
        { revert Ax. apply all_impl. intros c Hc. unfold keyChar.
          now rewrite Hc. }
        rewrite !all_append, Kx, K. reflexivity.
Qed.

Lemma join_is_plain (x : string) (l : list string) :
  Forall (fun t => truthy t = true /\ all tokChar t = true) (x :: l) ->
  plain (join " " (x :: l)) = true
  /\ startsWithChar (Char.isCode 35) (join " " (x :: l)) = false.
Proof.
  intros H. destruct (join_plain x l H) as (N & S & T & K).
  set (s := join " " (x :: l)) in *.
  assert (trimStart s = s) as TS.
  { destruct s as [|c r]; [reflexivity|]. simpl in S. simpl.
    destruct (Char.isWhite c) eqn:W; [|reflexivity].
    now rewrite (white_not_tokChar c W) in S. }
  split.
  - unfold plain. rewrite (keyChar_no_arrow _ K), (keyChar_oneLine _ K).
    unfold trim. rewrite TS, T, String.eqb_refl.
    apply truthy_true in N. now rewrite N.
  - destruct s as [|c r]; [reflexivity|]. simpl in *.
    apply (tokChar_not_code 35); auto.
Qed.

Lemma join3_plain (tokens : list string) (k : Z) :
  Forall (fun t => truthy t = true /\ all tokChar t = true) tokens ->
  (0 <= k < Z.of_nat (List.length tokens))%Z ->
  plain (join3 tokens k) = true
  /\ startsWithChar (Char.isCode 35) (join3 tokens k) = false.
Proof.
  intros F Hk.
  set (w := firstn 3 (skipn (Z.to_nat k) tokens)).
  assert (Forall (fun t => truthy t = true /\ all tokChar t = true) w) as Fw.
  { rewrite Forall_forall in *. intros t Ht. apply F.
    exact (In_window _ _ _ _ Ht). }
  assert (join3 tokens k = join " " (List.map toUpperCase w)) as E.
  { unfold join3. change (k + 3)%Z with (k + Z.of_nat 3)%Z.
    rewrite slice_window by lia. fold w.
    rewrite forallb_filter_id; [reflexivity|].
    apply forallb_forall. intros t Ht. rewrite Forall_forall in Fw.
    now apply Fw. }
  rewrite E.
  assert (Forall (fun t => truthy t = true /\ all tokChar t = true)
            (List.map toUpperCase w)) as Fu.
  { apply Forall_forall. intros u Hu. apply in_map_iff in Hu as (t & <- & Ht).
    rewrite Forall_forall in Fw. destruct (Fw t Ht) as [T A].
    split; [now destruct t|now rewrite all_toUpperCase]. }
  destruct (skipn (Z.to_nat k) tokens) as [|t0 rest] eqn:S.
  { apply (f_equal (@List.length string)) in S.
    rewrite length_skipn in S. simpl in S. lia. }
  unfold w in *. change (firstn 3 (t0 :: rest)) with (t0 :: firstn 2 rest) in *.
  cbn [List.map] in *. now apply join_is_plain.
Qed.

(** The suggested keyword, when there is one, is a plain text that does
    not start a comment. *)
Lemma derived_plain (t : Categorizer.Txn) :
  deriveKeywordFromTxn (Some t) <> "" ->
  plain (deriveKeywordFromTxn (Some t)) = true
  /\ startsWithChar (Char.isCode 35) (deriveKeywordFromTxn (Some t)) = false.
Proof.
  intros N.
  destruct (tokens_of_description (describedBy t)) as (T & _ & _).
  destruct (derive_cases t) as [[_ K]|(k & Hk & K)]; [congruence|].
  rewrite K. apply join3_plain; [|exact Hk].
  exact (Tokens_ok _ _ T).
Qed.

Lemma matchesKeyword_lower (d kw : string) :
  MatchEngine.matchesKeyword d (toLowerCase kw) = MatchEngine.matchesKeyword d kw.
Proof.
  unfold MatchEngine.matchesKeyword, MatchEngine.tokensOf.
  rewrite (lowered_toLowerCase (toLowerCase kw)) by apply toLowerCase_lowered.
  unfold truthy, toLowerCase. now rewrite map_isEmpty.
Qed.

End SuggestedRule.

(** ** Sorting a box of rule lines twice *)

Section Settle.

Import Js RuleStore RuleLines.

Variable localeCompare : string -> string -> Z.

Hypothesis localeCompare_total :
  forall a b, (localeCompare a b <= 0)%Z \/ (localeCompare b a <= 0)%Z.

Lemma insertLine_inOrder (x : string) (l : list string) :
  inOrder localeCompare l -> inOrder localeCompare (insertLine localeCompare x l).
Proof.
  induction l as [|y t IH]; intros H; [simpl; auto|].
  cbn [insertLine].
  destruct (Z.leb_spec (compareLines localeCompare x y) 0) as [L|G].
  - cbn [inOrder]. split; [exact L|exact H].
  - destruct H as [Hy Ht]. specialize (IH Ht).
    cbn [inOrder]. split; [|exact IH].
    destruct t as [|z t'].
    + simpl. unfold compareLines in *.
      destruct (localeCompare_total (sortKey x) (sortKey y)); lia.
    + cbn [insertLine] in *.
      destruct (compareLines localeCompare x z <=? 0)%Z.
      * unfold compareLines in *.
        destruct (localeCompare_total (sortKey x) (sortKey y)); lia.
      * exact Hy.
Qed.

Lemma sortLines_inOrder (l : list string) :
  inOrder localeCompare (sortLines localeCompare l).
Proof.
  induction l as [|x t IH]; [exact I|]. now apply insertLine_inOrder.
Qed.

Lemma sortLines_fixed (l : list string) :
  inOrder localeCompare l -> sortLines localeCompare l = l.
Proof.
  induction l as [|x t IH]; intros H; [reflexivity|].
  destruct H as [Hx Ht]. cbn [sortLines]. rewrite (IH Ht).
  destruct t as [|y t']; [reflexivity|]. cbn [insertLine].
  apply Z.leb_le in Hx. now rewrite Hx.
Qed.

End Settle.

Section Normal.

Import Js RuleStore RuleLines.

(** A line followed by a line feed is read back as it is when it does not
    end with white space. *)
Lemma splitLines_line_exact (l rest : string) :
  oneLine l = true -> trimEnd l = l ->
  splitLines (l ++ nl ++ rest) = l :: splitLines rest.
Proof.
  induction l as [|c r IH]; intros H T; [reflexivity|].
  rewrite oneLine_cons in H. apply andb_true_iff in H as [Hc Hr].
  apply negb_true_iff in Hc.
  assert (trimEnd r = r) as Tr.
  { simpl in T. destruct (Char.isWhite c && isEmpty (trimEnd r));
      [discriminate|]. now injection T. }
  change (String c r ++ nl ++ rest) with (String c (r ++ nl ++ rest)).
  cbn [splitLines]. rewrite Hc, (IH Hr Tr).
  destruct (Char.isCR c && startsWithChar Char.isLF (r ++ nl ++ rest)) eqn:E;
    [|reflexivity].
  exfalso. apply andb_true_iff in E as [E1 E2].
  destruct r as [|d r].
  - apply isCode_eq in E1. subst c. discriminate T.
  - simpl in E2. rewrite oneLine_cons in Hr.
    apply andb_true_iff in Hr as [Hd _]. apply negb_true_iff in Hd.
    congruence.
Qed.

Lemma splitLines_join_exact (x : string) (l : list string) :
  Forall (fun s => oneLine s = true /\ trimEnd s = s) (x :: l) ->
  splitLines (join nl (x :: l)) = x :: l.
Proof.
  revert x. induction l as [|y l IH]; intros x H.
  - inversion H as [|? ? [O _] _]; subst. now apply splitLines_single.
  - inversion H as [|? ? [O T] H']; subst.
    change (join nl (x :: y :: l)) with (x ++ nl ++ join nl (y :: l)).
    rewrite (splitLines_line_exact _ _ O T). now rewrite (IH y H').
Qed.

Lemma trimEnd_trim (s : string) : trimEnd (trim s) = trim s.
Proof. unfold trim. apply trimEnd_idem. Qed.

Lemma normOfLine_written (l : string) :
  oneLine l = true -> Forall written (normOfLine l).
Proof.
  intros Hl. pose proof (normOfLine_oneLine l Hl) as One.
  rewrite normOfLine_spec in *.
  destruct (blankOrComment (trim l)) eqn:B; [constructor|].
  destruct (cutArrow l) as [[a b]|] eqn:E; [|constructor].
  destruct (truthy (trim a)) eqn:Ta; [|constructor].
  destruct (truthy (trim b)) eqn:Tb; [|constructor].
  cbn [andb] in *. constructor; [|constructor].
  inversion One as [|? ? O _]; subst. clear One.
  apply truthy_true in Ta, Tb.
  set (U := toUpperCase (trim a)) in *. set (C := toUpperCase (trim b)) in *.
  assert (U ++ " => " ++ C = (U ++ " ") ++ "=>" ++ (" " ++ C)) as Shape
    by (rewrite append_assoc; reflexivity).
  assert (U <> "") as NU by (unfold U; now rewrite toUpperCase_empty).
  assert (C <> "") as NC by (unfold C; now rewrite toUpperCase_empty).
  assert (trim U = U) as TU
    by (unfold U; now rewrite trim_toUpperCase, trim_idem).
  assert (trim C = C) as TC
    by (unfold C; now rewrite trim_toUpperCase, trim_idem).
  assert (trimStart (U ++ " => " ++ C) = U ++ " => " ++ C) as Fix.
  { rewrite <- TU. apply trimStart_fixed. now rewrite TU. }
  assert (blankOrComment (trim (U ++ " => " ++ C)) = false) as B'.
  { unfold blankOrComment in *. apply orb_false_iff in B as [B1 B2].
    apply orb_false_iff. split.
    - destruct (trim (U ++ " => " ++ C)) eqn:T; [|reflexivity].
      apply trim_empty in T. rewrite Fix in T. now destruct U.
    - rewrite trim_head, Fix, startsWith_prefix by exact NU.
      unfold U. rewrite startsWith_toUpperCase by lia.
      now rewrite <- (rule_line_head _ l a b E Ta). }
  assert (cutArrow (U ++ " => " ++ C) = Some (U ++ " ", " " ++ C)) as Cut.
  { rewrite Shape. apply cutArrow_compose. apply cutArrow_none_snoc;
      [|reflexivity].
    unfold U. rewrite cutArrow_toUpperCase, cutArrow_trim.
    now rewrite (cutArrow_first_none _ _ _ E). }
  split; [exact O|]. split.
  - assert (forall p y, y <> "" -> trimEnd y = y -> trimEnd (p ++ y) = p ++ y)
      as Keep.
    { intros p y Ny Fy. induction p as [|c p IH]; [exact Fy|]. simpl.
      rewrite IH.
      assert (isEmpty (p ++ y) = false) as ->
        by (destruct p; [now destruct y|reflexivity]).
      now rewrite andb_false_r. }
    rewrite <- (append_assoc U " => " C). apply Keep; [exact NC|].
    rewrite <- TC. apply trimEnd_trim.
  - split.
    + rewrite commentOfLine_spec, B', Cut. reflexivity.
    + rewrite normOfLine_spec, B', Cut.
      rewrite trim_white_end by reflexivity.
      rewrite trim_white_start by reflexivity.
      rewrite TU, TC.
      apply truthy_true in NU, NC. rewrite NU, NC. cbn [andb].
      unfold U, C. now rewrite !toUpperCase_idem.
Qed.

End Normal.

Section SettleBox.

Import Js RuleStore RuleLines.

Variable localeCompare : string -> string -> Z.

Hypothesis localeCompare_total :
  forall a b, (localeCompare a b <= 0)%Z \/ (localeCompare b a <= 0)%Z.

Lemma written_lines (l : list string) :
  Forall written l ->
  flat_map commentOfLine l = [] /\ flat_map normOfLine l = l.
Proof.
  induction 1 as [|n l (_ & _ & C & N) _ [IHc IHn]]; [split; reflexivity|].
  simpl. now rewrite C, N, IHc, IHn.
Qed.

(** A box made of lines as [sortRulesBox] writes them, in order, is left
    as it is. *)
Lemma canonicalize_written (l : list string) :
  Forall written l -> inOrder localeCompare l ->
  canonicalize localeCompare (join nl l) = join nl l.
Proof.
  intros W O. destruct l as [|x l]; [reflexivity|].
  unfold canonicalize. rewrite splitLines_join_exact.
  2:{ revert W. apply Forall_impl. intros n (A & B & _). auto. }
  rewrite fold_bucketStep. cbn [comments ruleLines app].
  destruct (written_lines _ W) as [-> ->].
  rewrite (sortLines_fixed localeCompare (x :: l) O). reflexivity.
Qed.

Lemma ruleLines_no_comment (lines : list string) :
  Forall (fun l => isRuleLine l = true) lines ->
  flat_map commentOfLine lines = [].
Proof.
  induction 1 as [|l lines H _ IH]; [reflexivity|].
  simpl. rewrite IH, app_nil_r, commentOfLine_spec.
  unfold isRuleLine in H. apply andb_true_iff in H as [B A].
  apply negb_true_iff in B. rewrite B. rewrite splitArrow_two in A.
  now destruct (cutArrow l).
Qed.

(** Sorting a box of rule lines gives a box that sorting leaves as it
    is. *)
Lemma canonicalize_settles (original : string) :
  Forall (fun l => isRuleLine l = true) (splitLines original) ->
  canonicalize localeCompare (canonicalize localeCompare original)
  = canonicalize localeCompare original.
Proof.
  intros H.
  assert (exists l, canonicalize localeCompare original = join nl l
                    /\ Forall written l /\ inOrder localeCompare l)
    as (l & E & W & O).
  { exists (sortLines localeCompare (flat_map normOfLine (splitLines original))).
    split; [|split].
    - unfold canonicalize. rewrite fold_bucketStep. cbn [comments ruleLines app].
      rewrite (ruleLines_no_comment _ H). cbn [nonEmpty andb app].
      now rewrite nonEmpty_id.
    - apply Forall_forall. intros n Hn.
      apply (Permutation_in _ (sortLines_perm localeCompare _)) in Hn.
      revert n Hn. apply Forall_forall.
      eapply Forall_flat_map; [|apply splitLines_oneLine].
      intros x Hx. now apply normOfLine_written.
    - now apply sortLines_inOrder. }
  rewrite E. now apply canonicalize_written.
Qed.

End SettleBox.

(** ** Results on the rules box *)

(** [sortRulesBox] (script.js 157-208) changes the text of the box, but
    not the rules that [parseRules] reads from it, their order apart:
    whatever the collation, the rules of the sorted box are a permutation
    of the rules of the box. *)
Theorem sortRulesBox_keeps_rules (localeCompare : string -> string -> Z)
    (original : string) :
  Permutation
    (RuleStore.parseRules (fst (RuleStore.sortRulesBox localeCompare original)))
    (RuleStore.parseRules original).
Proof. rewrite sortRulesBox_value. apply canonicalize_rules. Qed.



(** The keyword that [deriveKeywordFromTxn] (script.js 732-747) suggests
    for a transaction, given to [addOrUpdateRuleLine] (754-782) with a
    plain category as [assignCategory] does, is added: the call returns
    [true], [parseRules] reads the rule from the new box, the rule's
    keyword matches the description the suggestion was made from, and a
    transaction without a field [desc] is then matched by a rule of the
    box. *)
Theorem suggested_rule_is_added (localeCompare : string -> string -> Z)
    (t : Categorizer.Txn) (value C : string) :
  let kw := Suggest.deriveKeywordFromTxn (Some t) in
  kw <> "" ->
  RuleBox.plain C = true ->
  let new := RuleStore.mkRule (Js.toLowerCase kw) (Js.toUpperCase C) in
  let out := RuleBox.addOrUpdateRuleLine localeCompare value kw C in
  snd out = true
  /\ In new (RuleStore.parseRules (fst out))
  /\ MatchEngine.matchesKeyword (describedBy t) (RuleStore.keyword new) = true
  /\ (Categorizer.desc t = None ->
      Categorizer.scanRules (Categorizer.descLowerOf t)
        (RuleStore.parseRules (fst out)) <> None).
Proof.
  intros kw N HC new out.
  destruct (derived_plain t N) as [HK Hash]. fold kw in HK, Hash.
  destruct (addOrUpdate_rules localeCompare value kw C HK Hash HC)
    as (Ok & R1 & old & R2 & _ & _ & _ & P).
  fold out in Ok, P. fold new in P.
  assert (In new (RuleStore.parseRules (fst out))) as I
    by (apply (Permutation_in _ (Permutation_sym P)); now left).
  assert (MatchEngine.matchesKeyword (describedBy t) (RuleStore.keyword new)
          = true) as M.
  { unfold new. cbn [RuleStore.keyword]. rewrite matchesKeyword_lower.
    destruct (tokens_of_description (describedBy t)) as (T & L & _).
    destruct (derive_cases t) as [[_ K]|(k & Hk & K)];
      [fold kw in K; congruence|].
    fold kw in K. rewrite K.
    now destruct (join3_matches (describedBy t) _ k T L Hk) as (_ & _ & J). }
  split; [exact Ok|]. split; [exact I|]. split; [exact M|].
  intros D.
  assert (Categorizer.descLowerOf t = Js.toLowerCase (describedBy t)) as E.
  { unfold Categorizer.descLowerOf, describedBy. now rewrite D. }
  rewrite scanRules_find.
  destruct (find _ (rev (RuleStore.parseRules (fst out)))) as [r|] eqn:F;
    [discriminate|].
  exfalso.
  assert (In new (rev (RuleStore.parseRules (fst out)))) as I'
    by now apply in_rev in I.
  pose proof (find_none _ _ F new I') as Z. cbv beta in Z.
  rewrite E in Z. unfold MatchEngine.matchesKeyword in Z, M.
  rewrite (lowered_toLowerCase (Js.toLowerCase (describedBy t))) in Z
    by apply toLowerCase_lowered.
  congruence.
Qed.

(** The hypotheses at a card purchase and an empty box. *)
Lemma suggested_rule_is_added_witness :
  let cmp := fun _ _ : string => 0%Z in
  let t := Categorizer.mkTxn "2025-07-01" None
             (Some "VISA-COLES EXPRESS 1234 SYDNEY AU") (Some 54.2%float)
             None None in
  let out := RuleBox.addOrUpdateRuleLine cmp ""
               (Suggest.deriveKeywordFromTxn (Some t)) "GROCERIES" in
  Suggest.deriveKeywordFromTxn (Some t) <> ""
  /\ RuleBox.plain "GROCERIES" = true
  /\ out = (Js.nl ++ Js.nl ++ "COLES EXPRESS 1234 => GROCERIES", true)
  /\ In (RuleStore.mkRule "coles express 1234" "GROCERIES")
        (RuleStore.parseRules (fst out))
  /\ Categorizer.scanRules (Categorizer.descLowerOf t)
       (RuleStore.parseRules (fst out)) <> None.
Proof.
  intros cmp t out.
  assert (Suggest.deriveKeywordFromTxn (Some t) <> "") as N
    by (vm_compute; discriminate).
  assert (RuleBox.plain "GROCERIES" = true) as P by reflexivity.
  split; [exact N|]. split; [exact P|]. split; [reflexivity|].
  pose proof (suggested_rule_is_added cmp t "" "GROCERIES" N P) as H.
  split.
  - exact (proj1 (proj2 H)).
  - exact (proj2 (proj2 (proj2 H)) eq_refl).
Defined.

(** When every line of the box is a rule line (not blank, not a comment,
    with an arrow) and the collation compares any two keys one way or the
    other, [sortRulesBox] (script.js 157-208) settles at once: called
    again on the box it has written, it changes nothing and returns
    [false]. *)
Theorem sortRulesBox_settles_on_rule_lines
    (localeCompare : string -> string -> Z) (original : string) :
  (forall a b, (localeCompare a b <= 0)%Z \/ (localeCompare b a <= 0)%Z) ->
  Forall (fun l => RuleLines.isRuleLine l = true) (Js.splitLines original) ->
  let once := fst (RuleStore.sortRulesBox localeCompare original) in
  RuleStore.sortRulesBox localeCompare once = (once, false).
Proof.
  intros T H once. unfold once. rewrite sortRulesBox_value.
  unfold RuleStore.sortRulesBox at 1.
  rewrite (canonicalize_settles localeCompare T original H).
  now rewrite String.eqb_refl.
Qed.

(** The hypotheses at a box of two rule lines out of order. *)
Lemma sortRulesBox_settles_on_rule_lines_witness :
  let cmp := fun a b : string =>
    match String.compare a b with Lt => (-1)%Z | Eq => 0%Z | Gt => 1%Z end in
  let original := "woolworths => food" ++ Js.nl ++ "aldi => Groceries" in
  (forall a b, (cmp a b <= 0)%Z \/ (cmp b a <= 0)%Z)
  /\ Forall (fun l => RuleLines.isRuleLine l = true) (Js.splitLines original)
  /\ RuleStore.sortRulesBox cmp original
     = ("ALDI => GROCERIES" ++ Js.nl ++ "WOOLWORTHS => FOOD", true)
  /\ RuleStore.sortRulesBox cmp
       (fst (RuleStore.sortRulesBox cmp original))
     = (fst (RuleStore.sortRulesBox cmp original), false).
Proof.
  intros cmp original.
  assert (forall a b, (cmp a b <= 0)%Z \/ (cmp b a <= 0)%Z) as T.
  { intros a b. unfold cmp. rewrite (String.compare_antisym a b).
    destruct (String.compare b a); simpl; lia. }
  assert (Forall (fun l => RuleLines.isRuleLine l = true)
            (Js.splitLines original)) as H.
  { assert (Js.splitLines original
            = ["woolworths => food"; "aldi => Groceries"]) as ->
      by (vm_compute; reflexivity).
    repeat (constructor; [vm_compute; reflexivity|]). constructor. }
  split; [exact T|]. split; [exact H|]. split.
  { vm_compute; reflexivity. }
  exact (sortRulesBox_settles_on_rule_lines cmp original T H).
Defined.

(** ** The list of the category picker *)

Section CategoryListLemmas.

Import Js CategoryList.

Lemma existsb_eqb (x : string) (s : list string) :
  existsb (String.eqb x) s = true <-> In x s.
Proof.
  rewrite existsb_exists. split.
  - intros (y & Hy & E). apply String.eqb_eq in E. now subst.
  - intros H. exists x. split; [exact H|apply String.eqb_refl].
Qed.

Lemma setAdd_spec (s : list string) (x : string) :
  NoDup s ->
  NoDup (setAdd s x) /\ forall c, In c (setAdd s x) <-> In c s \/ c = x.
Proof.
  intros N. unfold setAdd. destruct (existsb (String.eqb x) s) eqn:E.
  - apply existsb_eqb in E. split; [exact N|]. intros c. split; [auto|].
    intros [H|E']; [|subst c]; assumption.
  - assert (~ In x s) as Nx.
    { intros H. apply existsb_eqb in H. congruence. }
    split.
    + apply NoDup_app; [exact N|repeat constructor; easy|].
      intros a Ha Hx. destruct Hx as [E'|F]; [|exact F]. subst a.
      contradiction.
    + intros c. rewrite in_app_iff. simpl. intuition.
Qed.

Lemma fold_setAdd_spec (arr s : list string) :
  NoDup s ->
  NoDup (fold_left setAdd arr s)
  /\ forall c, In c (fold_left setAdd arr s) <-> In c s \/ In c arr.
Proof.
  revert s. induction arr as [|x arr IH]; intros s N; simpl.
  - split; [exact N|]. intuition.
  - destruct (setAdd_spec s x N) as [N' I'].
    destruct (IH _ N') as [N'' I'']. split; [exact N''|].
    intros c. rewrite I'', I'. intuition.
Qed.

Lemma newSet_spec (arr : list string) :
  NoDup (newSet arr) /\ forall c, In c (newSet arr) <-> In c arr.
Proof.
  destruct (fold_setAdd_spec arr [] (NoDup_nil _)) as [N I].
  split; [exact N|]. intros c. rewrite (I c). simpl. intuition.
Qed.

Section Sorted.

Variable localeCompare : string -> string -> Z.

Lemma insertName_perm (x : string) (l : list string) :
  Permutation (insertName localeCompare x l) (x :: l).
Proof.
  induction l as [|y l IH]; simpl; [reflexivity|].
  destruct (localeCompare x y <=? 0)%Z; [reflexivity|].
  rewrite IH. apply perm_swap.
Qed.

Lemma sortNames_perm (l : list string) :
  Permutation (sortNames localeCompare l) l.
Proof.
  induction l as [|x l IH]; simpl; [reflexivity|].
  rewrite insertName_perm. now constructor.
Qed.

End Sorted.

(** The entries kept after the special ones. *)
Lemma filter_display (l : list string) :
  List.filter (fun c => negb (isSpecial c)) (List.map display l)
  = List.filter
      (fun c => negb (isSpecial c)
                && negb (String.eqb (toUpperCase c) "UNCATEGORISED")) l.
Proof.
  induction l as [|c l IH]; [reflexivity|]. simpl. rewrite IH.
  unfold display at 1 2.
  destruct (String.eqb (toUpperCase c) "UNCATEGORISED"); simpl.
  - now rewrite andb_false_r.
  - now rewrite andb_true_r.
Qed.

End CategoryListLemmas.

(** The list that [assignCategory] (script.js 789-799) gives to the
    picker starts with the two special entries, has no entry twice, and
    its other entries are exactly the categories in use, the special
    entries and the spellings of [UNCATEGORISED] apart. *)
Theorem picker_list_is_the_categories_in_use
    (localeCompare : string -> string -> Z)
    (txns : list Categorizer.Txn) (rules : list RuleStore.Rule) :
  exists rest,
    CategoryList.categoriesOf localeCompare txns rules
    = CategoryList.ADD_NEW :: CategoryList.UNCATEGORISED :: rest
    /\ NoDup (CategoryList.categoriesOf localeCompare txns rules)
    /\ forall c,
         In c rest <->
         (CategoryList.inUse txns rules c
          /\ c <> CategoryList.ADD_NEW
          /\ Js.toUpperCase c <> "UNCATEGORISED").
Proof.
  unfold CategoryList.categoriesOf.
  set (fromTxns := List.map _ txns).
  set (fromRules := List.map RuleStore.category rules).
  set (merged := CategoryList.newSet
                   (List.filter Js.truthy (List.map Js.trim (fromTxns ++ fromRules)))).
  set (base := List.map CategoryList.display (CategoryList.newSet merged)).
  set (kept := List.filter
                 (fun c => negb (CategoryList.isSpecial c)
                           && negb (String.eqb (Js.toUpperCase c) "UNCATEGORISED"))
                 (CategoryList.newSet merged)).
  assert (List.filter (fun c => negb (CategoryList.isSpecial c))
            (CategoryList.ADD_NEW ::
               (if existsb (String.eqb CategoryList.UNCATEGORISED) base
                then base else CategoryList.UNCATEGORISED :: base)) = kept) as K.
  { cbn [List.filter]. 
    change (negb (CategoryList.isSpecial CategoryList.ADD_NEW)) with false.
    cbv iota.
    destruct (existsb (String.eqb CategoryList.UNCATEGORISED) base).
    - apply filter_display.
    - cbn [List.filter].
      change (negb (CategoryList.isSpecial CategoryList.UNCATEGORISED)) with false.
      cbv iota. apply filter_display. }
  rewrite K.
  destruct (newSet_spec merged) as [N2 I2].
  destruct (newSet_spec (List.filter Js.truthy
                           (List.map Js.trim (fromTxns ++ fromRules))))
    as [N1 I1]. fold merged in N1, I1.
  assert (forall c, In c kept <->
            (CategoryList.inUse txns rules c
             /\ c <> CategoryList.ADD_NEW
             /\ Js.toUpperCase c <> "UNCATEGORISED")) as Char.
  { intros c. unfold kept. rewrite filter_In, I2, I1, filter_In, in_map_iff.
    rewrite andb_true_iff, !negb_true_iff. unfold CategoryList.isSpecial.
    rewrite orb_false_iff, !String.eqb_neq, truthy_true.
    unfold CategoryList.inUse. split.
    - intros [[(x & E & Hx) Nc] [[NA NU] NC]]. split; [|auto].
      split; [exact Nc|]. apply in_app_iff in Hx as [Hx|Hx].
      + left. unfold fromTxns in Hx. apply in_map_iff in Hx as (t & <- & Ht).
        exists t. split; [exact Ht|]. now rewrite trim_idem in E.
      + right. unfold fromRules in Hx. apply in_map_iff in Hx as (r & <- & Hr).
        exists r. auto.
    - intros [[Nc H] [NA NC]]. split; [split; [|exact Nc]|].
      + destruct H as [(t & Ht & E)|(r & Hr & E)].
        * exists c. split; [subst c; apply trim_idem|].
          apply in_app_iff. left. unfold fromTxns. apply in_map_iff.
          exists t. auto.
        * exists (RuleStore.category r). split; [exact E|].
          apply in_app_iff. right. unfold fromRules. now apply in_map.
      + split; [split; [exact NA|]|exact NC].
        intros ->. apply NC. reflexivity. }
  assert (NoDup kept) as Nk by (unfold kept; now apply NoDup_filter).
  pose proof (sortNames_perm localeCompare kept) as P.
  exists (CategoryList.sortNames localeCompare kept).
  split; [reflexivity|]. split.
  - assert (NoDup (CategoryList.sortNames localeCompare kept)) as Ns
      by (apply (Permutation_NoDup (Permutation_sym P)), Nk).
    assert (forall c, In c (CategoryList.sortNames localeCompare kept) ->
                      c <> CategoryList.ADD_NEW
                      /\ Js.toUpperCase c <> "UNCATEGORISED") as Out.
    { intros c Hc. apply (Permutation_in _ P) in Hc. now apply Char in Hc. }
    constructor.
    + intros [E|H]; [discriminate|]. now destruct (Out _ H).
    + constructor; [|exact Ns].
      intros H. destruct (Out _ H) as [_ U]. now apply U.
  - intros c. rewrite <- Char. split; intros H.
    + exact (Permutation_in _ P H).
    + exact (Permutation_in _ (Permutation_sym P) H).
Qed.
